(** * Encrypted keystore engine of web3.js ([lib/utils/key.js])

    A shallow embedding of [GenKey], [EncryptKey], [DecryptKey] and
    [DecryptKeyV3], and the properties of the keystore specification
    checked against it.

    The JavaScript code is sequential and its only effects are draws from
    the entropy pool, calls into three libraries ([crypto], [scrypt],
    [ethereumjs-util]) and exceptions.  It is modelled in a state-and-error
    monad over a [World] that carries the entropy pool and a chronological
    trace of the library calls.  The libraries themselves are not part of
    the repository: they are the fields of the [Host] interface.

    The development goes on with the code around the engine: [getKDFKey],
    the function of key.js that nothing calls, and the argument handling
    of [SolidityFunction] in function.js ([extractCallback],
    [extractDefaultBlock], [toPayload], [signature], [unpackOutput],
    [call] and [sendTransaction]), whose helper modules are the fields of
    the [Modules] interface. *)

From Stdlib Require Import String Ascii Bool Arith ZArith NArith Lia.
From Stdlib Require Import Decimal DecimalString.
From Stdlib Require Import Strings.Byte.
From Stdlib Require Import List.
Import ListNotations.

Local Open Scope string_scope.
Local Open Scope list_scope.

Set Implicit Arguments.
Set Warnings "-register-all".

(* ================================================================== *)
(** * Buffers *)

(** A Node [Buffer] is a sequence of octets. *)
Definition bytes := list byte.

Module Buf.

Definition bit8 : Type := bool * (bool * (bool * (bool * (bool * (bool * (bool * bool)))))).

Definition xor8 (x y : bit8) : bit8 :=
  let '(a0, (a1, (a2, (a3, (a4, (a5, (a6, a7))))))) := x in
  let '(b0, (b1, (b2, (b3, (b4, (b5, (b6, b7))))))) := y in
  (xorb a0 b0, (xorb a1 b1, (xorb a2 b2, (xorb a3 b3,
  (xorb a4 b4, (xorb a5 b5, (xorb a6 b6, xorb a7 b7))))))).

(** Octet-wise exclusive or. *)
Definition byte_xor (a b : byte) : byte :=
  Byte.of_bits (xor8 (Byte.to_bits a) (Byte.to_bits b)).

(** [mask8 i] has exactly bit [i mod 8] set (bit 0 is the least
    significant one). *)
Definition mask8 (i : nat) : bit8 :=
  let on k := Nat.eqb (i mod 8) k in
  (on 0, (on 1, (on 2, (on 3, (on 4, (on 5, (on 6, on 7))))))).

Definition byte_flip (i : nat) (b : byte) : byte :=
  Byte.of_bits (xor8 (Byte.to_bits b) (mask8 i)).

(** [xor data ks]: [data] combined with the key stream [ks], octet by
    octet; the result is as long as [data] when [ks] is long enough. *)
Fixpoint xor (data ks : bytes) : bytes :=
  match data, ks with
  | d :: data', k :: ks' => byte_xor d k :: xor data' ks'
  | _, _ => []
  end.

(** [buf.slice(from, to)] for literal non-negative bounds: the octets at
    the positions [from <= i < to], clamped to the buffer. *)
Definition slice (b : bytes) (from to : nat) : bytes :=
  skipn from (firstn to b).

(** [Buffer.concat([a, b])]. *)
Definition concat (l : list bytes) : bytes := List.concat l.

(** Flip bit [i] of a buffer, counting from the least significant bit of
    the first octet: bit [i mod 8] of octet [i / 8]. *)
Fixpoint flip_bit (i : nat) (b : bytes) : bytes :=
  match b with
  | [] => []
  | x :: b' =>
      if Nat.ltb i 8 then byte_flip i x :: b' else x :: flip_bit (i - 8) b'
  end.

End Buf.

Arguments Buf.byte_xor : simpl never.
Arguments Buf.byte_flip : simpl never.

(* ------------------------------------------------------------------ *)
(** ** Hexadecimal text: [buf.toString('hex')] and [new Buffer(s, 'hex')] *)

Module Hex.

(** The digit of a nibble, lower case as Node prints it. *)
Definition digit (n : N) : ascii :=
  match n with
  | 0%N => "0" | 1%N => "1" | 2%N => "2" | 3%N => "3"
  | 4%N => "4" | 5%N => "5" | 6%N => "6" | 7%N => "7"
  | 8%N => "8" | 9%N => "9" | 10%N => "a" | 11%N => "b"
  | 12%N => "c" | 13%N => "d" | 14%N => "e" | _ => "f"
  end%char.

(** The value of a digit; the decoder takes both cases. *)
Definition value (c : ascii) : option N :=
  let n := N_of_ascii c in
  if (48 <=? n)%N && (n <=? 57)%N then Some (n - 48)%N
  else if (97 <=? n)%N && (n <=? 102)%N then Some (n - 87)%N
  else if (65 <=? n)%N && (n <=? 70)%N then Some (n - 55)%N
  else None.

Definition is_lower_digit (c : ascii) : bool :=
  let n := N_of_ascii c in
  ((48 <=? n)%N && (n <=? 57)%N) || ((97 <=? n)%N && (n <=? 102)%N).

Definition byte_of_nibbles (h l : N) : byte :=
  match Byte.of_N (16 * h + l) with
  | Some b => b
  | None => x00
  end.

(** [buf.toString('hex')]: two lower-case digits per octet. *)
Fixpoint encode (b : bytes) : string :=
  match b with
  | [] => EmptyString
  | x :: b' =>
      let n := Byte.to_N x in
      String (digit (n / 16)) (String (digit (n mod 16)) (encode b'))
  end.

(** The octets [new Buffer(s, 'hex')] holds for a string [s] of even
    length: pairs of digits are decoded from the left, and the data is
    truncated at the first pair that is not two hexadecimal digits. *)
Fixpoint decode (s : string) : bytes :=
  match s with
  | String a (String b rest) =>
      match value a, value b with
      | Some h, Some l => byte_of_nibbles h l :: decode rest
      | _, _ => []
      end
  | _ => []
  end.

Fixpoint all_lower (s : string) : bool :=
  match s with
  | EmptyString => true
  | String c s' => is_lower_digit c && all_lower s'
  end.

End Hex.

(* ================================================================== *)
(** * JavaScript values, exceptions and the host *)

Inductive ErrorKind := TypeError | SyntaxError | Error.

(** What a [throw] carries: key.js throws bare strings, the built-ins and
    the libraries throw error objects. *)
Inductive Exn :=
| ThrownString (s : string)
| ThrownError (kind : ErrorKind) (message : string).

Inductive Outcome (A : Type) :=
| Return (a : A)
| Throw (e : Exn).

Arguments Throw {A} e.

(** The values a keystore text can parse to, and [undefined], which a
    property read can produce.  Numbers are kept abstract: the engine never
    computes with them, it only tests, compares and forwards them. *)
Inductive JSValue (num : Type) :=
| JUndefined
| JNull
| JBool (b : bool)
| JNum (n : num)
| JStr (s : string)
| JArr (elements : list (JSValue num))
| JObj (properties : list (string * JSValue num)).

Arguments JUndefined {num}.
Arguments JNull {num}.
Arguments JBool {num} b.
Arguments JStr {num} s.

(** The built-ins and the three libraries key.js calls.  None of them is
    code of the repository. *)
Class Host := {
  (** the Number type, with [ToBoolean], [ToString] and the comparison
      [n == s] of a Number with a String *)
  num : Type;
  num_of_Z : Z -> num;
  num_truthy : num -> bool;
  num_toString : num -> string;
  num_eq_string : num -> string -> bool;
  (** [JSON.parse] and [JSON.stringify] *)
  JSON_parse : string -> Outcome (JSValue num);
  JSON_stringify : JSValue num -> string;
  (** [new Buffer(v, 'hex')] when [v] is not a string of even length *)
  Buffer_from_value : JSValue num -> Outcome bytes;
  (** [scrypt.hashSync(passwd, {N, r, p}, dklen, salt)] *)
  scrypt_hashSync :
    string -> JSValue num -> JSValue num -> JSValue num -> JSValue num ->
    bytes -> Outcome bytes;
  (** octet [i] of the aes-128-ctr key stream under a key and an iv *)
  aes_128_ctr : bytes -> bytes -> nat -> byte;
  (** [ethutil.sha3], [ethutil.isValidPrivate], [ethutil.privateToPublic]
      and [ethutil.pubToAddress] *)
  sha3 : bytes -> bytes;
  isValidPrivate : bytes -> bool;
  privateToPublic : bytes -> bytes;
  pubToAddress : bytes -> bytes
}.

(** The order of the secp256k1 group. *)
Definition secp256k1_n : Z :=
  0xFFFFFFFFFFFFFFFFFFFFFFFFFFFFFFFEBAAEDCE6AF48A03BBFD25E8CD0364141%Z.

(** A buffer read as a big-endian natural number. *)
Definition be_value (b : bytes) : Z :=
  fold_left (fun acc x => (256 * acc + Z.of_N (Byte.to_N x))%Z) b 0%Z.

(** The curve-validity predicate [isValidPrivate] decides. *)
Definition curve_valid (k : bytes) : Prop :=
  length k = 32 /\ (0 < be_value k < secp256k1_n)%Z.

Abbreviation value := (JSValue num).

Section Engine.

Context {host : Host}.

(* ---------------------------------------------------------------- *)
(** ** Coercions and operators *)

Fixpoint has_key (key : string) (ps : list (string * value)) : bool :=
  match ps with
  | [] => false
  | (k, _) :: ps' => String.eqb k key || has_key key ps'
  end.

(** The own property [key] of an object, [undefined] when absent.  An
    object holds one property per key. *)
Fixpoint lookup (key : string) (ps : list (string * value)) : value :=
  match ps with
  | [] => JUndefined
  | (k, v) :: ps' => if String.eqb k key then v else lookup key ps'
  end.

Definition ToBoolean (v : value) : bool :=
  match v with
  | JUndefined | JNull => false
  | JBool b => b
  | JNum n => num_truthy n
  | JStr s => negb (String.eqb s EmptyString)
  | JArr _ | JObj _ => true
  end.

(** [ToString].  An array is its elements joined by commas, [null] and
    [undefined] elements printing as nothing; a plain object prints as
    [[object Object]], unless it carries its own, hence not callable,
    [toString] property, where the conversion throws. *)
Fixpoint ToString (v : value) : Outcome string :=
  match v with
  | JUndefined => Return "undefined"
  | JNull => Return "null"
  | JBool b => Return (if b then "true" else "false")
  | JNum n => Return (num_toString n)
  | JStr s => Return s
  | JArr l =>
      (fix join (l : list value) : Outcome string :=
         match l with
         | [] => Return EmptyString
         | x :: l' =>
             match
               match x with
               | JUndefined | JNull => Return EmptyString
               | _ => ToString x
               end
             with
             | Throw e => Throw e
             | Return sx =>
                 match l' with
                 | [] => Return sx
                 | _ :: _ =>
                     match join l' with
                     | Throw e => Throw e
                     | Return r => Return (sx ++ "," ++ r)%string
                     end
                 end
             end
         end) l
  | JObj ps =>
      if has_key "toString" ps
      then Throw (ThrownError TypeError
                    "Cannot convert object to primitive value")
      else Return "[object Object]"
  end.

(** [v == s] for a string [s] (the abstract equality comparison). *)
Definition loose_eq (v : value) (s : string) : Outcome bool :=
  match v with
  | JUndefined | JNull => Return false
  | JBool b => Return (num_eq_string (num_of_Z (if b then 1 else 0)) s)
  | JNum n => Return (num_eq_string n s)
  | JStr t => Return (String.eqb t s)
  | JArr _ | JObj _ =>
      match ToString v with
      | Return t => Return (String.eqb t s)
      | Throw e => Throw e
      end
  end.

(** [v != s]. *)
Definition loose_neq (v : value) (s : string) : Outcome bool :=
  match loose_eq v s with
  | Return b => Return (negb b)
  | Throw e => Throw e
  end.

(** [s + v] for a string [s]. *)
Definition string_plus (s : string) (v : value) : Outcome string :=
  match ToString v with
  | Return t => Return (s ++ t)%string
  | Throw e => Throw e
  end.

(** The property read [v.key] or [v[key]], for the keys of a keystore
    record: none of them names a built-in property of a primitive, an
    array or [Object.prototype]. *)
Definition Get (v : value) (key : string) : Outcome value :=
  match v with
  | JUndefined =>
      Throw (ThrownError TypeError
               ("Cannot read property '" ++ key ++ "' of undefined"))
  | JNull =>
      Throw (ThrownError TypeError
               ("Cannot read property '" ++ key ++ "' of null"))
  | JObj ps => Return (lookup key ps)
  | _ => Return JUndefined
  end.

(** [new Buffer(v, 'hex')].  A string of even length is decoded pair by
    pair.  A string of odd length was refused with a TypeError by the Node
    releases of the time of key.js and is truncated by later ones: it is
    left to the host, like the arguments that are not strings. *)
Definition Buffer_hex (v : value) : Outcome bytes :=
  match v with
  | JStr s =>
      if Nat.even (String.length s) then Return (Hex.decode s)
      else Buffer_from_value v
  | _ => Buffer_from_value v
  end.

(* ---------------------------------------------------------------- *)
(** ** The world: entropy pool and trace of library calls *)

Inductive Event :=
| CallRandomBytes (n : nat)
| CallScrypt (passwd : string) (N r p dklen : value) (salt : bytes)
| CallCreateCipheriv (key iv : bytes)
| CallCipherUpdate (data : bytes)
| CallCipherFinal
| CallSha3 (data : bytes).

Record World := mkWorld {
  entropy : nat -> byte;   (** the octets the pool will deliver, in order *)
  cursor : nat;            (** how many have been drawn *)
  trace : list Event       (** the library calls made so far, oldest first *)
}.

Definition JS (A : Type) : Type := World -> Outcome A * World.

Definition ret {A} (a : A) : JS A := fun w => (Return a, w).

Definition throw {A} (e : Exn) : JS A := fun w => (Throw e, w).

Definition bind {A B} (m : JS A) (k : A -> JS B) : JS B :=
  fun w =>
    match m w with
    | (Return a, w') => k a w'
    | (Throw e, w') => (Throw e, w')
    end.

Definition lift {A} (o : Outcome A) : JS A := fun w => (o, w).

Definition emit (e : Event) : JS unit :=
  fun w => (Return tt, mkWorld (entropy w) (cursor w) (trace w ++ [e])).

End Engine.

Declare Scope js_scope.
Delimit Scope js_scope with js.
Notation "x <- m ;; k" := (bind m (fun x => k))
  (at level 61, m at next level, right associativity) : js_scope.
Notation "' pat <- m ;; k" := (bind m (fun x => match x with pat => k end))
  (at level 61, pat pattern, m at next level, right associativity) : js_scope.
Notation "m ;; k" := (bind m (fun _ => k))
  (at level 61, right associativity) : js_scope.

(* ================================================================== *)
(** * key.js *)

Record KeyPair := mkKeyPair {
  prvkey : bytes;
  pubkey : bytes;
  addr : bytes
}.

(** The state of a cipher object made by [crypto.createCipheriv]: its key,
    its iv and the number of key-stream octets already used. *)
Record Cipher := mkCipher {
  cipher_key : bytes;
  cipher_iv : bytes;
  cipher_pos : nat
}.

(** [const ScryptN = 1 << 18] and its neighbours. *)
Definition ScryptN : Z := Z.shiftl 1 18.
Definition ScryptP : Z := 1.
Definition ScryptR : Z := 8.
Definition ScryptDKLen : Z := 32.

(** The strings key.js throws, under the names the specification gives
    the failures. *)
Definition UnsupportedVersion : Exn := ThrownString "version must be 3".
Definition UnsupportedCipher (cipher : string) : Exn :=
  ThrownString ("Cipher not support: " ++ cipher).
Definition UnsupportedKdf : Exn := ThrownString "only support scrypt".
Definition AuthenticationFailed : Exn :=
  ThrownString "could not decrypt key with given passphrase".

Section KeyJs.

Context {host : Host}.

Local Open Scope js_scope.

(* ---------------------------------------------------------------- *)
(** ** Library calls *)

(** The next [n] octets of the pool, and the world after the draw. *)
Definition draw (n : nat) (w : World) : bytes * World :=
  (map (entropy w) (seq (cursor w) n),
   mkWorld (entropy w) (cursor w + n) (trace w ++ [CallRandomBytes n])).

(** [crypto.randomBytes(n)]. *)
Definition randomBytes (n : nat) : JS bytes :=
  fun w => let (b, w') := draw n w in (Return b, w').

(** [scrypt.hashSync(passwd, {"N": N, "r": r, "p": p}, dklen, salt)]. *)
Definition scrypt_call (passwd : string) (N r p dklen : value)
    (salt : bytes) : JS bytes :=
  emit (CallScrypt passwd N r p dklen salt) ;;
  lift (scrypt_hashSync passwd N r p dklen salt).

(** [crypto.createCipheriv('aes-128-ctr', key, iv)]: the iv and the key
    must be 16 octets each, and the iv is looked at first. *)
Definition createCipheriv (key iv : bytes) : JS Cipher :=
  emit (CallCreateCipheriv key iv) ;;
  if negb (Nat.eqb (length iv) 16) then
    throw (ThrownError Error "Invalid IV length")
  else if negb (Nat.eqb (length key) 16) then
    throw (ThrownError Error "Invalid key length")
  else ret (mkCipher key iv 0).

(** The key-stream octets at the positions [pos <= i < pos + n]. *)
Definition keystream (key iv : bytes) (pos n : nat) : bytes :=
  map (aes_128_ctr key iv) (seq pos n).

(** [cipher.update(data, 'utf8', 'hex')] on a buffer [data]: the input
    encoding is ignored for a buffer, the output is the text of the data
    combined with the key stream. *)
Definition cipher_update (c : Cipher) (data : bytes) : JS (string * Cipher) :=
  emit (CallCipherUpdate data) ;;
  ret (Hex.encode
         (Buf.xor data
            (keystream (cipher_key c) (cipher_iv c) (cipher_pos c)
               (length data))),
       mkCipher (cipher_key c) (cipher_iv c) (cipher_pos c + length data)).

(** [cipher.final('hex')]: a stream cipher holds nothing back. *)
Definition cipher_final (c : Cipher) : JS string :=
  emit CallCipherFinal ;; ret EmptyString.

(** [ethutil.sha3(data)]. *)
Definition sha3_call (data : bytes) : JS bytes :=
  emit (CallSha3 data) ;; ret (sha3 data).

Definition get (v : value) (key : string) : JS value := lift (Get v key).

Definition jnum (z : Z) : value := JNum (num_of_Z z).

(* ---------------------------------------------------------------- *)
(** ** [GenKey] *)

(** The [do ... while] loop of [GenKey], run for at most [fuel] rounds:
    [None] when the rounds are used up before a draw is accepted. *)
Fixpoint GenKey_loop (fuel : nat) (w : World) : option (bytes * World) :=
  match fuel with
  | O => None
  | S fuel' =>
      let (privatekey, w') := draw 32 w in
      if negb (isValidPrivate privatekey)
      then GenKey_loop fuel' w'
      else Some (privatekey, w')
  end.

Definition GenKey (fuel : nat) (w : World)
    : option (Outcome KeyPair * World) :=
  match GenKey_loop fuel w with
  | None => None
  | Some (privatekey, w') =>
      let publicKey := privateToPublic privatekey in
      let address := pubToAddress publicKey in
      Some (Return (mkKeyPair privatekey publicKey address), w')
  end.

(* ---------------------------------------------------------------- *)
(** ** [EncryptKey] *)

Definition EncryptKey (key : KeyPair) (passwd : string) : JS value :=
  salt <- randomBytes 32 ;;
  dpasswd <- scrypt_call passwd (jnum ScryptN) (jnum ScryptR) (jnum ScryptP)
               (jnum ScryptDKLen) salt ;;
  let epasswd := Buf.slice dpasswd 0 16 in
  let fpasswd := Buf.slice dpasswd 16 32 in
  iv <- randomBytes 16 ;;
  cipher <- createCipheriv epasswd iv ;;
  '(ciphertext, cipher) <- cipher_update cipher (prvkey key) ;;
  fin <- cipher_final cipher ;;
  let ciphertext := (ciphertext ++ fin)%string in
  raw <- lift (Buffer_hex (JStr ciphertext)) ;;
  mac <- sha3_call (Buf.concat [fpasswd; raw]) ;;
  ret (JObj
    [ ("address", JStr (Hex.encode (addr key)));
      ("crypto", JObj
        [ ("cipher", JStr "aes-128-ctr");
          ("ciphertext", JStr ciphertext);
          ("cipherparams", JObj [ ("iv", JStr (Hex.encode iv)) ]);
          ("kdf", JStr "scrypt");
          ("kdfparams", JObj
            [ ("dklen", jnum ScryptDKLen);
              ("n", jnum ScryptN);
              ("p", jnum ScryptP);
              ("r", jnum ScryptR);
              ("salt", JStr (Hex.encode salt)) ]);
          ("mac", JStr (Hex.encode mac)) ]);
      ("version", jnum 3) ]).

(* ---------------------------------------------------------------- *)
(** ** [DecryptKeyV3] and [DecryptKey] *)

Definition DecryptKeyV3 (cryptoJSON : value) (passwd : string) : JS string :=
  cipher <- get cryptoJSON "cipher" ;;
  differs <- lift (loose_neq cipher "aes-128-ctr") ;;
  if differs : bool then
    msg <- lift (string_plus "Cipher not support: " cipher) ;;
    throw (ThrownString msg)
  else
  kdf <- get cryptoJSON "kdf" ;;
  differs <- lift (loose_neq kdf "scrypt") ;;
  if differs : bool then throw UnsupportedKdf else
  kdfparams <- get cryptoJSON "kdfparams" ;;
  salt_hex <- get kdfparams "salt" ;;
  salt <- lift (Buffer_hex salt_hex) ;;
  kdfparams <- get cryptoJSON "kdfparams" ;;
  n <- get kdfparams "n" ;;
  kdfparams <- get cryptoJSON "kdfparams" ;;
  r <- get kdfparams "r" ;;
  kdfparams <- get cryptoJSON "kdfparams" ;;
  p <- get kdfparams "p" ;;
  kdfparams <- get cryptoJSON "kdfparams" ;;
  dklen <- get kdfparams "dklen" ;;
  dpasswd <- scrypt_call passwd n r p dklen salt ;;
  mac <- get cryptoJSON "mac" ;;
  cipherparams <- get cryptoJSON "cipherparams" ;;
  iv_hex <- get cipherparams "iv" ;;
  iv <- lift (Buffer_hex iv_hex) ;;
  ciphertext_hex <- get cryptoJSON "ciphertext" ;;
  ciphertext <- lift (Buffer_hex ciphertext_hex) ;;
  hash <- sha3_call (Buf.concat [Buf.slice dpasswd 16 32; ciphertext]) ;;
  let calculatedMAC := Hex.encode hash in
  differs <- lift (loose_neq mac calculatedMAC) ;;
  if differs : bool then throw AuthenticationFailed else
  cipher <- createCipheriv (Buf.slice dpasswd 0 16) iv ;;
  '(plaintext, cipher) <- cipher_update cipher ciphertext ;;
  fin <- cipher_final cipher ;;
  ret (plaintext ++ fin)%string.

Definition DecryptKey (keyJsonStr : value) (passwd : string) : JS string :=
  text <- lift (ToString keyJsonStr) ;;
  keyJson <- lift (JSON_parse text) ;;
  version <- get keyJson "version" ;;
  is3 <- (if ToBoolean version then lift (loose_eq version "3")
          else ret false) ;;
  if is3 : bool then
    crypto <- get keyJson "crypto" ;;
    DecryptKeyV3 crypto passwd
  else throw UnsupportedVersion.

End KeyJs.

(* ================================================================== *)
(** * An executable host

    A host on which the engine can be run: integers for numbers, a printer
    and a reader for the JSON texts keystores are written in, and small
    stand-ins for scrypt, the aes-128-ctr key stream and Keccak.  The
    stand-ins have the shape of the real functions (a deterministic
    derivation of [dklen] octets, a block function run in counter mode, a
    32-octet digest) and none of their strength. *)

Module Sim.

Abbreviation jvalue := (JSValue Z).

(** *** Numbers: the integers *)

Definition dec (z : Z) : string := NilZero.string_of_int (Z.to_int z).

Definition eq_decimal (z : Z) (s : string) : bool :=
  match NilZero.int_of_string s with
  | Some i => Z.eqb z (Z.of_int i)
  | None => false
  end.

(** *** JSON texts *)

Definition dquote : ascii := ascii_of_N 34.
Definition backslash : ascii := ascii_of_N 92.

Definition hex4 (c : ascii) : string :=
  let n := N_of_ascii c in
  String "0" (String "0"
    (String (Hex.digit (n / 16)) (String (Hex.digit (n mod 16)) EmptyString))).

Fixpoint escape (s : string) : string :=
  match s with
  | EmptyString => EmptyString
  | String c s' =>
      let n := N_of_ascii c in
      (if N.eqb n 34 then String backslash (String dquote EmptyString)
       else if N.eqb n 92 then "\\"
       else if N.eqb n 10 then "\n"
       else if N.eqb n 13 then "\r"
       else if N.eqb n 9 then "\t"
       else if N.ltb n 32 then "\u" ++ hex4 c
       else String c EmptyString) ++ escape s'
  end%string.

Definition quote (s : string) : string :=
  (String dquote (escape s) ++ String dquote EmptyString)%string.

Fixpoint stringify (v : jvalue) : string :=
  match v with
  | JUndefined | JNull => "null"
  | JBool b => if b then "true" else "false"
  | JNum z => dec z
  | JStr s => quote s
  | JArr l =>
      ("[" ++
       (fix elements (l : list jvalue) : string :=
          match l with
          | [] => EmptyString
          | x :: l' =>
              stringify x ++
              match l' with [] => EmptyString | _ :: _ => "," ++ elements l' end
          end) l ++ "]")
  | JObj ps =>
      ("{" ++
       (fix members (first : bool) (ps : list (string * jvalue)) : string :=
          match ps with
          | [] => EmptyString
          | (_, JUndefined) :: ps' => members first ps'
          | (k, x) :: ps' =>
              (if first then EmptyString else ",") ++ quote k ++ ":" ++
              stringify x ++ members false ps'
          end) true ps ++ "}")
  end%string.

Definition is_ws (c : ascii) : bool :=
  let n := N_of_ascii c in
  N.eqb n 32 || N.eqb n 9 || N.eqb n 10 || N.eqb n 13.

Fixpoint skip_ws (s : string) : string :=
  match s with
  | String c s' => if is_ws c then skip_ws s' else s
  | EmptyString => s
  end.

Definition is_digit (c : ascii) : bool :=
  let n := N_of_ascii c in (48 <=? n)%N && (n <=? 57)%N.

Fixpoint digits (s : string) : string * string :=
  match s with
  | String c s' =>
      if is_digit c then let (d, r) := digits s' in (String c d, r)
      else (EmptyString, s)
  | EmptyString => (EmptyString, s)
  end.

(** The characters of a string literal after its opening quote. *)
Fixpoint string_chars (s : string) : option (string * string) :=
  match s with
  | EmptyString => None
  | String c s' =>
      let n := N_of_ascii c in
      if N.eqb n 34 then Some (EmptyString, s')
      else if N.ltb n 32 then None
      else if N.eqb n 92 then
        match s' with
        | String e s'' =>
            let plain (x : N) :=
              match string_chars s'' with
              | Some (t, r) => Some (String (ascii_of_N x) t, r)
              | None => None
              end in
            match N_of_ascii e with
            | 34%N => plain 34%N | 92%N => plain 92%N | 47%N => plain 47%N
            | 98%N => plain 8%N | 102%N => plain 12%N | 110%N => plain 10%N
            | 114%N => plain 13%N | 116%N => plain 9%N
            | _ => None
            end
        | EmptyString => None
        end
      else
        match string_chars s' with
        | Some (t, r) => Some (String c t, r)
        | None => None
        end
  end.

(** [JSON.parse] keeps the last of several members with one key. *)
Fixpoint set_member (k : string) (v : jvalue) (ps : list (string * jvalue))
    : list (string * jvalue) :=
  match ps with
  | [] => [(k, v)]
  | (k', v') :: ps' =>
      if String.eqb k' k then (k', v) :: ps'
      else (k', v') :: set_member k v ps'
  end.

Definition number (neg : bool) (s : string) : option (jvalue * string) :=
  let (d, r) := digits s in
  let fractional :=
    match r with
    | String c _ =>
        let n := N_of_ascii c in N.eqb n 46 || N.eqb n 101 || N.eqb n 69
    | EmptyString => false
    end in
  let leading_zero :=
    match d with
    | String "0" (String _ _) => true
    | _ => false
    end in
  if fractional || leading_zero then None
  else match NilZero.int_of_string d with
       | Some i =>
           Some (JNum (if neg then Z.opp (Z.of_int i) else Z.of_int i), r)
       | None => None
       end.

Fixpoint parse_value (fuel : nat) (s : string) : option (jvalue * string) :=
  match fuel with
  | O => None
  | S fuel' =>
      match skip_ws s with
      | String "{" r =>
          match skip_ws r with
          | String "}" r' => Some (JObj [], r')
          | _ => parse_members fuel' r []
          end
      | String "[" r =>
          match skip_ws r with
          | String "]" r' => Some (JArr [], r')
          | _ => parse_elements fuel' r []
          end
      | String "t" (String "r" (String "u" (String "e" r))) =>
          Some (JBool true, r)
      | String "f" (String "a" (String "l" (String "s" (String "e" r)))) =>
          Some (JBool false, r)
      | String "n" (String "u" (String "l" (String "l" r))) =>
          Some (JNull, r)
      | String "-" r => number true r
      | String c r =>
          if N.eqb (N_of_ascii c) 34 then
            match string_chars r with
            | Some (t, r') => Some (JStr t, r')
            | None => None
            end
          else number false (String c r)
      | EmptyString => None
      end
  end
with parse_elements (fuel : nat) (s : string) (acc : list jvalue)
    : option (jvalue * string) :=
  match fuel with
  | O => None
  | S fuel' =>
      match parse_value fuel' s with
      | Some (v, r) =>
          match skip_ws r with
          | String "," r' => parse_elements fuel' r' (acc ++ [v])
          | String "]" r' => Some (JArr (acc ++ [v]), r')
          | _ => None
          end
      | None => None
      end
  end
with parse_members (fuel : nat) (s : string) (acc : list (string * jvalue))
    : option (jvalue * string) :=
  match fuel with
  | O => None
  | S fuel' =>
      match skip_ws s with
      | String q r =>
          if N.eqb (N_of_ascii q) 34 then
            match string_chars r with
            | Some (k, r1) =>
                match skip_ws r1 with
                | String ":" r2 =>
                    match parse_value fuel' r2 with
                    | Some (v, r3) =>
                        match skip_ws r3 with
                        | String "," r4 =>
                            parse_members fuel' r4 (set_member k v acc)
                        | String "}" r4 =>
                            Some (JObj (set_member k v acc), r4)
                        | _ => None
                        end
                    | None => None
                    end
                | _ => None
                end
            | None => None
            end
          else None
      | EmptyString => None
      end
  end.

Definition parse (s : string) : Outcome jvalue :=
  match parse_value (S (String.length s)) s with
  | Some (v, r) =>
      match skip_ws r with
      | EmptyString => Return v
      | _ => Throw (ThrownError SyntaxError "Unexpected token in JSON")
      end
  | None => Throw (ThrownError SyntaxError "Unexpected token in JSON")
  end.

(** *** Stand-ins for the libraries *)

Definition byte_of_Z (z : Z) : byte :=
  match Byte.of_N (Z.to_N (z mod 256)) with
  | Some b => b
  | None => x00
  end.

(** The [n] octets of [z], most significant first. *)
Definition be_bytes (n : nat) (z : Z) : bytes :=
  map (fun i => byte_of_Z (z / 256 ^ Z.of_nat (n - 1 - i))) (seq 0 n).

(** Counter mode: block [j] of the key stream is the block function
    applied to [iv + j]; the block function here is the exclusive or with
    the key, a permutation of the blocks for every key. *)
Definition ctr_block (iv : bytes) (j : nat) : bytes :=
  be_bytes 16 ((be_value iv + Z.of_nat j) mod 2 ^ 128).

Definition stream (key iv : bytes) (i : nat) : byte :=
  nth (i mod 16) (Buf.xor (ctr_block iv (i / 16)) key) x00.

Definition cyclic (l : bytes) (i : nat) : byte := nth (i mod length l) l x00.

Definition bytes_of_string (s : string) : bytes :=
  map byte_of_ascii (list_ascii_of_string s).

(** The derivation: [dklen] octets mixing the salt and the passphrase;
    the cost parameters must be positive numbers. *)
Definition derive (passwd : string) (N r p dklen : jvalue)
    (salt : bytes) : Outcome bytes :=
  match N, r, p, dklen with
  | JNum n, JNum r, JNum p, JNum l =>
      if ((0 <? n) && (0 <? r) && (0 <? p) && (0 <? l))%Z then
        Return (map (fun i => Buf.byte_xor (cyclic salt i)
                                (cyclic (bytes_of_string passwd) i))
                  (seq 0 (Z.to_nat l)))
      else Throw (ThrownError Error "Invalid scrypt parameters")
  | _, _, _, _ => Throw (ThrownError TypeError "Invalid scrypt parameters")
  end.

(** The digest: 32 octets, octet [j] combining the input octets at the
    positions congruent to [j] modulo 32. *)
Definition lane (data : bytes) (j : nat) : byte :=
  fold_left
    (fun acc i => if Nat.eqb (i mod 32) j
                  then Buf.byte_xor acc (nth i data x00) else acc)
    (seq 0 (length data)) x00.

Definition digest (data : bytes) : bytes := map (lane data) (seq 0 32).

(** The range check of secp256k1 private keys. *)
Definition in_range (k : bytes) : bool :=
  Nat.eqb (length k) 32 &&
  (0 <? be_value k)%Z && (be_value k <? secp256k1_n)%Z.

Definition public_of (k : bytes) : bytes := digest k ++ digest (rev k).

(** The address is the last 20 octets of the digest of the public key. *)
Definition address_of (pub : bytes) : bytes :=
  Buf.slice (digest pub) 12 32.

Definition host : Host := {|
  num := Z;
  num_of_Z := fun z => z;
  num_truthy := fun z => negb (Z.eqb z 0);
  num_toString := dec;
  num_eq_string := eq_decimal;
  JSON_parse := parse;
  JSON_stringify := stringify;
  Buffer_from_value := fun _ =>
    Throw (ThrownError TypeError "Invalid hex string");
  scrypt_hashSync := derive;
  aes_128_ctr := stream;
  sha3 := digest;
  isValidPrivate := in_range;
  privateToPublic := public_of;
  pubToAddress := address_of
|}.

(** A pool that delivers the octets of [l] and zeros after them. *)
Definition pool (l : bytes) : World (host := host) :=
  mkWorld (fun i => nth i l x00) 0 [].

(** A pool that delivers [pre] and then the counting sequence
    1, 2, 3, ... *)
Definition counting_pool (pre : bytes) : World (host := host) :=
  mkWorld (fun i => if Nat.ltb i (length pre) then nth i pre x00
                    else byte_of_Z (Z.of_nat (i - length pre + 1))) 0 [].

(** *** Sample inputs *)

Definition sample_key : KeyPair :=
  let k := map (fun i => byte_of_Z (Z.of_nat i)) (seq 1 32) in
  mkKeyPair k (public_of k) (address_of (public_of k)).

Definition passphrase : string := "correct horse battery staple".

(** A pool whose first two draws of 32 octets are zero. *)
Definition slow_pool : World (host := host) :=
  counting_pool (repeat x00 64).

(** Two pools that differ in their first octet and in the octet 32: the
    salts and the ivs drawn from them differ in their first octet. *)
Definition pool_a : World (host := host) := pool [].
Definition pool_b : World (host := host) :=
  pool (x01 :: repeat x00 31 ++ [x01]).

End Sim.

(* ================================================================== *)
(** * Vocabulary of the specification *)

(** [log evs w]: the world [w] after the library calls [evs]. *)
Definition log {host : Host} (evs : list Event) (w : World) : World :=
  mkWorld (entropy w) (cursor w) (trace w ++ evs).

(** The world after drawing [n] octets. *)
Definition drawn {host : Host} (n : nat) (w : World) : World :=
  mkWorld (entropy w) (cursor w + n) (trace w ++ [CallRandomBytes n]).

(** The next [n] octets of the pool. *)
Definition peek {host : Host} (n : nat) (w : World) : bytes :=
  map (entropy w) (seq (cursor w) n).

(** The octets of the derived key the two sub-keys are made of. *)
Definition encryption_subkey (dk : bytes) : bytes := Buf.slice dk 0 16.
Definition mac_subkey (dk : bytes) : bytes := Buf.slice dk 16 32.

Section Vocabulary.

Context {host : Host}.

(** The aes-128-ctr transformation of [data] under a key and an iv, from
    the start of the key stream.  Encryption and decryption are this one
    function. *)
Definition ctr (key iv data : bytes) : bytes :=
  Buf.xor data (keystream key iv 0 (length data)).

(** The integrity tag of a ciphertext under a derived key. *)
Definition tag (dk ciphertext : bytes) : bytes :=
  sha3 (mac_subkey dk ++ ciphertext).

(** The [crypto] block and the record, field by field in the order of the
    object literal of [EncryptKey]. *)
Definition crypto_object (cipher : value) (ciphertext iv : string)
    (kdf dklen n p r : value) (salt : string) (mac : value) : value :=
  JObj
    [ ("cipher", cipher);
      ("ciphertext", JStr ciphertext);
      ("cipherparams", JObj [ ("iv", JStr iv) ]);
      ("kdf", kdf);
      ("kdfparams", JObj
        [ ("dklen", dklen); ("n", n); ("p", p); ("r", r);
          ("salt", JStr salt) ]);
      ("mac", mac) ].

Definition keystore_object (address : string) (crypto version : value)
    : value :=
  JObj [ ("address", JStr address); ("crypto", crypto);
         ("version", version) ].

(** A record in the layout of [EncryptKey], with the default cost
    parameters, holding the given salt, iv, ciphertext and tag. *)
Definition record_of (key : KeyPair) (salt iv ciphertext mac : bytes)
    : value :=
  keystore_object (Hex.encode (addr key))
    (crypto_object (JStr "aes-128-ctr") (Hex.encode ciphertext)
       (Hex.encode iv) (JStr "scrypt")
       (jnum ScryptDKLen) (jnum ScryptN) (jnum ScryptP) (jnum ScryptR)
       (Hex.encode salt) (JStr (Hex.encode mac)))
    (jnum 3).

(** The record [EncryptKey] builds from a key pair, a salt, an iv and the
    key derived from the passphrase and the salt. *)
Definition sealed (key : KeyPair) (salt iv dk : bytes) : value :=
  let ciphertext := ctr (encryption_subkey dk) iv (prvkey key) in
  record_of key salt iv ciphertext (tag dk ciphertext).

(** The library calls of one [EncryptKey]. *)
Definition sealing_calls (key : KeyPair) (passwd : string)
    (salt iv dk : bytes) : list Event :=
  [ CallRandomBytes 32;
    CallScrypt passwd (jnum ScryptN) (jnum ScryptR) (jnum ScryptP)
      (jnum ScryptDKLen) salt;
    CallRandomBytes 16;
    CallCreateCipheriv (encryption_subkey dk) iv;
    CallCipherUpdate (prvkey key);
    CallCipherFinal;
    CallSha3 (mac_subkey dk ++ ctr (encryption_subkey dk) iv (prvkey key)) ].

(** The salt and the iv an [EncryptKey] started in [w] draws. *)
Definition salt_of (w : World) : bytes := peek 32 w.
Definition iv_of (w : World) : bytes :=
  map (entropy w) (seq (cursor w + 32) 16).

Definition is_kdf_call (e : Event) : bool :=
  match e with CallScrypt _ _ _ _ _ _ => true | _ => false end.

Definition is_cipher_call (e : Event) : bool :=
  match e with
  | CallCreateCipheriv _ _ | CallCipherUpdate _ | CallCipherFinal => true
  | _ => false
  end.

(** The default derivation succeeds with 32 octets: what [EncryptKey]
    needs of [scrypt.hashSync] to return at all. *)
Definition scrypt_default_ok : Prop :=
  forall (passwd : string) (salt : bytes),
    length salt = 32 ->
    exists dk,
      scrypt_hashSync passwd (jnum ScryptN) (jnum ScryptR) (jnum ScryptP)
        (jnum ScryptDKLen) salt = Return dk /\ length dk = 32.

(** The number 3 is truthy and equal to the string "3". *)
Definition three_ok : Prop :=
  num_truthy (num_of_Z 3) = true /\ num_eq_string (num_of_Z 3) "3" = true.

(** The read [v.k1.k2]. *)
Definition Get2 (v : value) (k1 k2 : string) : Outcome value :=
  match Get v k1 with
  | Return o => Get o k2
  | Throw e => Throw e
  end.

(** [derivation c passwd call dk]: the [crypto] block [c] holds a salt
    and cost parameters, [call] is the derivation [DecryptKeyV3] makes of
    them and [dk] is what the derivation gives. *)
Definition derivation (c : value) (passwd : string) (call : Event)
    (dk : Outcome bytes) : Prop :=
  exists salt_hex salt n r p dklen,
    Get2 c "kdfparams" "salt" = Return salt_hex /\
    Buffer_hex salt_hex = Return salt /\
    Get2 c "kdfparams" "n" = Return n /\
    Get2 c "kdfparams" "r" = Return r /\
    Get2 c "kdfparams" "p" = Return p /\
    Get2 c "kdfparams" "dklen" = Return dklen /\
    call = CallScrypt passwd n r p dklen salt /\
    dk = scrypt_hashSync passwd n r p dklen salt.

(** [tag_inputs c mac iv ct]: the stored tag, the iv and the ciphertext
    [DecryptKeyV3] reads from the [crypto] block [c]. *)
Definition tag_inputs (c : value) (mac : value) (iv ct : bytes) : Prop :=
  Get c "mac" = Return mac /\
  (exists iv_hex, Get2 c "cipherparams" "iv" = Return iv_hex /\
                  Buffer_hex iv_hex = Return iv) /\
  (exists ct_hex, Get c "ciphertext" = Return ct_hex /\
                  Buffer_hex ct_hex = Return ct).

(** The paths through [DecryptKeyV3]: its outcome and the library calls
    it makes, in order. *)
Inductive V3Path (c : value) (passwd : string)
    : Outcome string -> list Event -> Prop :=
| path_refused e :
    V3Path c passwd (Throw e) []
| path_underived call dk e :
    derivation c passwd call dk ->
    V3Path c passwd (Throw e) [call]
| path_incomparable call dk mac iv ct e :
    derivation c passwd call (Return dk) ->
    tag_inputs c mac iv ct ->
    loose_neq mac (Hex.encode (tag dk ct)) = Throw e ->
    V3Path c passwd (Throw e) [call; CallSha3 (mac_subkey dk ++ ct)]
| path_mismatch call dk mac iv ct :
    derivation c passwd call (Return dk) ->
    tag_inputs c mac iv ct ->
    loose_neq mac (Hex.encode (tag dk ct)) = Return true ->
    V3Path c passwd (Throw AuthenticationFailed)
      [call; CallSha3 (mac_subkey dk ++ ct)]
| path_cipher_refused call dk mac iv ct e :
    derivation c passwd call (Return dk) ->
    tag_inputs c mac iv ct ->
    loose_neq mac (Hex.encode (tag dk ct)) = Return false ->
    V3Path c passwd (Throw e)
      [call; CallSha3 (mac_subkey dk ++ ct);
       CallCreateCipheriv (encryption_subkey dk) iv]
| path_opened call dk mac iv ct :
    derivation c passwd call (Return dk) ->
    tag_inputs c mac iv ct ->
    loose_neq mac (Hex.encode (tag dk ct)) = Return false ->
    length (encryption_subkey dk) = 16 ->
    length iv = 16 ->
    V3Path c passwd
      (Return (Hex.encode (ctr (encryption_subkey dk) iv ct)))
      [call; CallSha3 (mac_subkey dk ++ ct);
       CallCreateCipheriv (encryption_subkey dk) iv;
       CallCipherUpdate ct; CallCipherFinal].

(** The calls [DecryptKeyV3] makes up to the comparison of the tags,
    and all of them when the tags agree. *)
Definition checking_calls (passwd : string) (n r p dklen : value)
    (salt ciphertext dk : bytes) : list Event :=
  [ CallScrypt passwd n r p dklen salt;
    CallSha3 (mac_subkey dk ++ ciphertext) ].

Definition opening_calls (passwd : string) (n r p dklen : value)
    (salt iv ciphertext dk : bytes) : list Event :=
  checking_calls passwd n r p dklen salt ciphertext dk ++
  [ CallCreateCipheriv (encryption_subkey dk) iv;
    CallCipherUpdate ciphertext;
    CallCipherFinal ].

(** The [i]-th draw of 32 octets a [GenKey] started in [w] makes. *)
Definition nth_draw (w : World) (i : nat) : bytes :=
  map (entropy w) (seq (cursor w + 32 * i) 32).

(** The world after [k] draws of 32 octets. *)
Definition after_draws (k : nat) (w : World) : World :=
  mkWorld (entropy w) (cursor w + 32 * k)
    (trace w ++ repeat (CallRandomBytes 32) k).

(** [GenKey], started in [w], returns [kp] and leaves the world [w']. *)
Definition GenKey_returns (w : World) (kp : KeyPair) (w' : World) : Prop :=
  exists fuel, GenKey fuel w = Some (Return kp, w').

(** [GenKey], started in [w], never leaves its loop. *)
Definition GenKey_diverges (w : World) : Prop :=
  forall fuel, GenKey fuel w = None.

(** The path [v.k1.k2...]. *)
Fixpoint Get_path (v : value) (path : list string) : Outcome value :=
  match path with
  | [] => Return v
  | k :: path' =>
      match Get v k with
      | Return o => Get_path o path'
      | Throw e => Throw e
      end
  end.

(** [JSON.parse] reads the text of [record] back as [record]. *)
Definition reads_back (record : value) : Prop :=
  JSON_parse (JSON_stringify record) = Return record.

(** [follows c passwd w run]: the run, started in [w], is one of the
    paths of [V3Path] and changes nothing of the world but the trace. *)
Definition follows (c : value) (passwd : string) (w : World)
    (run : Outcome string * World) : Prop :=
  exists o evs, run = (o, log evs w) /\ V3Path c passwd o evs.

End Vocabulary.

(* ================================================================== *)
(** * Sample runs on the executable host *)

Module Samples.

#[local] Existing Instance Sim.host.

Definition key : KeyPair := Sim.sample_key.
Definition passwd : string := Sim.passphrase.

(** The world the sample record is sealed in, and what is drawn and
    derived there. *)
Definition world : World := Sim.counting_pool [x5a; xc3].
Definition salt : bytes := salt_of world.
Definition iv : bytes := iv_of world.

Definition dk : bytes :=
  match scrypt_hashSync passwd (jnum ScryptN) (jnum ScryptR) (jnum ScryptP)
          (jnum ScryptDKLen) salt with
  | Return b => b
  | Throw _ => []
  end.

Definition ciphertext : bytes := ctr (encryption_subkey dk) iv (prvkey key).
Definition mac : bytes := tag dk ciphertext.

(** The record [EncryptKey] returns in [world]. *)
Definition record : value := record_of key salt iv ciphertext mac.

(** The sample record with bit 0 of its iv flipped. *)
Definition flipped_iv : value :=
  record_of key salt (Buf.flip_bit 0 iv) ciphertext mac.

(** The sample record with the string "3" for its version. *)
Definition string_version : value :=
  keystore_object (Hex.encode (addr key))
    (crypto_object (JStr "aes-128-ctr") (Hex.encode ciphertext)
       (Hex.encode iv) (JStr "scrypt")
       (jnum ScryptDKLen) (jnum ScryptN) (jnum ScryptP) (jnum ScryptR)
       (Hex.encode salt) (JStr (Hex.encode mac)))
    (JStr "3").

(** The sample record with one-element arrays for its cipher and kdf
    identifiers. *)
Definition array_names : value :=
  keystore_object (Hex.encode (addr key))
    (crypto_object (JArr [JStr "aes-128-ctr"]) (Hex.encode ciphertext)
       (Hex.encode iv) (JArr [JStr "scrypt"])
       (jnum ScryptDKLen) (jnum ScryptN) (jnum ScryptP) (jnum ScryptR)
       (Hex.encode salt) (JStr (Hex.encode mac)))
    (jnum 3).

(** The sample record with version 4. *)
Definition version_4 : value :=
  keystore_object (Hex.encode (addr key))
    (crypto_object (JStr "aes-128-ctr") (Hex.encode ciphertext)
       (Hex.encode iv) (JStr "scrypt")
       (jnum ScryptDKLen) (jnum ScryptN) (jnum ScryptP) (jnum ScryptR)
       (Hex.encode salt) (JStr (Hex.encode mac)))
    (jnum 4).

Definition text_of (r : value) : value := JStr (JSON_stringify r).

End Samples.

(* ================================================================== *)
(** * The rest of key.js: [getKDFKey]

    [getKDFKey] is not exported and nothing in key.js calls it.  It calls
    the [scrypt] module itself as a function and returns what the call
    returns or, for another KDF, a message. *)

Inductive KdfResult (R : Type) :=
| Derived (r : R)
| Message (s : string).

Arguments Message {R} s.

Section GetKDFKey.

Context {host : Host}.

(** The call [scrypt(auth, salt, n, r, p, dklen)], with whatever it
    returns and does. *)
Variable R : Type.
Variable scrypt_module :
  value -> value -> value -> value -> value -> value -> JS R.

Local Open Scope js_scope.

Definition getKDFKey (cryptoJSON auth : value) : JS (KdfResult R) :=
  KDFParams <- get cryptoJSON "KDFParams" ;;
  salt <- get KDFParams "salt" ;;
  KDFParams <- get cryptoJSON "KDFParams" ;;
  dklen <- get KDFParams "dklen" ;;
  KDFParams <- get cryptoJSON "KDFParams" ;;
  n <- get KDFParams "n" ;;
  KDFParams <- get cryptoJSON "KDFParams" ;;
  r <- get KDFParams "r" ;;
  KDFParams <- get cryptoJSON "KDFParams" ;;
  p <- get KDFParams "p" ;;
  KDF <- get cryptoJSON "KDF" ;;
  is_scrypt <- lift (loose_eq KDF "scrypt") ;;
  if is_scrypt : bool then
    key <- scrypt_module auth salt n r p dklen ;;
    ret (Derived key)
  else
    KDF <- get cryptoJSON "KDF" ;;
    msg <- lift (string_plus "Unsupported KDF: " KDF) ;;
    ret (Message msg).

End GetKDFKey.

(* ================================================================== *)
(** * function.js: [SolidityFunction]

    The methods that prepare the arguments of a contract call and read its
    output.  They draw nothing from the entropy pool and call none of the
    three libraries of key.js: they are functions to an [Outcome]. *)

Definition and_then {A B} (o : Outcome A) (k : A -> Outcome B) : Outcome B :=
  match o with
  | Return a => k a
  | Throw e => Throw e
  end.

Declare Scope outcome_scope.
Delimit Scope outcome_scope with outcome.
Notation "x <- m ;; k" := (and_then m (fun x => k))
  (at level 61, m at next level, right associativity) : outcome_scope.
Notation "' pat <- m ;; k" :=
  (and_then m (fun x => match x with pat => k end))
  (at level 61, pat pattern, m at next level, right associativity)
  : outcome_scope.

(** The private key [toPayload] hands to [utils.sign]: the string it
    starts from, or the buffer made of the last argument. *)
Inductive PrivKey :=
| KeyString (s : string)
| KeyBuffer (b : bytes).

(** What function.js calls in [utils], [formatters], [coder] and [sha3].
    None of these modules is among the sources. *)
Class Modules {host : Host} := {
  (** [utils.isFunction], [utils.isObject] and [utils.isString] *)
  isFunction : value -> bool;
  isObject : value -> bool;
  isString : value -> bool;
  (** [formatters.inputDefaultBlockNumberFormatter] *)
  inputDefaultBlockNumberFormatter : value -> Outcome value;
  (** [coder.encodeParams(types, params)] and
      [coder.decodeParams(types, output)] *)
  encodeParams : list value -> list value -> Outcome value;
  decodeParams : list value -> value -> Outcome (list value);
  (** [sha3(name)] of [utils/sha3]: a hexadecimal text *)
  sha3_text : string -> string;
  (** [utils.generateHash(options)] and
      [utils.sign(options, clientHash, privkey)] *)
  generateHash : value -> Outcome value;
  sign : value -> string -> PrivKey -> Outcome value;
  (** the comparison [v >= 2] of a number, a string, an array or an
      object with 2 *)
  at_least_2 : value -> bool;
  (** [this._eth.call(payload, defaultBlock)] and
      [this._eth.invokeContract(payload)], without a callback *)
  eth_call : value -> value -> Outcome value;
  eth_invokeContract : value -> Outcome value
}.

(** What [call] comes to: the unpacked output of [this._eth.call], or,
    given a callback, the request it hands to [this._eth.call] with a
    function that passes the error and the unpacked output on to the
    callback. *)
Inductive Called (V : Type) :=
| Output (result : V)
| Calls (payload defaultBlock callback : V).

(** What [sendTransaction] comes to: [getResult] entered with the hash
    [this._eth.invokeContract] returned and the query options, or, given
    a callback, the request it hands to [this._eth.invokeContract] with a
    function that passes an error on to the callback and enters
    [getResult] with the result, the query options and the callback. *)
Inductive Sent (V : Type) :=
| Polls (hash queryOptions : V)
| Invokes (payload queryOptions callback : V).

(** [s.slice(n)] for a string [s] of at least [n] characters. *)
Fixpoint string_drop (n : nat) (s : string) : string :=
  match n, s with
  | S n', String _ s' => string_drop n' s'
  | _, _ => s
  end.

Section FunctionJs.

Context {host : Host} {modules : Modules}.

Local Open Scope outcome_scope.

(** The fields of a [SolidityFunction] its argument handling reads:
    [this._inputTypes], [this._outputTypes], [this._name] and
    [this._address]. *)
Record SolidityFunction := mkSolidityFunction {
  _inputTypes : list value;
  _outputTypes : list value;
  _name : string;
  _address : value
}.

(** [args[args.length - 1]], [undefined] for an empty array, and
    [args.pop()], which leaves an empty array empty. *)
Definition last_arg (args : list value) : value := last args JUndefined.

Definition pop (args : list value) : value * list value :=
  (last args JUndefined, removelast args).

(** The assignment [o.key = v] to a property of an object.  An object
    holds one property per key; the assignment is reached for objects
    only. *)
Fixpoint set_property (key : string) (v : value)
    (ps : list (string * value)) : list (string * value) :=
  match ps with
  | [] => [(key, v)]
  | (k, x) :: ps' =>
      if String.eqb k key then (k, v) :: ps'
      else (k, x) :: set_property key v ps'
  end.

Definition Put (o : value) (key : string) (v : value) : value :=
  match o with
  | JObj ps => JObj (set_property key v ps)
  | _ => o
  end.

(** Each method returns its result and the array [args] as it leaves
    it. *)
Definition extractCallback (args : list value) : value * list value :=
  if isFunction (last_arg args) then pop args else (JUndefined, args).

Definition extractDefaultBlock (this : SolidityFunction)
    (args : list value) : Outcome value * list value :=
  if Nat.ltb (length (_inputTypes this)) (length args)
     && negb (isObject (last_arg args))
  then let (block, args') := pop args in
       (inputDefaultBlockNumberFormatter block, args')
  else (Return JUndefined, args).

Definition signature (this : SolidityFunction) : string :=
  substring 0 8 (sha3_text (_name this)).

(** [from.slice(0, 2) === '0x' ? from : "0x" + from].  A string and an
    array have a [slice]; the slice of an array is not a string. *)
Definition prefixed (from : value) : Outcome value :=
  match from with
  | JUndefined =>
      Throw (ThrownError TypeError
               "Cannot read property 'slice' of undefined")
  | JNull =>
      Throw (ThrownError TypeError "Cannot read property 'slice' of null")
  | JStr s =>
      if String.eqb (substring 0 2 s) "0x" then Return from
      else Return (JStr ("0x" ++ s))
  | JArr _ =>
      s <- string_plus "0x" from ;;
      Return (JStr s)
  | JBool _ | JNum _ | JObj _ =>
      Throw (ThrownError TypeError "options.from.slice is not a function")
  end.

(** [toPayload], given the values it reads from the clock
    ([new Date().getTime() * 1e6]) and from the random source
    ([parseInt(utils.random16bits(), 10)]). *)
Definition toPayload (this : SolidityFunction) (timestamp nonce : value)
    (args : list value) : Outcome value :=
  ' (privkey, args) <-
    (if Nat.ltb (length (_inputTypes this)) (length args)
        && isString (last_arg args)
     then let (text, args') := pop args in
          b <- Buffer_hex text ;;
          Return (KeyBuffer b, args')
     else Return (KeyString EmptyString, args)) ;;
  let (options, args) :=
    if Nat.ltb (length (_inputTypes this)) (length args)
       && isObject (last_arg args)
    then pop args
    else (JObj [], args) in
  from <- Get options "from" ;;
  from <- prefixed from ;;
  let options := Put options "from" from in
  let options := Put options "to" (_address this) in
  encoded <- encodeParams (_inputTypes this) args ;;
  payload <- string_plus ("0x" ++ signature this) encoded ;;
  let options := Put options "payload" (JStr payload) in
  let options := Put options "timestamp" timestamp in
  let options := Put options "nonce" nonce in
  hash <- generateHash options ;;
  clientHash <- string_plus "0x" hash ;;
  sign options clientHash privkey.

(** [output.length >= 2 ? output.slice(2) : output] for a truthy
    [output].  A number and a boolean have no [length]; an object has the
    [length] it holds, and no [slice]. *)
Definition without_prefix (output : value) : Outcome value :=
  match output with
  | JStr s =>
      Return (if Nat.leb 2 (String.length s) then JStr (string_drop 2 s)
              else output)
  | JArr l =>
      Return (if Nat.leb 2 (length l) then JArr (skipn 2 l) else output)
  | JObj ps =>
      let big :=
        match lookup "length" ps with
        | JUndefined | JNull | JBool _ => false
        | len => at_least_2 len
        end in
      if big then
        Throw (ThrownError TypeError "output.slice is not a function")
      else Return output
  | _ => Return output
  end.

Definition unpackOutput (this : SolidityFunction) (output : value)
    : Outcome value :=
  if negb (ToBoolean output) then Return JUndefined else
  output <- without_prefix output ;;
  result <- decodeParams (_outputTypes this) output ;;
  match result with
  | [single] => Return single
  | _ => Return (JArr result)
  end.

(** [a !== undefined]. *)
Definition defined (a : value) : bool :=
  match a with
  | JUndefined => false
  | _ => true
  end.

Definition call (this : SolidityFunction) (timestamp nonce : value)
    (arguments : list value) : Outcome (Called value) :=
  let args := filter defined arguments in
  let (callback, args) := extractCallback args in
  let (defaultBlock, args) := extractDefaultBlock this args in
  defaultBlock <- defaultBlock ;;
  payload <- toPayload this timestamp nonce args ;;
  if negb (ToBoolean callback) then
    output <- eth_call payload defaultBlock ;;
    result <- unpackOutput this output ;;
    Return (Output result)
  else Return (Calls payload defaultBlock callback).

(** [getResult] runs on timers; [sendTransaction] is followed up to the
    point where it enters it. *)
Definition sendTransaction (this : SolidityFunction)
    (timestamp nonce : value) (arguments : list value)
    : Outcome (Sent value) :=
  let args := filter defined arguments in
  let (callback, args) := extractCallback args in
  ' (queryOptions, args) <-
    (if isObject (last_arg args) then
       let (op, args') := pop args in
       timeout <- Get op "timeout" ;;
       interval <- Get op "interval" ;;
       Return
         (JObj [ ("timeout",
                  if ToBoolean timeout then timeout else jnum 8000);
                 ("interval",
                  if ToBoolean interval then interval else jnum 50) ],
          args')
     else
       Return (JObj [ ("timeout", jnum 8000); ("interval", jnum 50) ],
               args)) ;;
  payload <- toPayload this timestamp nonce args ;;
  if negb (ToBoolean callback) then
    hash <- eth_invokeContract payload ;;
    Return (Polls hash queryOptions)
  else Return (Invokes payload queryOptions callback).

End FunctionJs.

(* ------------------------------------------------------------------ *)
(** ** Executable stand-ins for the modules of function.js

    The type tests are those of JavaScript on the values of a JSON text;
    the coder, the hash and the signer are stand-ins that keep what they
    are given visible in what they return. *)

Module SimModules.

#[local] Existing Instance Sim.host.

Definition is_object (v : Sim.jvalue) : bool :=
  match v with
  | JObj _ => true
  | _ => false
  end.

Definition is_string (v : Sim.jvalue) : bool :=
  match v with
  | JStr _ => true
  | _ => false
  end.

Definition text_digest (s : string) : string :=
  Hex.encode (Sim.digest (Sim.bytes_of_string s)).

Definition encode (types params : list Sim.jvalue) : Outcome Sim.jvalue :=
  Return (JStr (Hex.encode
                  (Sim.bytes_of_string (Sim.stringify (JArr params))))).

(** One value for each output type: the successive pairs of characters
    of the output. *)
Fixpoint decode (types : list Sim.jvalue) (s : string) : list Sim.jvalue :=
  match types with
  | [] => []
  | _ :: types' => JStr (substring 0 2 s) :: decode types' (string_drop 2 s)
  end.

Definition key_text (k : PrivKey) : string :=
  match k with
  | KeyString s => s
  | KeyBuffer b => Hex.encode b
  end.

Definition modules : Modules (host := Sim.host) := {|
  isFunction := fun _ => false;
  isObject := is_object;
  isString := is_string;
  inputDefaultBlockNumberFormatter := fun v => Return v;
  encodeParams := encode;
  decodeParams := fun types output =>
    match output with
    | JStr s => Return (decode types s)
    | _ => Throw (ThrownError Error "Invalid output")
    end;
  sha3_text := text_digest;
  generateHash := fun options =>
    Return (JStr (text_digest (Sim.stringify options)));
  sign := fun options clientHash privkey =>
    Return (Put options "signature"
              (JStr (clientHash ++ "/" ++ key_text privkey)));
  at_least_2 := fun v =>
    match v with
    | JNum z => (2 <=? z)%Z
    | _ => false
    end;
  eth_call := fun payload defaultBlock => Return (JStr "0x01");
  eth_invokeContract := fun payload =>
    Return (JStr (text_digest (Sim.stringify payload)))
|}.

(** A function [transfer(address,uint256)] of a contract, a caller's
    options and a private key. *)
Definition transfer : SolidityFunction (host := Sim.host) :=
  mkSolidityFunction [JStr "address"; JStr "uint256"] [JStr "bool"]
    "transfer(address,uint256)" (JStr "0xc0ffee").

Definition params : list Sim.jvalue := [JStr "0xbeef"; JNum 5%Z].

Definition options : Sim.jvalue :=
  JObj [ ("from", JStr "a11ce"); ("to", JStr "0xdead"); ("gas", JNum 7%Z) ].

Definition privkey : Sim.jvalue := JStr "00ff10".

End SimModules.

(* ================================================================== *)
(** * Vocabulary of the further properties *)

Definition is_draw {host : Host} (e : Event) : bool :=
  match e with
  | CallRandomBytes _ => true
  | _ => false
  end.

Definition is_hash_call {host : Host} (e : Event) : bool :=
  match e with
  | CallSha3 _ => true
  | _ => false
  end.

(** [f] does not send [a] and [b] to one value, unless they are one. *)
Definition no_collision {A B : Type} (f : A -> B) (a b : A) : Prop :=
  f a = f b -> a = b.

(** A hexadecimal text with its letters in upper case. *)
Definition upper_digit (c : ascii) : ascii :=
  let n := N_of_ascii c in
  if (97 <=? n)%N && (n <=? 102)%N then ascii_of_N (n - 32) else c.

Fixpoint hex_upper (s : string) : string :=
  match s with
  | EmptyString => EmptyString
  | String c s' => String (upper_digit c) (hex_upper s')
  end.

Section FurtherVocabulary.

Context {host : Host}.

(** The default cost parameters, as [EncryptKey] passes them. *)
Definition default_call (passwd : string) (salt : bytes) : Event :=
  CallScrypt passwd (jnum ScryptN) (jnum ScryptR) (jnum ScryptP)
    (jnum ScryptDKLen) salt.

Definition default_derivation (passwd : string) (salt : bytes)
    : Outcome bytes :=
  scrypt_hashSync passwd (jnum ScryptN) (jnum ScryptR) (jnum ScryptP)
    (jnum ScryptDKLen) salt.

(** A version 3 record written by another implementation: any [address],
    any cost parameters, and the texts of a salt, an iv, a ciphertext
    and a tag. *)
Definition foreign_record (address dklen n p r : value)
    (salt iv ciphertext mac : string) : value :=
  JObj [ ("address", address);
         ("crypto",
          crypto_object (JStr "aes-128-ctr") ciphertext iv (JStr "scrypt")
            dklen n p r salt (JStr mac));
         ("version", jnum 3) ].

Context {modules : Modules}.

Local Open Scope outcome_scope.

(** The object [toPayload] hands to [utils.generateHash] and
    [utils.sign]. *)
Definition stamped (this : SolidityFunction) (timestamp nonce : value)
    (options from : value) (payload : string) : value :=
  Put (Put (Put (Put (Put options "from" from) "to" (_address this))
              "payload" (JStr payload)) "timestamp" timestamp) "nonce" nonce.

(** [toPayload] once the private key and the options have been taken
    off the arguments. *)
Definition payload_of (this : SolidityFunction) (timestamp nonce : value)
    (privkey : PrivKey) (options : value) (args : list value)
    : Outcome value :=
  from <- Get options "from" ;;
  from <- prefixed from ;;
  encoded <- encodeParams (_inputTypes this) args ;;
  payload <- string_plus ("0x" ++ signature this) encoded ;;
  let options := stamped this timestamp nonce options from payload in
  hash <- generateHash options ;;
  clientHash <- string_plus "0x" hash ;;
  sign options clientHash privkey.

End FurtherVocabulary.

(* ================================================================== *)
(** * Sample inputs of the further properties *)

Module Cases.

#[local] Existing Instance Sim.host.
#[local] Existing Instance SimModules.modules.

(** A [crypto] block with [dklen] 16, a ciphertext and the hash of the
    ciphertext alone for its [mac]. *)
Definition short_salt : bytes := [x07; x08].
Definition short_iv : bytes := repeat x00 16.
Definition short_ciphertext : bytes := [x01; x02; x03].

Definition short_key (passwd : string) : bytes :=
  match scrypt_hashSync passwd (JNum 4%Z) (JNum 2%Z) (JNum 1%Z)
          (JNum 16%Z) short_salt with
  | Return b => b
  | Throw _ => []
  end.

Definition short_block : value :=
  crypto_object (JStr "aes-128-ctr") (Hex.encode short_ciphertext)
    (Hex.encode short_iv) (JStr "scrypt")
    (JNum 16%Z) (JNum 4%Z) (JNum 1%Z) (JNum 2%Z)
    (Hex.encode short_salt) (JStr (Hex.encode (sha3 short_ciphertext))).

(** A record without a [crypto] block, and a [crypto] block without
    [cipherparams]. *)
Definition no_crypto : value :=
  JObj [ ("address", JStr "00"); ("version", JNum 3%Z) ].

Definition no_cipherparams : value :=
  JObj [ ("cipher", JStr "aes-128-ctr");
         ("ciphertext", JStr "010203");
         ("kdf", JStr "scrypt");
         ("kdfparams",
          JObj [ ("dklen", JNum 32%Z); ("n", JNum 4%Z); ("p", JNum 1%Z);
                 ("r", JNum 2%Z); ("salt", JStr "0708") ]);
         ("mac", JStr "00") ].

(** A record of another implementation: its own cost parameters, a
    48-octet derived key, a secret of five octets and an address that is
    not a hexadecimal text. *)
Definition foreign_salt : bytes := [x0a; x0b; x0c].
Definition foreign_iv : bytes := repeat x11 16.
Definition foreign_secret : bytes := [x68; x65; x6c; x6c; x6f].

Definition foreign_key : bytes :=
  match scrypt_hashSync "another passphrase" (JNum 1024%Z) (JNum 4%Z)
          (JNum 2%Z) (JNum 48%Z) foreign_salt with
  | Return b => b
  | Throw _ => []
  end.

Definition foreign_ciphertext : bytes :=
  ctr (encryption_subkey foreign_key) foreign_iv foreign_secret.

Definition foreign : value :=
  foreign_record (JStr "nobody") (JNum 48%Z) (JNum 1024%Z) (JNum 2%Z)
    (JNum 4%Z) (Hex.encode foreign_salt) (Hex.encode foreign_iv)
    (Hex.encode foreign_ciphertext)
    (Hex.encode (tag foreign_key foreign_ciphertext)).

(** The sample record in upper case: its data, and its tag. *)
Definition upper_data : value :=
  foreign_record (JStr (Hex.encode (addr Samples.key)))
    (jnum ScryptDKLen) (jnum ScryptN) (jnum ScryptP) (jnum ScryptR)
    (hex_upper (Hex.encode Samples.salt))
    (hex_upper (Hex.encode Samples.iv))
    (hex_upper (Hex.encode Samples.ciphertext))
    (Hex.encode Samples.mac).

Definition upper_mac : value :=
  foreign_record (JStr (Hex.encode (addr Samples.key)))
    (jnum ScryptDKLen) (jnum ScryptN) (jnum ScryptP) (jnum ScryptR)
    (Hex.encode Samples.salt) (Hex.encode Samples.iv)
    (Hex.encode Samples.ciphertext) (hex_upper (Hex.encode Samples.mac)).

(** A block in the spelling [getKDFKey] reads, with another KDF, and a
    [scrypt] module that returns its salt. *)
Definition capitals : value :=
  JObj [ ("KDF", JStr "pbkdf2");
         ("KDFParams", JObj [ ("salt", JStr "0708") ]) ].

Definition echo (auth salt n r p dklen : value) : JS value :=
  ret salt.

(** The values read from the clock and from the random source. *)
Definition timestamp : value := JNum 1478099000000000000%Z.
Definition nonce : value := JNum 4711%Z.

(** What [toPayload] returns for the sample call. *)
Definition payload : value :=
  match toPayload SimModules.transfer timestamp nonce
          (SimModules.params ++ [SimModules.options; SimModules.privkey]) with
  | Return r => r
  | Throw _ => JUndefined
  end.

End Cases.

(* ================================================================== *)
(** * Facts about buffers and hexadecimal text *)

Lemma xor8_cancel (x y : Buf.bit8) : Buf.xor8 (Buf.xor8 x y) y = x.
Proof.
  destruct x as (a0 & a1 & a2 & a3 & a4 & a5 & a6 & a7).
  destruct y as (b0 & b1 & b2 & b3 & b4 & b5 & b6 & b7).
  unfold Buf.xor8.
  repeat rewrite xorb_assoc. repeat rewrite xorb_nilpotent.
  repeat rewrite xorb_false_r. reflexivity.
Qed.

Lemma byte_xor_cancel (a k : byte) : Buf.byte_xor (Buf.byte_xor a k) k = a.
Proof.
  unfold Buf.byte_xor. rewrite Byte.to_bits_of_bits, xor8_cancel.
  apply Byte.of_bits_to_bits.
Qed.

Lemma byte_xor_inj_l (a b k : byte) :
  Buf.byte_xor a k = Buf.byte_xor b k -> a = b.
Proof.
  intro E. rewrite <- (byte_xor_cancel a k), E. apply byte_xor_cancel.
Qed.

Lemma xor8_comm (x y : Buf.bit8) : Buf.xor8 x y = Buf.xor8 y x.
Proof.
  destruct x as (a0 & a1 & a2 & a3 & a4 & a5 & a6 & a7).
  destruct y as (b0 & b1 & b2 & b3 & b4 & b5 & b6 & b7).
  unfold Buf.xor8.
  rewrite (xorb_comm a0 b0), (xorb_comm a1 b1), (xorb_comm a2 b2),
    (xorb_comm a3 b3), (xorb_comm a4 b4), (xorb_comm a5 b5),
    (xorb_comm a6 b6), (xorb_comm a7 b7).
  reflexivity.
Qed.

Lemma byte_xor_comm (a b : byte) : Buf.byte_xor a b = Buf.byte_xor b a.
Proof. unfold Buf.byte_xor. now rewrite xor8_comm. Qed.

Lemma byte_xor_inj_r (a k k' : byte) :
  Buf.byte_xor a k = Buf.byte_xor a k' -> k = k'.
Proof.
  rewrite (byte_xor_comm a k), (byte_xor_comm a k'). apply byte_xor_inj_l.
Qed.

Lemma xor_length (d ks : bytes) :
  length d <= length ks -> length (Buf.xor d ks) = length d.
Proof.
  revert ks.
  induction d as [|x d IH]; intros [|k ks] L; simpl in *;
    try lia; try reflexivity.
  now rewrite IH by lia.
Qed.

(** A counter-mode stream is its own inverse under the same key stream. *)
Lemma xor_cancel (d ks : bytes) :
  length d <= length ks -> Buf.xor (Buf.xor d ks) ks = d.
Proof.
  revert ks.
  induction d as [|x d IH]; intros [|k ks] L; simpl in *;
    try lia; try reflexivity.
  now rewrite byte_xor_cancel, IH by lia.
Qed.

Lemma xor_inj_r (d ks ks' : bytes) :
  length ks = length d -> length ks' = length d ->
  Buf.xor d ks = Buf.xor d ks' -> ks = ks'.
Proof.
  revert ks ks'.
  induction d as [|x d IH]; intros [|k ks] [|k' ks'] L L' E;
    simpl in *; try discriminate; try reflexivity.
  injection E as E1 E2. apply byte_xor_inj_r in E1. subst k'.
  f_equal. apply IH; auto.
Qed.

Lemma hex_byte (x : byte) :
  let n := Byte.to_N x in
  Hex.value (Hex.digit (n / 16)) = Some (n / 16)%N /\
  Hex.value (Hex.digit (n mod 16)) = Some (n mod 16)%N /\
  Hex.byte_of_nibbles (n / 16) (n mod 16) = x /\
  Hex.is_lower_digit (Hex.digit (n / 16)) = true /\
  Hex.is_lower_digit (Hex.digit (n mod 16)) = true.
Proof. destruct x; vm_compute; repeat split. Qed.

(** Decoding the text of a buffer gives the buffer back. *)
Lemma hex_decode_encode (b : bytes) : Hex.decode (Hex.encode b) = b.
Proof.
  induction b as [|x b IH]; [reflexivity|].
  destruct (hex_byte x) as (E1 & E2 & E3 & _).
  cbn [Hex.encode Hex.decode]. cbv zeta in E1, E2, E3.
  now rewrite E1, E2, E3, IH.
Qed.

Lemma hex_encode_inj (a b : bytes) : Hex.encode a = Hex.encode b -> a = b.
Proof.
  intro E. rewrite <- (hex_decode_encode a), E. apply hex_decode_encode.
Qed.

Lemma hex_encode_lower (b : bytes) : Hex.all_lower (Hex.encode b) = true.
Proof.
  induction b as [|x b IH]; [reflexivity|].
  destruct (hex_byte x) as (_ & _ & _ & E4 & E5).
  cbn [Hex.encode Hex.all_lower]. cbv zeta in E4, E5.
  now rewrite E4, E5, IH.
Qed.

Lemma hex_encode_length (b : bytes) :
  String.length (Hex.encode b) = 2 * length b.
Proof. induction b as [|x b IH]; simpl; [reflexivity | rewrite IH; lia]. Qed.

Lemma string_app_empty (s : string) : (s ++ EmptyString)%string = s.
Proof. induction s as [|c s IH]; simpl; [reflexivity | now rewrite IH]. Qed.

Lemma xorb_fixed (a m : bool) : xorb a m = a -> m = false.
Proof. destruct a, m; simpl; congruence. Qed.

Lemma byte_flip_neq (i : nat) (x : byte) : Buf.byte_flip i x <> x.
Proof.
  unfold Buf.byte_flip. intro E.
  apply (f_equal Byte.to_bits) in E. rewrite Byte.to_bits_of_bits in E.
  destruct (Byte.to_bits x) as (a0 & a1 & a2 & a3 & a4 & a5 & a6 & a7).
  unfold Buf.xor8, Buf.mask8 in E.
  assert (B : i mod 8 < 8) by (apply Nat.mod_upper_bound; lia).
  set (m := i mod 8) in *.
  injection E as E0 E1 E2 E3 E4 E5 E6 E7.
  apply xorb_fixed, Nat.eqb_neq in E0, E1, E2, E3, E4, E5, E6, E7.
  lia.
Qed.

Lemma flip_bit_length (i : nat) (b : bytes) :
  length (Buf.flip_bit i b) = length b.
Proof.
  revert i. induction b as [|x b IH]; intro i; simpl; [reflexivity|].
  destruct (Nat.ltb i 8); simpl; [reflexivity | now rewrite IH].
Qed.

(** Flipping a bit inside a buffer changes the buffer. *)
Lemma flip_bit_neq (i : nat) (b : bytes) :
  i < 8 * length b -> Buf.flip_bit i b <> b.
Proof.
  revert i. induction b as [|x b IH]; intros i L; simpl in *; [lia|].
  destruct (Nat.ltb i 8) eqn:C.
  - intro E. injection E as E. now apply byte_flip_neq in E.
  - apply Nat.ltb_ge in C. intro E. injection E as E.
    apply IH in E; [assumption | lia].
Qed.

Lemma slice_length (b : bytes) (from to : nat) :
  to <= length b -> length (Buf.slice b from to) = to - from.
Proof.
  intro L. unfold Buf.slice. rewrite length_skipn, length_firstn. lia.
Qed.

(** The two halves of a 32-octet buffer are disjoint and cover it. *)
Lemma slice_halves (b : bytes) :
  length b = 32 -> Buf.slice b 0 16 ++ Buf.slice b 16 32 = b.
Proof.
  intro L. unfold Buf.slice.
  rewrite (firstn_all2 (n := 32) b) by lia.
  cbn [skipn]. apply firstn_skipn.
Qed.

Lemma slice_nth (b : bytes) (from to i : nat) (d : byte) :
  from + i < to -> to <= length b ->
  nth i (Buf.slice b from to) d = nth (from + i) b d.
Proof.
  intros L1 L2. unfold Buf.slice.
  rewrite nth_skipn, nth_firstn.
  destruct (Nat.ltb_spec (from + i) to); [reflexivity | lia].
Qed.

(* ================================================================== *)
(** * Runs of the engine *)

Section Runs.

Context {host : Host}.

Local Open Scope js_scope.

Lemma log_nil (w : World) : log [] w = w.
Proof. destruct w. unfold log. simpl. now rewrite app_nil_r. Qed.

Lemma emit_run (e : Event) (w : World) : emit e w = (Return tt, log [e] w).
Proof. reflexivity. Qed.

Lemma draw_run (n : nat) (w : World) : draw n w = (peek n w, drawn n w).
Proof. reflexivity. Qed.

Lemma peek_length (n : nat) (w : World) : length (peek n w) = n.
Proof. unfold peek. now rewrite length_map, length_seq. Qed.

Lemma keystream_length (key iv : bytes) (pos n : nat) :
  length (keystream key iv pos n) = n.
Proof. unfold keystream. now rewrite length_map, length_seq. Qed.

Lemma Get2_eq (c : value) (k1 k2 : string) (o : value) :
  Get c k1 = Return o -> Get2 c k1 k2 = Get o k2.
Proof. intro E. unfold Get2. now rewrite E. Qed.

Lemma Get2_inv (c : value) (k1 k2 : string) (x : value) :
  Get2 c k1 k2 = Return x ->
  exists o, Get c k1 = Return o /\ Get o k2 = Return x.
Proof.
  unfold Get2. destruct (Get c k1) as [o|e]; [|discriminate].
  intro E. now exists o.
Qed.

(** A value with a property can be asked for every other property. *)
Lemma Get_total (v : value) (k k' : string) (x : value) :
  Get v k = Return x -> Get v k' = Return (match v with
                                           | JObj ps => lookup k' ps
                                           | _ => JUndefined
                                           end).
Proof. destruct v; intro E; try discriminate; reflexivity. Qed.

(** On strings the comparison is equality of the texts. *)
Lemma loose_neq_strings (m s : string) :
  loose_neq (JStr m) s = Return (negb (String.eqb m s)).
Proof. reflexivity. Qed.

(** The buffer made of the text of a buffer is that buffer. *)
Lemma Buffer_hex_encode (b : bytes) :
  Buffer_hex (JStr (Hex.encode b)) = Return b.
Proof.
  unfold Buffer_hex. rewrite hex_encode_length.
  replace (Nat.even (2 * length b)) with true.
  - now rewrite hex_decode_encode.
  - symmetry. apply Nat.even_spec. now exists (length b).
Qed.

End Runs.

Section EncryptRuns.

Context {host : Host}.

(** [EncryptKey] step by step, once the derivation has returned. *)
Lemma EncryptKey_run (key : KeyPair) (passwd : string) (w : World)
    (dk : bytes) :
  scrypt_hashSync passwd (jnum ScryptN) (jnum ScryptR) (jnum ScryptP)
    (jnum ScryptDKLen) (salt_of w) = Return dk ->
  length dk = 32 ->
  EncryptKey key passwd w =
    (Return (sealed key (salt_of w) (iv_of w) dk),
     mkWorld (entropy w) (cursor w + 32 + 16)
       (trace w ++ sealing_calls key passwd (salt_of w) (iv_of w) dk)).
Proof.
  intros Hdk Hlen.
  unfold EncryptKey, bind, randomBytes, scrypt_call, bind, lift.
  rewrite draw_run, emit_run. cbn [log trace cursor entropy].
  fold (salt_of w). rewrite Hdk.
  rewrite draw_run. unfold createCipheriv, bind. rewrite emit_run.
  unfold peek, drawn, log. cbn [trace cursor entropy].
  fold (iv_of w).
  assert (L1 : length (Buf.slice dk 0 16) = 16)
    by (rewrite slice_length; lia).
  assert (L2 : length (iv_of w) = 16)
    by (unfold iv_of; now rewrite length_map, length_seq).
  rewrite L1, L2. cbn [Nat.eqb negb].
  unfold ret, cipher_update, cipher_final, sha3_call, bind, emit, ret, lift.
  cbn [trace cursor entropy cipher_key cipher_iv cipher_pos].
  rewrite string_app_empty, Buffer_hex_encode.
  unfold sealed, keystore_object, crypto_object, tag, ctr, sealing_calls,
    encryption_subkey, mac_subkey, Buf.concat.
  cbn [List.concat]. rewrite app_nil_r.
  repeat rewrite <- app_assoc. cbn [app].
  reflexivity.
Qed.

End EncryptRuns.

Arguments Get : simpl never.
Arguments loose_eq : simpl never.
Arguments loose_neq : simpl never.
Arguments string_plus : simpl never.
Arguments Buffer_hex : simpl never.
Arguments ToString : simpl never.

(** Case analysis on the outcome the run in the goal waits for. *)
Ltac next_outcome :=
  match goal with
  | |- _ (match ?x with Return _ => _ | Throw _ => _ end) =>
      destruct x eqn:?
  | |- _ (if ?b then _ else _) => destruct b eqn:?
  | |- _ ((if ?b then _ else _) _) => destruct b eqn:?
  | |- context [if negb (Nat.eqb ?a ?b) then _ else _] =>
      destruct (Nat.eqb a b) eqn:?; cbn [negb]
  end.

(** The side conditions of a path: what was read from the record. *)
Ltac read_fields :=
  unfold derivation, tag_inputs;
  repeat first
    [ eassumption
    | reflexivity
    | erewrite Get2_eq by eassumption
    | split
    | eexists
    | symmetry; eassumption ].

Ltac same_world :=
  first [ symmetry; apply log_nil
        | unfold log; cbn [trace cursor entropy];
          repeat rewrite <- app_assoc; reflexivity ].

Ltac same_world_pair :=
  unfold log, opening_calls, checking_calls; cbn [trace cursor entropy];
  repeat rewrite <- app_assoc; reflexivity.

Section DecryptRuns.

Context {host : Host}.

Lemma follows_intro (c : value) (passwd : string) (w w' : World)
    (o : Outcome string) (evs : list Event) :
  V3Path c passwd o evs -> w' = log evs w -> follows c passwd w (o, w').
Proof. intros P E. exists o, evs. now rewrite E. Qed.

(** Every run of [DecryptKeyV3] follows one of the paths of [V3Path]. *)
Lemma DecryptKeyV3_follows (c : value) (passwd : string) (w : World) :
  follows c passwd w (DecryptKeyV3 c passwd w).
Proof.
  unfold DecryptKeyV3, bind, get, lift, scrypt_call, sha3_call,
    createCipheriv, cipher_update, cipher_final, bind, lift, emit, throw,
    ret.
  cbn [trace cursor entropy fst snd cipher_key cipher_iv cipher_pos].
  repeat (next_outcome;
          cbn beta iota delta
            [trace cursor entropy cipher_key cipher_iv cipher_pos]).
  all: unfold Buf.concat in *; cbn [List.concat] in *;
    rewrite ?app_nil_r, ?string_app_empty in *.
  all: try solve [eapply follows_intro; [apply path_refused | same_world]].
  all: try solve [eapply follows_intro;
                  [eapply path_underived; read_fields | same_world]].
  all: try solve [eapply follows_intro;
                  [eapply path_mismatch; read_fields | same_world]].
  all: try solve [eapply follows_intro;
                  [eapply path_incomparable; read_fields | same_world]].
  all: try solve [eapply follows_intro;
                  [eapply path_cipher_refused; read_fields | same_world]].
  all: try solve [eapply follows_intro;
                  [eapply path_opened; read_fields;
                   now apply Nat.eqb_eq
                  | same_world]].
Qed.

(** *** Reads of a [crypto] block and of a record *)

Section Fields.

Variables (cipher kdf dklen n p r mac : value).
Variables (ciphertext iv salt : bytes).

Let c :=
  crypto_object cipher (Hex.encode ciphertext) (Hex.encode iv) kdf
    dklen n p r (Hex.encode salt) mac.

Lemma crypto_cipher : Get c "cipher" = Return cipher.
Proof. reflexivity. Qed.

Lemma crypto_kdf : Get c "kdf" = Return kdf.
Proof. reflexivity. Qed.

Hypothesis cipher_ok : loose_neq cipher "aes-128-ctr" = Return false.
Hypothesis kdf_ok : loose_neq kdf "scrypt" = Return false.

(** [DecryptKeyV3] on a block whose identifiers pass, up to the
    comparison of the tags. *)
Lemma DecryptKeyV3_checked (passwd : string) (w : World) (dk : bytes) :
  let checking :=
    checking_calls passwd n r p dklen salt ciphertext dk in
  let creating :=
    checking ++ [CallCreateCipheriv (encryption_subkey dk) iv] in
  scrypt_hashSync passwd n r p dklen salt = Return dk ->
  DecryptKeyV3 c passwd w =
    match loose_neq mac (Hex.encode (tag dk ciphertext)) with
    | Throw e => (Throw e, log checking w)
    | Return true => (Throw AuthenticationFailed, log checking w)
    | Return false =>
        if negb (Nat.eqb (length iv) 16) then
          (Throw (ThrownError Error "Invalid IV length"),
           log creating w)
        else if negb (Nat.eqb (length (encryption_subkey dk)) 16) then
          (Throw (ThrownError Error "Invalid key length"),
           log creating w)
        else
          (Return (Hex.encode (ctr (encryption_subkey dk) iv ciphertext)),
           log (opening_calls passwd n r p dklen salt iv ciphertext dk) w)
    end.
Proof.
  intros checking creating Hdk. subst checking creating.
  unfold DecryptKeyV3, get, bind, lift.
  rewrite crypto_cipher, cipher_ok, crypto_kdf, kdf_ok.
  unfold c, crypto_object, Get.
  cbn [lookup String.eqb Ascii.eqb Bool.eqb].
  rewrite !Buffer_hex_encode.
  unfold scrypt_call, sha3_call, bind, lift, emit, ret.
  rewrite Hdk. cbn [trace cursor entropy].
  unfold Buf.concat. cbn [List.concat]. rewrite app_nil_r.
  fold (mac_subkey dk). fold (tag dk ciphertext).
  fold (encryption_subkey dk).
  destruct (loose_neq mac _) as [[|]|e]; try (unfold throw; same_world_pair).
  unfold createCipheriv, bind, emit, throw, ret.
  cbn [trace cursor entropy].
  destruct (Nat.eqb (length iv) 16); cbn [negb];
    [|same_world_pair].
  destruct (Nat.eqb (length (encryption_subkey dk)) 16); cbn [negb];
    [|same_world_pair].
  unfold cipher_update, cipher_final, bind, emit, ret.
  cbn [trace cursor entropy cipher_key cipher_iv cipher_pos].
  rewrite string_app_empty. fold (ctr (encryption_subkey dk) iv ciphertext).
  same_world_pair.
Qed.

End Fields.


(** *** [DecryptKey] on a text *)

Lemma DecryptKey_text (text passwd : string) (keyJson : value) (w : World) :
  JSON_parse text = Return keyJson ->
  DecryptKey (JStr text) passwd w =
    match Get keyJson "version" with
    | Throw e => (Throw e, w)
    | Return version =>
        match (if ToBoolean version then loose_eq version "3"
               else Return false) with
        | Throw e => (Throw e, w)
        | Return false => (Throw UnsupportedVersion, w)
        | Return true =>
            match Get keyJson "crypto" with
            | Throw e => (Throw e, w)
            | Return crypto => DecryptKeyV3 crypto passwd w
            end
        end
    end.
Proof.
  intro E. unfold DecryptKey, bind, lift, get.
  change (ToString (JStr text)) with (Return text). cbv iota beta.
  rewrite E. unfold lift, throw, ret.
  destruct (Get keyJson "version") as [version|e]; [|reflexivity].
  destruct (ToBoolean version).
  - destruct (loose_eq version "3") as [[|]|e]; reflexivity.
  - reflexivity.
Qed.

(** The counter-mode transformation undoes itself. *)
Lemma ctr_cancel (key iv data : bytes) :
  ctr key iv (ctr key iv data) = data.
Proof.
  unfold ctr at 1.
  assert (L : length (ctr key iv data) = length data)
    by (unfold ctr; apply xor_length; now rewrite keystream_length).
  rewrite L. unfold ctr. apply xor_cancel. now rewrite keystream_length.
Qed.

Lemma ctr_length (key iv data : bytes) :
  length (ctr key iv data) = length data.
Proof. unfold ctr. apply xor_length. now rewrite keystream_length. Qed.

(** [DecryptKey] on the text of a record in the layout of [EncryptKey]:
    the stored tag is compared with the tag of the stored ciphertext
    under the key derived from the stored salt. *)
Lemma DecryptKey_record (key : KeyPair) (passwd : string)
    (salt iv ct mac dk : bytes) (w : World) :
  let record := record_of key salt iv ct mac in
  let checking :=
    checking_calls passwd (jnum ScryptN) (jnum ScryptR) (jnum ScryptP)
      (jnum ScryptDKLen) salt ct dk in
  three_ok ->
  reads_back record ->
  scrypt_hashSync passwd (jnum ScryptN) (jnum ScryptR) (jnum ScryptP)
    (jnum ScryptDKLen) salt = Return dk ->
  length dk = 32 ->
  length iv = 16 ->
  DecryptKey (JStr (JSON_stringify record)) passwd w =
    if String.eqb (Hex.encode mac) (Hex.encode (tag dk ct)) then
      (Return (Hex.encode (ctr (encryption_subkey dk) iv ct)),
       log (opening_calls passwd (jnum ScryptN) (jnum ScryptR)
              (jnum ScryptP) (jnum ScryptDKLen) salt iv ct dk) w)
    else (Throw AuthenticationFailed, log checking w).
Proof.
  intros record checking [T1 T2] Hjson Hdk Ldk Liv.
  erewrite DecryptKey_text by exact Hjson.
  unfold record, record_of, keystore_object.
  change (Get (JObj ?ps) "version") with (Return (lookup "version" ps)).
  cbn [lookup String.eqb Ascii.eqb Bool.eqb].
  unfold jnum at 1. cbn [ToBoolean]. rewrite T1.
  change (loose_eq (jnum 3) "3")
    with (Return (A := bool) (num_eq_string (num_of_Z 3) "3")).
  rewrite T2.
  change (Get (JObj ?ps) "crypto") with (Return (lookup "crypto" ps)).
  cbn [lookup String.eqb Ascii.eqb Bool.eqb].
  rewrite DecryptKeyV3_checked with (dk := dk);
    try reflexivity; try assumption.
  rewrite loose_neq_strings.
  destruct (String.eqb (Hex.encode mac) (Hex.encode (tag dk ct)));
    cbn [negb]; [|reflexivity].
  rewrite Liv. cbn [Nat.eqb negb].
  unfold encryption_subkey at 1. rewrite slice_length by lia.
  reflexivity.
Qed.

(** Opening a sealed record, read back from its text, with the
    passphrase it was sealed under. *)
Lemma open_sealed (key : KeyPair) (passwd : string) (salt iv dk : bytes)
    (w : World) :
  let record := sealed key salt iv dk in
  three_ok ->
  reads_back record ->
  scrypt_hashSync passwd (jnum ScryptN) (jnum ScryptR) (jnum ScryptP)
    (jnum ScryptDKLen) salt = Return dk ->
  length dk = 32 ->
  length iv = 16 ->
  DecryptKey (JStr (JSON_stringify record)) passwd w =
    (Return (Hex.encode (prvkey key)),
     log (opening_calls passwd (jnum ScryptN) (jnum ScryptR)
            (jnum ScryptP) (jnum ScryptDKLen) salt iv
            (ctr (encryption_subkey dk) iv (prvkey key)) dk) w).
Proof.
  intros record H3 Hjson Hdk Ldk Liv. unfold record, sealed in *.
  rewrite DecryptKey_record with (dk := dk) by assumption.
  now rewrite String.eqb_refl, ctr_cancel.
Qed.

End DecryptRuns.

(* ================================================================== *)
(** * Key generation *)

Section GenKeyFacts.

Context {host : Host}.

Lemma nth_draw_drawn (w : World) (i : nat) :
  nth_draw (drawn 32 w) i = nth_draw w (S i).
Proof.
  unfold nth_draw, drawn. cbn [entropy cursor].
  do 2 f_equal. lia.
Qed.

Lemma after_draws_drawn (w : World) (k : nat) :
  after_draws k (drawn 32 w) = after_draws (S k) w.
Proof.
  unfold after_draws, drawn. cbn [entropy cursor trace].
  f_equal; [lia|]. rewrite <- app_assoc. reflexivity.
Qed.

Lemma after_draws_1 (w : World) : after_draws 1 w = drawn 32 w.
Proof.
  unfold after_draws, drawn. cbn [repeat].
  replace (cursor w + 32 * 1) with (cursor w + 32) by lia. reflexivity.
Qed.

Lemma nth_draw_0 (w : World) : nth_draw w 0 = peek 32 w.
Proof. unfold nth_draw, peek. do 2 f_equal. lia. Qed.

(** The loop returns the first valid draw, if the fuel reaches it. *)
Lemma GenKey_loop_first (n : nat) :
  forall (w : World) (fuel : nat),
    (forall j, j < n -> isValidPrivate (nth_draw w j) = false) ->
    isValidPrivate (nth_draw w n) = true ->
    n < fuel ->
    GenKey_loop fuel w = Some (nth_draw w n, after_draws (S n) w).
Proof.
  induction n as [|n IH]; intros w fuel Hbad Hgood Hfuel;
    (destruct fuel as [|fuel]; [lia|]);
    cbn [GenKey_loop]; rewrite draw_run.
  - rewrite <- nth_draw_0, Hgood. cbn [negb].
    now rewrite after_draws_1.
  - rewrite <- nth_draw_0, (Hbad 0) by lia. cbn [negb].
    rewrite (IH (drawn 32 w) fuel).
    + now rewrite nth_draw_drawn, after_draws_drawn.
    + intros j Hj. rewrite nth_draw_drawn. apply Hbad. lia.
    + now rewrite nth_draw_drawn.
    + lia.
Qed.

(** What the loop returns is a valid draw, and every earlier draw was
    rejected. *)
Lemma GenKey_loop_sound (fuel : nat) :
  forall (w : World) (k : bytes) (w' : World),
    GenKey_loop fuel w = Some (k, w') ->
    exists n, n < fuel /\
      (forall j, j < n -> isValidPrivate (nth_draw w j) = false) /\
      isValidPrivate (nth_draw w n) = true /\
      k = nth_draw w n /\ w' = after_draws (S n) w.
Proof.
  induction fuel as [|fuel IH]; intros w k w' E; [discriminate|].
  cbn [GenKey_loop] in E. rewrite draw_run, <- nth_draw_0 in E.
  destruct (isValidPrivate (nth_draw w 0)) eqn:V; cbn [negb] in E.
  - injection E as <- <-. exists 0. rewrite after_draws_1.
    repeat split; try lia; try assumption.
  - apply IH in E. destruct E as (n & Hn & Hbad & Hgood & -> & ->).
    exists (S n). rewrite nth_draw_drawn in *.
    rewrite after_draws_drawn. repeat split; try lia; try assumption.
    intros [|j] Hj; [assumption|].
    rewrite <- nth_draw_drawn. apply Hbad. lia.
Qed.

Lemma GenKey_loop_stuck (fuel : nat) :
  forall (w : World),
    (forall i, isValidPrivate (nth_draw w i) = false) ->
    GenKey_loop fuel w = None.
Proof.
  induction fuel as [|fuel IH]; intros w Hbad; [reflexivity|].
  cbn [GenKey_loop]. rewrite draw_run, <- nth_draw_0, Hbad. cbn [negb].
  apply IH. intro i. rewrite nth_draw_drawn. apply Hbad.
Qed.

(** Some draw is valid: then one of them is the first. *)
Lemma first_valid (w : World) (i : nat) :
  isValidPrivate (nth_draw w i) = true ->
  exists n, n <= i /\
    (forall j, j < n -> isValidPrivate (nth_draw w j) = false) /\
    isValidPrivate (nth_draw w n) = true.
Proof.
  induction i as [i IH] using lt_wf_ind. intro V.
  destruct (existsb (fun j => isValidPrivate (nth_draw w j)) (seq 0 i))
    eqn:E.
  - apply existsb_exists in E. destruct E as (j & Hj & Vj).
    apply in_seq in Hj. destruct (IH j ltac:(lia) Vj) as (n & ? & ? & ?).
    exists n. repeat split; try assumption. lia.
  - exists i. repeat split; try assumption; try lia.
    intros j Hj. destruct (isValidPrivate (nth_draw w j)) eqn:Vj;
      [|reflexivity].
    rewrite <- E. symmetry. apply existsb_exists. exists j. split;
      [apply in_seq; lia | assumption].
Qed.

Lemma GenKey_unfold (fuel : nat) (w : World) :
  GenKey fuel w =
    match GenKey_loop fuel w with
    | None => None
    | Some (k, w') =>
        Some (Return (mkKeyPair k (privateToPublic k)
                        (pubToAddress (privateToPublic k))), w')
    end.
Proof. unfold GenKey. destruct (GenKey_loop fuel w) as [[k w']|]; reflexivity. Qed.

End GenKeyFacts.

(* ================================================================== *)
(** * The claims about [GenKey] *)

(** C7.  Every private key [GenKey] returns satisfies the curve-validity
    predicate of the library (it is 32 octets long, nonzero and below the
    order of the curve), and the public key and the address of the
    returned pair are functions of that private key alone: two runs that
    return the same private key return the same public key and address. *)
Theorem C7_generated_key_is_valid {host : Host}
    (w : World) (kp : KeyPair) (w' : World) :
  (forall k, isValidPrivate k = true -> curve_valid k) ->
  GenKey_returns w kp w' ->
  isValidPrivate (prvkey kp) = true /\
  curve_valid (prvkey kp) /\
  pubkey kp = privateToPublic (prvkey kp) /\
  addr kp = pubToAddress (privateToPublic (prvkey kp)) /\
  (forall w2 kp2 w2',
      GenKey_returns w2 kp2 w2' -> prvkey kp2 = prvkey kp ->
      pubkey kp2 = pubkey kp /\ addr kp2 = addr kp).
Proof.
  intros Hvalid [fuel E].
  assert (shape : forall f v p v',
             GenKey f v = Some (Return p, v') ->
             isValidPrivate (prvkey p) = true /\
             pubkey p = privateToPublic (prvkey p) /\
             addr p = pubToAddress (privateToPublic (prvkey p))).
  { intros f v p v' R. rewrite GenKey_unfold in R.
    destruct (GenKey_loop f v) as [[k u]|] eqn:L; [|discriminate].
    injection R as <- <-. cbn [prvkey pubkey addr].
    apply GenKey_loop_sound in L. destruct L as (n & _ & _ & V & -> & _).
    auto. }
  destruct (shape _ _ _ _ E) as (V & P & A).
  split; [exact V|]. split; [exact (Hvalid _ V)|].
  split; [exact P|]. split; [exact A|].
  intros w2 kp2 w2' [f2 E2] Same.
  destruct (shape _ _ _ _ E2) as (_ & P2 & A2).
  split; congruence.
Qed.

(** C10.  The redraw loop of [GenKey] has no cap and no failure path:
    whatever the number [n] of invalid draws before the first valid one,
    [GenKey] returns that draw after exactly [n + 1] draws; it returns if
    and only if some draw of the pool is valid; on a pool of invalid draws
    it never leaves the loop; and it never throws. *)
Theorem C10_redraw_loop_is_unbounded {host : Host} (w : World) :
  (forall n,
      (forall j, j < n -> isValidPrivate (nth_draw w j) = false) ->
      isValidPrivate (nth_draw w n) = true ->
      forall fuel, n < fuel ->
        exists kp, GenKey fuel w = Some (Return kp, after_draws (S n) w) /\
                   prvkey kp = nth_draw w n) /\
  ((exists kp w', GenKey_returns w kp w') <->
   (exists i, isValidPrivate (nth_draw w i) = true)) /\
  ((forall i, isValidPrivate (nth_draw w i) = false) -> GenKey_diverges w) /\
  (forall fuel e w', GenKey fuel w <> Some (Throw e, w')).
Proof.
  assert (first : forall n,
      (forall j, j < n -> isValidPrivate (nth_draw w j) = false) ->
      isValidPrivate (nth_draw w n) = true ->
      forall fuel, n < fuel ->
        exists kp, GenKey fuel w = Some (Return kp, after_draws (S n) w) /\
                   prvkey kp = nth_draw w n).
  { intros n Hbad Hgood fuel Hfuel.
    rewrite GenKey_unfold, (@GenKey_loop_first _ n w fuel Hbad Hgood Hfuel).
    eexists. split; reflexivity. }
  repeat split.
  - exact first.
  - intros (kp & w' & fuel & E). rewrite GenKey_unfold in E.
    destruct (GenKey_loop fuel w) as [[k u]|] eqn:L; [|discriminate].
    apply GenKey_loop_sound in L. destruct L as (n & _ & _ & V & _).
    now exists n.
  - intros (i & V). destruct (@first_valid _ w i V) as (n & _ & Hbad & Hgood).
    destruct (first n Hbad Hgood (S n) ltac:(lia)) as (kp & E & _).
    exists kp, (after_draws (S n) w), (S n). exact E.
  - intros Hbad fuel. rewrite GenKey_unfold.
    now rewrite (@GenKey_loop_stuck _ fuel w Hbad).
  - intros fuel e w' E. rewrite GenKey_unfold in E.
    destruct (GenKey_loop fuel w) as [[k u]|]; discriminate.
Qed.

(* ================================================================== *)
(** * The claims about [EncryptKey] and [DecryptKey] *)

Section SealFacts.

Context {host : Host}.

Lemma salt_of_length (w : World) : length (salt_of w) = 32.
Proof. apply peek_length. Qed.

Lemma iv_of_length (w : World) : length (iv_of w) = 16.
Proof. unfold iv_of. now rewrite length_map, length_seq. Qed.

(** With a derivation that succeeds, [EncryptKey] returns the sealed
    record. *)
Lemma EncryptKey_returns (key : KeyPair) (passwd : string) (w : World) :
  scrypt_default_ok ->
  exists dk,
    scrypt_hashSync passwd (jnum ScryptN) (jnum ScryptR) (jnum ScryptP)
      (jnum ScryptDKLen) (salt_of w) = Return dk /\
    length dk = 32 /\
    EncryptKey key passwd w =
      (Return (sealed key (salt_of w) (iv_of w) dk),
       mkWorld (entropy w) (cursor w + 32 + 16)
         (trace w ++ sealing_calls key passwd (salt_of w) (iv_of w) dk)).
Proof.
  intro Hs. destruct (Hs passwd (salt_of w) (salt_of_length w))
    as (dk & Hdk & Ldk).
  exists dk. repeat split; try assumption.
  now apply EncryptKey_run.
Qed.

End SealFacts.

(** C1.  Decrypting the text of the record [EncryptKey] produced, with the
    passphrase it was produced under, returns the private key: the
    returned hexadecimal string decodes to the 32 octets of [key.prvkey].
    The derivation is taken to succeed with [dklen] octets, the number 3 to
    be truthy and equal to "3", and [JSON.parse] to read the text of the
    record back. *)
Theorem C1_decrypt_inverts_encrypt {host : Host}
    (key : KeyPair) (passwd : string) (w : World) :
  length (prvkey key) = 32 ->
  scrypt_default_ok ->
  three_ok ->
  (forall record w',
      EncryptKey key passwd w = (Return record, w') -> reads_back record) ->
  exists record w',
    EncryptKey key passwd w = (Return record, w') /\
    forall w2, exists plaintext w3,
      DecryptKey (JStr (JSON_stringify record)) passwd w2
        = (Return plaintext, w3) /\
      Hex.decode plaintext = prvkey key /\
      length (Hex.decode plaintext) = 32.
Proof.
  intros Lkey Hs H3 Hjson.
  destruct (EncryptKey_returns key passwd w Hs) as (dk & Hdk & Ldk & Run).
  do 2 eexists. split; [exact Run|].
  intro w2. specialize (Hjson _ _ Run).
  do 2 eexists. split.
  - apply open_sealed; try assumption. apply iv_of_length.
  - rewrite hex_decode_encode. split; [reflexivity | assumption].
Qed.

(** C5.  The record [EncryptKey] returns has version 3, cipher
    "aes-128-ctr", kdf "scrypt", the cost parameters dklen = 32,
    n = 262144 = 2^18, r = 8 and p = 1, and the hexadecimal texts of: the
    salt, which is the 32 octets drawn first; the iv, which is the 16
    octets drawn next; the ciphertext, which is the private key combined
    with the key stream of the cipher under the octets [0, 16) of the key
    derived from the passphrase and that salt, and is as long as the
    private key; the mac, which is the sha3 hash of the octets [16, 32) of
    the derived key followed by that ciphertext; and the address of the
    key pair.  The record holds nothing else. *)
Theorem C5_record_layout {host : Host}
    (key : KeyPair) (passwd : string) (w : World) :
  scrypt_default_ok ->
  exists dk record w',
    let salt := map (entropy w) (seq (cursor w) 32) in
    let iv := map (entropy w) (seq (cursor w + 32) 16) in
    let ciphertext :=
      Buf.xor (prvkey key)
        (keystream (Buf.slice dk 0 16) iv 0 (length (prvkey key))) in
    let mac := sha3 (Buf.slice dk 16 32 ++ ciphertext) in
    scrypt_hashSync passwd (jnum ScryptN) (jnum ScryptR) (jnum ScryptP)
      (jnum ScryptDKLen) salt = Return dk /\
    length dk = 32 /\
    EncryptKey key passwd w = (Return record, w') /\
    trace w' = trace w ++ sealing_calls key passwd salt iv dk /\
    record =
      JObj
        [ ("address", JStr (Hex.encode (addr key)));
          ("crypto", JObj
            [ ("cipher", JStr "aes-128-ctr");
              ("ciphertext", JStr (Hex.encode ciphertext));
              ("cipherparams", JObj [ ("iv", JStr (Hex.encode iv)) ]);
              ("kdf", JStr "scrypt");
              ("kdfparams", JObj
                [ ("dklen", jnum 32);
                  ("n", jnum 262144);
                  ("p", jnum 1);
                  ("r", jnum 8);
                  ("salt", JStr (Hex.encode salt)) ]);
              ("mac", JStr (Hex.encode mac)) ]);
          ("version", jnum 3) ] /\
    Get_path record ["version"] = Return (jnum 3) /\
    Get_path record ["crypto"; "cipher"] = Return (JStr "aes-128-ctr") /\
    Get_path record ["crypto"; "kdf"] = Return (JStr "scrypt") /\
    Get_path record ["crypto"; "kdfparams"; "dklen"] = Return (jnum 32) /\
    Get_path record ["crypto"; "kdfparams"; "n"] = Return (jnum 262144) /\
    Get_path record ["crypto"; "kdfparams"; "n"] = Return (jnum (2 ^ 18)) /\
    Get_path record ["crypto"; "kdfparams"; "r"] = Return (jnum 8) /\
    Get_path record ["crypto"; "kdfparams"; "p"] = Return (jnum 1) /\
    Get_path record ["crypto"; "kdfparams"; "salt"]
      = Return (JStr (Hex.encode salt)) /\
    length salt = 32 /\
    String.length (Hex.encode salt) = 64 /\
    Get_path record ["crypto"; "cipherparams"; "iv"]
      = Return (JStr (Hex.encode iv)) /\
    length iv = 16 /\
    String.length (Hex.encode iv) = 32 /\
    Get_path record ["crypto"; "ciphertext"]
      = Return (JStr (Hex.encode ciphertext)) /\
    length ciphertext = length (prvkey key) /\
    Get_path record ["crypto"; "mac"] = Return (JStr (Hex.encode mac)) /\
    Get_path record ["address"] = Return (JStr (Hex.encode (addr key))).
Proof.
  intro Hs.
  destruct (EncryptKey_returns key passwd w Hs) as (dk & Hdk & Ldk & Run).
  exists dk. do 2 eexists. cbv zeta.
  split; [exact Hdk|]. split; [exact Ldk|]. split; [exact Run|].
  split; [reflexivity|]. split; [reflexivity|].
  repeat split; try reflexivity;
    try (rewrite hex_encode_length; now rewrite length_map, length_seq).
  apply ctr_length.
Qed.

Section SplitFacts.

Context {host : Host}.

Lemma loose_neq_false (v : value) (s : string) :
  loose_neq v s = Return false <-> loose_eq v s = Return true.
Proof.
  unfold loose_neq. destruct (loose_eq v s) as [[|]|e]; cbn [negb];
    split; intro E; try reflexivity; discriminate.
Qed.

(** The two sub-keys are the two halves of the derived key, octet for
    octet. *)
Lemma subkeys_positions (dk : bytes) :
  length dk = 32 ->
  length (encryption_subkey dk) = 16 /\
  length (mac_subkey dk) = 16 /\
  encryption_subkey dk ++ mac_subkey dk = dk /\
  forall i d, i < 16 ->
    nth i (encryption_subkey dk) d = nth i dk d /\
    nth i (mac_subkey dk) d = nth (16 + i) dk d.
Proof.
  intro L. unfold encryption_subkey, mac_subkey.
  repeat split.
  - rewrite slice_length; lia.
  - rewrite slice_length; lia.
  - now apply slice_halves.
  - now rewrite slice_nth by lia.
  - now rewrite slice_nth by lia.
Qed.

(** A run of [DecryptKeyV3] that returns took the last path. *)
Lemma DecryptKeyV3_returned (c : value) (passwd s : string) (w w' : World) :
  DecryptKeyV3 c passwd w = (Return s, w') ->
  exists call dk mac iv ct,
    derivation c passwd call (Return dk) /\
    tag_inputs c mac iv ct /\
    loose_neq mac (Hex.encode (tag dk ct)) = Return false /\
    length (encryption_subkey dk) = 16 /\
    length iv = 16 /\
    s = Hex.encode (ctr (encryption_subkey dk) iv ct) /\
    w' = log [call; CallSha3 (mac_subkey dk ++ ct);
              CallCreateCipheriv (encryption_subkey dk) iv;
              CallCipherUpdate ct; CallCipherFinal] w.
Proof.
  intro E. destruct (DecryptKeyV3_follows c passwd w) as (o & evs & R & P).
  rewrite E in R. injection R as <- ->.
  inversion P; subst. do 5 eexists.
  repeat (split; [eassumption|]). split; reflexivity.
Qed.

(** A value that can be compared with a string can be printed. *)
Lemma loose_neq_ToString (v : value) (s : string) (b : bool) :
  loose_neq v s = Return b -> exists name, ToString v = Return name.
Proof.
  unfold loose_neq, loose_eq.
  destruct v as [| |x|n|t|l|ps]; intro E;
    try (eexists; reflexivity);
    (destruct (ToString _) as [name|e]; [now exists name | discriminate]).
Qed.

Lemma derivation_call (c : value) (passwd : string) (call : Event)
    (dk : Outcome bytes) :
  derivation c passwd call dk ->
  exists n r p dklen salt, call = CallScrypt passwd n r p dklen salt.
Proof.
  intros (sh & s & n & r & p & l & _ & _ & _ & _ & _ & _ & E & _).
  now exists n, r, p, l, s.
Qed.

(** The cipher and the hash along a path are given the two sub-keys. *)
Lemma V3Path_calls (c : value) (passwd : string) (o : Outcome string)
    (evs : list Event) :
  V3Path c passwd o evs ->
  (forall key iv, In (CallCreateCipheriv key iv) evs ->
      exists call dk,
        derivation c passwd call (Return dk) /\
        key = encryption_subkey dk) /\
  (forall d, In (CallSha3 d) evs ->
      exists call dk mac iv ct,
        derivation c passwd call (Return dk) /\
        tag_inputs c mac iv ct /\
        d = mac_subkey dk ++ ct).
Proof.
  intro P.
  destruct P as [e | call dk e D | call dk mac iv ct e D T N
                | call dk mac iv ct D T N | call dk mac iv ct e D T N
                | call dk mac iv ct D T N L1 L2];
    try (destruct (derivation_call D) as (n & r & p & l & s & Ecall));
    split; intros; cbn [In] in *;
    repeat match goal with
           | H : _ \/ _ |- _ => destruct H
           | H : False |- _ => contradiction
           | H : call = _ |- _ => rewrite Ecall in H; discriminate
           | H : CallSha3 _ = CallCreateCipheriv _ _ |- _ => discriminate
           | H : CallCreateCipheriv _ _ = CallSha3 _ |- _ => discriminate
           | H : CallCipherUpdate _ = _ |- _ => discriminate
           | H : CallCipherFinal = _ |- _ => discriminate
           | H : CallCreateCipheriv _ _ = CallCreateCipheriv _ _ |- _ =>
               injection H as <- <-
           | H : CallSha3 _ = CallSha3 _ |- _ => injection H as <-
           end.
  all: try (do 2 eexists; split; [eassumption | reflexivity]).
  all: do 5 eexists; split; [eassumption | split; [eassumption | reflexivity]].
Qed.

(** [DecryptKeyV3] on a block whose identifiers pass, whose derivation
    returns and whose tag, iv and ciphertext can be read: the run from the
    derivation on. *)
Lemma DecryptKeyV3_run (c : value) (passwd : string) (w : World)
    (cipher kdf mac : value) (call : Event) (dk iv ct : bytes) :
  Get c "cipher" = Return cipher ->
  loose_neq cipher "aes-128-ctr" = Return false ->
  Get c "kdf" = Return kdf ->
  loose_neq kdf "scrypt" = Return false ->
  derivation c passwd call (Return dk) ->
  tag_inputs c mac iv ct ->
  let hashed := [call; CallSha3 (mac_subkey dk ++ ct)] in
  let created := hashed ++ [CallCreateCipheriv (encryption_subkey dk) iv] in
  DecryptKeyV3 c passwd w =
    match loose_neq mac (Hex.encode (tag dk ct)) with
    | Throw e => (Throw e, log hashed w)
    | Return true => (Throw AuthenticationFailed, log hashed w)
    | Return false =>
        if negb (Nat.eqb (length iv) 16) then
          (Throw (ThrownError Error "Invalid IV length"), log created w)
        else if negb (Nat.eqb (length (encryption_subkey dk)) 16) then
          (Throw (ThrownError Error "Invalid key length"), log created w)
        else
          (Return (Hex.encode (ctr (encryption_subkey dk) iv ct)),
           log (created ++ [CallCipherUpdate ct; CallCipherFinal]) w)
    end.
Proof.
  intros Hci Hok Hk Hkok D T hashed created. subst hashed created.
  destruct D as (sh & s & n & r & p & l & G1 & B & G2 & G3 & G4 & G5
                 & -> & Edk).
  destruct T as (Gm & (ih & Gi & Bi) & (ch & Gc & Bc)).
  destruct (@Get2_inv _ c "kdfparams" "salt" sh G1) as (kp & Gkp & Gs).
  rewrite (@Get2_eq _ c "kdfparams" "n" kp Gkp) in G2.
  rewrite (@Get2_eq _ c "kdfparams" "r" kp Gkp) in G3.
  rewrite (@Get2_eq _ c "kdfparams" "p" kp Gkp) in G4.
  rewrite (@Get2_eq _ c "kdfparams" "dklen" kp Gkp) in G5.
  destruct (@Get2_inv _ c "cipherparams" "iv" ih Gi) as (cp & Gcp & Gih).
  unfold DecryptKeyV3, get, bind, lift.
  rewrite Hci, Hok, Hk, Hkok, Gkp, Gs, B, G2, G3, G4, G5.
  unfold scrypt_call, bind, emit, lift. rewrite <- Edk.
  cbn [trace cursor entropy]. rewrite Gm, Gcp, Gih, Bi, Gc, Bc.
  unfold sha3_call, bind, emit, ret. cbn [trace cursor entropy].
  unfold Buf.concat. cbn [List.concat]. rewrite app_nil_r.
  fold (mac_subkey dk). fold (tag dk ct). fold (encryption_subkey dk).
  destruct (loose_neq mac _) as [[|]|e]; try (unfold throw; same_world).
  unfold createCipheriv, bind, emit, throw, ret.
  cbn [trace cursor entropy].
  destruct (Nat.eqb (length iv) 16); cbn [negb]; [|same_world].
  destruct (Nat.eqb (length (encryption_subkey dk)) 16); cbn [negb];
    [|same_world].
  unfold cipher_update, cipher_final, bind, emit, ret.
  cbn [trace cursor entropy cipher_key cipher_iv cipher_pos].
  rewrite string_app_empty. fold (ctr (encryption_subkey dk) iv ct).
  same_world.
Qed.

(** Two lists with equal heads of one length have equal tails. *)
Lemma app_same_length (a b c d : bytes) :
  length a = length c -> a ++ b = c ++ d -> a = c /\ b = d.
Proof.
  revert c. induction a as [|x a IH]; intros [|y c] L E;
    simpl in *; try discriminate.
  - now split.
  - injection E as -> E. destruct (IH c) as [-> ->]; auto.
Qed.

End SplitFacts.

(** C6.  [EncryptKey] and [DecryptKeyV3] split the derived key by
    position: the cipher is keyed with the octets [0, 16) and the tag is
    the sha3 hash of the octets [16, 32) followed by the raw ciphertext.
    [EncryptKey] stores the hexadecimal text of that tag as [mac].
    [DecryptKeyV3], on a block whose identifiers pass and whose fields can
    be read, derives the key from the stored salt and cost parameters,
    hashes its octets [16, 32) followed by the stored ciphertext, compares
    the stored [mac] with the text of that hash and, when they agree,
    creates the cipher with the octets [0, 16) and returns the text of the
    ciphertext combined with its key stream; in no run does it key the
    cipher or the hash otherwise. *)
Theorem C6_subkeys_and_tag {host : Host} :
  scrypt_default_ok ->
  (forall (key : KeyPair) (passwd : string) (w : World),
      exists dk record w' evs,
        scrypt_hashSync passwd (jnum ScryptN) (jnum ScryptR) (jnum ScryptP)
          (jnum ScryptDKLen) (salt_of w) = Return dk /\
        length dk = 32 /\
        EncryptKey key passwd w = (Return record, w') /\
        trace w' = trace w ++ evs /\
        let ek := Buf.slice dk 0 16 in
        let mk := Buf.slice dk 16 32 in
        let ct := Buf.xor (prvkey key)
                    (keystream ek (iv_of w) 0 (length (prvkey key))) in
        In (CallCreateCipheriv ek (iv_of w)) evs /\
        In (CallSha3 (mk ++ ct)) evs /\
        Get_path record ["crypto"; "ciphertext"]
          = Return (JStr (Hex.encode ct)) /\
        Get_path record ["crypto"; "mac"]
          = Return (JStr (Hex.encode (sha3 (mk ++ ct)))) /\
        length ek = 16 /\ length mk = 16 /\ ek ++ mk = dk /\
        (forall i d, i < 16 ->
            nth i ek d = nth i dk d /\ nth i mk d = nth (16 + i) dk d)) /\
  (forall (c : value) (passwd : string) (w : World)
          (cipher kdf mac : value) (call : Event) (dk iv ct : bytes),
      Get c "cipher" = Return cipher ->
      loose_neq cipher "aes-128-ctr" = Return false ->
      Get c "kdf" = Return kdf ->
      loose_neq kdf "scrypt" = Return false ->
      derivation c passwd call (Return dk) ->
      tag_inputs c mac iv ct ->
      let ek := Buf.slice dk 0 16 in
      let mk := Buf.slice dk 16 32 in
      let hashed := [call; CallSha3 (mk ++ ct)] in
      let created := hashed ++ [CallCreateCipheriv ek iv] in
      DecryptKeyV3 c passwd w =
        match loose_neq mac (Hex.encode (sha3 (mk ++ ct))) with
        | Throw e => (Throw e, log hashed w)
        | Return true => (Throw AuthenticationFailed, log hashed w)
        | Return false =>
            if negb (Nat.eqb (length iv) 16) then
              (Throw (ThrownError Error "Invalid IV length"), log created w)
            else if negb (Nat.eqb (length ek) 16) then
              (Throw (ThrownError Error "Invalid key length"),
               log created w)
            else
              (Return (Hex.encode
                         (Buf.xor ct (keystream ek iv 0 (length ct)))),
               log (created ++ [CallCipherUpdate ct; CallCipherFinal]) w)
        end) /\
  (forall (c : value) (passwd : string) (w : World),
      exists o evs,
        DecryptKeyV3 c passwd w = (o, log evs w) /\
        (forall key iv, In (CallCreateCipheriv key iv) evs ->
            exists call dk,
              derivation c passwd call (Return dk) /\
              key = Buf.slice dk 0 16) /\
        (forall d, In (CallSha3 d) evs ->
            exists call dk mac iv ct,
              derivation c passwd call (Return dk) /\
              tag_inputs c mac iv ct /\
              d = Buf.slice dk 16 32 ++ ct) /\
        (forall s, o = Return s ->
            exists call dk mac iv ct,
              derivation c passwd call (Return dk) /\
              tag_inputs c mac iv ct /\
              loose_eq mac (Hex.encode (sha3 (Buf.slice dk 16 32 ++ ct)))
                = Return true /\
              s = Hex.encode
                    (Buf.xor ct (keystream (Buf.slice dk 0 16) iv 0
                                   (length ct))))).
Proof.
  intro Hs. split; [|split].
  - intros key passwd w.
    destruct (EncryptKey_returns key passwd w Hs) as (dk & Hdk & Ldk & Run).
    destruct (subkeys_positions dk Ldk) as (L1 & L2 & Cover & Pos).
    exists dk. do 3 eexists.
    split; [exact Hdk|]. split; [exact Ldk|]. split; [exact Run|].
    split; [reflexivity|]. cbv zeta.
    repeat split; try reflexivity; try assumption.
    + unfold sealing_calls. cbn [In]. auto 10.
    + unfold sealing_calls. cbn [In]. auto 10.
    + apply Pos; assumption.
    + apply Pos; assumption.
  - intros c passwd w cipher kdf mac call dk iv ct Hci Hok Hk Hkok D T.
    exact (DecryptKeyV3_run w Hci Hok Hk Hkok D T).
  - intros c passwd w.
    destruct (DecryptKeyV3_follows c passwd w) as (o & evs & R & P).
    exists o, evs. split; [exact R|].
    repeat split.
    + intros key iv Hin. exact (proj1 (V3Path_calls P) key iv Hin).
    + intros d Hin. exact (proj2 (V3Path_calls P) d Hin).
    + intros s ->. inversion P; subst.
      do 5 eexists. split; [eassumption|]. split; [eassumption|].
      split; [|reflexivity]. now apply loose_neq_false.
Qed.

(** C9.  What [DecryptKeyV3] returns on success is a string of lower-case
    hexadecimal digits, two per octet of the decrypted data, not a buffer;
    and [DecryptKey] takes a JSON text: given the object [EncryptKey]
    returned, it fails in [JSON.parse], on the text "[object Object]",
    while given the serialized object it returns the hexadecimal text of
    the private key, 64 digits that decode to the 32 octets of the key. *)
Theorem C9_hex_result_and_json_argument {host : Host}
    (key : KeyPair) (passwd : string) (w : World) (e : Exn) :
  length (prvkey key) = 32 ->
  scrypt_default_ok ->
  three_ok ->
  (forall record w',
      EncryptKey key passwd w = (Return record, w') -> reads_back record) ->
  JSON_parse "[object Object]" = Throw e ->
  (forall c p v s v',
      DecryptKeyV3 c p v = (Return s, v') ->
      Hex.all_lower s = true /\
      exists plain, s = Hex.encode plain /\ Hex.decode s = plain /\
                    String.length s = 2 * length plain) /\
  exists record w',
    EncryptKey key passwd w = (Return record, w') /\
    (forall w2, DecryptKey record passwd w2 = (Throw e, w2)) /\
    (forall w2, exists w3,
        DecryptKey (JStr (JSON_stringify record)) passwd w2
          = (Return (Hex.encode (prvkey key)), w3)) /\
    Hex.decode (Hex.encode (prvkey key)) = prvkey key /\
    String.length (Hex.encode (prvkey key)) = 64.
Proof.
  intros Lkey Hs H3 Hjson Hobj. split.
  - intros c p v s v' R.
    destruct (DecryptKeyV3_returned _ _ _ R)
      as (call & dk & mac & iv & ct & _ & _ & _ & _ & _ & -> & _).
    split; [apply hex_encode_lower|].
    eexists. split; [reflexivity|]. split.
    + apply hex_decode_encode.
    + apply hex_encode_length.
  - destruct (EncryptKey_returns key passwd w Hs) as (dk & Hdk & Ldk & Run).
    do 2 eexists. split; [exact Run|].
    specialize (Hjson _ _ Run). repeat split.
    + intro w2. unfold DecryptKey, bind, lift.
      change (ToString (sealed key (salt_of w) (iv_of w) dk))
        with (Return (A := string) "[object Object]").
      cbv iota beta. now rewrite Hobj.
    + intro w2. eexists. apply open_sealed; try assumption.
      apply iv_of_length.
    + apply hex_decode_encode.
    + rewrite hex_encode_length, Lkey. reflexivity.
Qed.

(** C3.  In [DecryptKeyV3] the recomputed tag is compared with the stored
    [mac] before any cipher call: whenever the run makes a cipher call or
    returns a plaintext, the stored [mac] compared equal to the
    hexadecimal text of the tag, and the trace shows the tag computed
    first.  Whenever the comparison finds them different the run throws
    the one string [AuthenticationFailed], whatever made them differ,
    makes no cipher call and returns nothing.  For a [mac] that is a
    string the comparison is equality of the two texts, so the stored
    text then decodes to the octets of the tag. *)
Theorem C3_tag_checked_before_cipher {host : Host}
    (c : value) (passwd : string) (w : World) :
  exists o evs,
    DecryptKeyV3 c passwd w = (o, log evs w) /\
    (existsb is_cipher_call evs = true \/ (exists s, o = Return s) ->
       exists call dk mac iv ct rest,
         derivation c passwd call (Return dk) /\
         tag_inputs c mac iv ct /\
         loose_eq mac (Hex.encode (tag dk ct)) = Return true /\
         evs = call :: CallSha3 (mac_subkey dk ++ ct) :: rest /\
         is_cipher_call call = false /\
         (forall m, mac = JStr m ->
            m = Hex.encode (tag dk ct) /\ Hex.decode m = tag dk ct)) /\
    (forall d, In (CallSha3 d) evs ->
       exists mac,
         Get c "mac" = Return mac /\
         (loose_neq mac (Hex.encode (sha3 d)) = Return true ->
            o = Throw AuthenticationFailed /\
            existsb is_cipher_call evs = false)).
Proof.
  destruct (DecryptKeyV3_follows c passwd w) as (o & evs & R & P).
  exists o, evs. split; [exact R|].
  assert (string_mac : forall dk ct mac,
             loose_neq mac (Hex.encode (tag dk ct)) = Return false ->
             forall m, mac = JStr m ->
               m = Hex.encode (tag dk ct) /\ Hex.decode m = tag dk ct).
  { intros dk ct mac N m ->. rewrite loose_neq_strings in N.
    injection N as N. apply negb_false_iff, String.eqb_eq in N. subst m.
    split; [reflexivity | apply hex_decode_encode]. }
  destruct P as [e | call dk e D | call dk mac iv ct e D T N
                | call dk mac iv ct D T N | call dk mac iv ct e D T N
                | call dk mac iv ct D T N L1 L2];
    try (destruct (derivation_call D) as (n & r & p & l & s & ->)).
  all: split;
    [ intros [C | [s' C]]; cbn in C; try discriminate
    | intros d Hin; cbn [In] in Hin; try contradiction;
      repeat (destruct Hin as [Hin | Hin]; try discriminate;
              try contradiction) ].
  all: try (do 6 eexists; split; [eassumption|]; split; [eassumption|];
            split; [now apply loose_neq_false|];
            split; [reflexivity|]; split; [reflexivity|];
            now apply string_mac).
  all: injection Hin as <-; destruct T as (Tm & _); eexists;
    (split; [exact Tm|]); fold (tag dk ct); intro M.
  all: try (rewrite M in N; discriminate).
  split; reflexivity.
Qed.

(** C4, as amended.  [DecryptKey] fails, leaving the world and its trace
    of library calls as they were, so without a call to the derivation or
    to the cipher: with [UnsupportedVersion] when the [version] of the
    record is falsy or not loosely equal ([==]) to the string "3"; with
    [UnsupportedCipher] when its [cipher] is not loosely equal to
    "aes-128-ctr"; with [UnsupportedKdf] when its [kdf] is not loosely
    equal to "scrypt".  For a [version] that is a number this is the
    comparison of the number with "3", and for a [cipher] or [kdf] that is
    a string it is inequality of the strings. *)
Theorem C4_rejected_before_derivation {host : Host}
    (text passwd : string) (keyJson : value) (w : World) :
  JSON_parse text = Return keyJson ->
  (forall version,
      Get keyJson "version" = Return version ->
      ToBoolean version = false \/ loose_eq version "3" = Return false ->
      DecryptKey (JStr text) passwd w = (Throw UnsupportedVersion, w)) /\
  (forall version crypto cipher,
      Get keyJson "version" = Return version ->
      ToBoolean version = true ->
      loose_eq version "3" = Return true ->
      Get keyJson "crypto" = Return crypto ->
      Get crypto "cipher" = Return cipher ->
      (loose_neq cipher "aes-128-ctr" = Return true ->
       exists name,
         ToString cipher = Return name /\
         DecryptKey (JStr text) passwd w
           = (Throw (UnsupportedCipher name), w)) /\
      (forall kdf,
          loose_neq cipher "aes-128-ctr" = Return false ->
          Get crypto "kdf" = Return kdf ->
          loose_neq kdf "scrypt" = Return true ->
          DecryptKey (JStr text) passwd w = (Throw UnsupportedKdf, w))) /\
  (forall n, ToBoolean (JNum n) = num_truthy n /\
             loose_eq (JNum n) "3" = Return (num_eq_string n "3")) /\
  (forall s, loose_neq (JStr s) "aes-128-ctr" = Return true
             <-> s <> "aes-128-ctr") /\
  (forall s, loose_neq (JStr s) "scrypt" = Return true <-> s <> "scrypt").
Proof.
  intro Hparse.
  assert (strings : forall s t,
             loose_neq (JStr s) t = Return true <-> s <> t).
  { intros s t. rewrite loose_neq_strings. split.
    - intro E. injection E as E. apply negb_true_iff in E.
      now apply String.eqb_neq.
    - intro N. apply String.eqb_neq in N. now rewrite N. }
  split; [|split; [|split; [|split]]].
  - intros version Hv Hno. erewrite DecryptKey_text by exact Hparse.
    rewrite Hv. destruct Hno as [F | F].
    + now rewrite F.
    + rewrite F. now destruct (ToBoolean version).
  - intros version crypto cipher Hv Ht H3 Hc Hci. split.
    + intro Hne. destruct (loose_neq_ToString _ _ Hne) as [name Hname].
      exists name. split; [exact Hname|].
      erewrite DecryptKey_text by exact Hparse.
      rewrite Hv, Ht, H3, Hc.
      unfold DecryptKeyV3, bind, get, lift, string_plus.
      now rewrite Hci, Hne, Hname.
    + intros kdf Hok Hk Hne. erewrite DecryptKey_text by exact Hparse.
      rewrite Hv, Ht, H3, Hc.
      unfold DecryptKeyV3, bind, get, lift.
      now rewrite Hci, Hok, Hk, Hne.
  - intro n. split; reflexivity.
  - intro s. apply strings.
  - intro s. apply strings.
Qed.

Section TamperFacts.

Context {host : Host}.

(** [DecryptKey] fails with [AuthenticationFailed] on a record in the
    layout of [EncryptKey] exactly when the stored tag is not the tag of
    the stored ciphertext under the derived key. *)
Lemma DecryptKey_record_fails (key : KeyPair) (passwd : string)
    (salt iv ct mac dk : bytes) (w : World) :
  three_ok ->
  reads_back (record_of key salt iv ct mac) ->
  scrypt_hashSync passwd (jnum ScryptN) (jnum ScryptR) (jnum ScryptP)
    (jnum ScryptDKLen) salt = Return dk ->
  length dk = 32 ->
  length iv = 16 ->
  (fst (DecryptKey (JStr (JSON_stringify (record_of key salt iv ct mac)))
          passwd w) = Throw AuthenticationFailed
   <-> mac <> tag dk ct) /\
  (mac = tag dk ct ->
   fst (DecryptKey (JStr (JSON_stringify (record_of key salt iv ct mac)))
          passwd w)
     = Return (Hex.encode (ctr (encryption_subkey dk) iv ct))).
Proof.
  intros H3 Hjson Hdk Ldk Liv.
  rewrite DecryptKey_record with (dk := dk) by assumption.
  destruct (String.eqb (Hex.encode mac) (Hex.encode (tag dk ct))) eqn:E;
    cbn [fst].
  - apply String.eqb_eq, hex_encode_inj in E. subst mac.
    split; [split|]; intro F; try discriminate; try reflexivity.
    contradiction.
  - apply String.eqb_neq in E. split; [split|]; intro F.
    + intros ->. now apply E.
    + reflexivity.
    + subst mac. now contradiction E.
Qed.

End TamperFacts.

(** C2, as amended.  For a record [EncryptKey] produced and the passphrase
    it was produced under, with a single bit flipped: a flip in [mac] makes
    [DecryptKey] fail with [AuthenticationFailed]; so does a flip in
    [ciphertext], the hash not colliding on the flipped and the original
    input of the tag; so does a flip in [salt], the derivation not giving
    the two salts one MAC sub-key and the hash not colliding on the two
    inputs of the tag.  A flip in [iv] is not detected: the tag does not
    cover the iv, the comparison passes and [DecryptKey] returns the text
    of the ciphertext decrypted under the modified iv. *)
Theorem C2_tampering_and_the_tag {host : Host}
    (key : KeyPair) (passwd : string) (w : World) :
  scrypt_default_ok ->
  three_ok ->
  exists dk w',
    let salt := salt_of w in
    let iv := iv_of w in
    let ct := ctr (encryption_subkey dk) iv (prvkey key) in
    let mac := tag dk ct in
    let opened r w2 := fst (DecryptKey (JStr (JSON_stringify r)) passwd w2) in
    default_derivation passwd salt = Return dk /\
    EncryptKey key passwd w = (Return (record_of key salt iv ct mac), w') /\
    (forall i w2,
        i < 8 * length mac ->
        reads_back (record_of key salt iv ct (Buf.flip_bit i mac)) ->
        opened (record_of key salt iv ct (Buf.flip_bit i mac)) w2
          = Throw AuthenticationFailed) /\
    (forall i w2,
        i < 8 * length ct ->
        no_collision sha3 (mac_subkey dk ++ Buf.flip_bit i ct)
          (mac_subkey dk ++ ct) ->
        reads_back (record_of key salt iv (Buf.flip_bit i ct) mac) ->
        opened (record_of key salt iv (Buf.flip_bit i ct) mac) w2
          = Throw AuthenticationFailed) /\
    (forall i w2,
        i < 8 * length salt ->
        exists dk',
          default_derivation passwd (Buf.flip_bit i salt) = Return dk' /\
          ((mac_subkey dk' = mac_subkey dk -> Buf.flip_bit i salt = salt) ->
           no_collision sha3 (mac_subkey dk' ++ ct) (mac_subkey dk ++ ct) ->
           reads_back (record_of key (Buf.flip_bit i salt) iv ct mac) ->
           opened (record_of key (Buf.flip_bit i salt) iv ct mac) w2
             = Throw AuthenticationFailed)) /\
    (forall i w2,
        reads_back (record_of key salt (Buf.flip_bit i iv) ct mac) ->
        opened (record_of key salt (Buf.flip_bit i iv) ct mac) w2
          = Return (Hex.encode
                      (ctr (encryption_subkey dk) (Buf.flip_bit i iv) ct)) /\
        opened (record_of key salt (Buf.flip_bit i iv) ct mac) w2
          <> Throw AuthenticationFailed).
Proof.
  intros Hs H3.
  destruct (EncryptKey_returns key passwd w Hs) as (dk & Hdk & Ldk & Run).
  exists dk. eexists. cbv zeta. split; [exact Hdk|]. split; [exact Run|].
  pose proof (iv_of_length w) as Liv.
  assert (fails : forall salt' iv' ct' mac' dk' w2,
             reads_back (record_of key salt' iv' ct' mac') ->
             scrypt_hashSync passwd (jnum ScryptN) (jnum ScryptR)
               (jnum ScryptP) (jnum ScryptDKLen) salt' = Return dk' ->
             length dk' = 32 -> length iv' = 16 ->
             tag dk' ct' <> mac' ->
             fst (DecryptKey
                    (JStr (JSON_stringify (record_of key salt' iv' ct' mac')))
                    passwd w2) = Throw AuthenticationFailed).
  { intros salt' iv' ct' mac' dk' w2 Hjson Hdk' Ldk' Liv' N.
    destruct (@DecryptKey_record_fails _ key passwd salt' iv' ct' mac' dk'
                w2 H3 Hjson Hdk' Ldk' Liv') as [F _].
    apply F. intro E. apply N. now symmetry. }
  split; [|split; [|split]].
  - intros i w2 Hi Hjson. apply (fails _ _ _ _ dk); try assumption.
    intro E. symmetry in E. revert E. apply flip_bit_neq. exact Hi.
  - intros i w2 Hi Hash Hjson. apply (fails _ _ _ _ dk); try assumption.
    unfold tag. intro E. apply Hash in E. apply app_inv_head in E.
    revert E. apply flip_bit_neq. exact Hi.
  - intros i w2 Hi.
    assert (Ls : length (Buf.flip_bit i (salt_of w)) = 32)
      by (rewrite flip_bit_length; apply salt_of_length).
    destruct (Hs passwd _ Ls) as (dk' & Hdk' & Ldk').
    exists dk'. split; [exact Hdk'|].
    intros Kdf Hash Hjson. apply (fails _ _ _ _ dk'); try assumption.
    unfold tag. intro E. apply Hash in E.
    apply app_inv_tail in E. apply Kdf in E.
    revert E. apply flip_bit_neq. exact Hi.
  - intros i w2 Hjson.
    assert (R : fst (DecryptKey
                       (JStr (JSON_stringify
                                (record_of key (salt_of w)
                                   (Buf.flip_bit i (iv_of w))
                                   (ctr (encryption_subkey dk) (iv_of w)
                                      (prvkey key))
                                   (tag dk (ctr (encryption_subkey dk)
                                              (iv_of w) (prvkey key))))))
                       passwd w2)
                = Return (Hex.encode
                            (ctr (encryption_subkey dk)
                               (Buf.flip_bit i (iv_of w))
                               (ctr (encryption_subkey dk) (iv_of w)
                                  (prvkey key))))).
    { apply DecryptKey_record_fails; try assumption; try reflexivity.
      now rewrite flip_bit_length. }
    split; [exact R|]. rewrite R. discriminate.
Qed.

(** C8.  Two [EncryptKey] calls on one key pair and passphrase whose
    draws differ (distinct salts and distinct ivs) return records that are
    not the same: their [salt]s differ and their [iv]s differ; their
    [ciphertext]s differ, the cipher not giving the two pairs of key and iv
    one key stream over the length of the private key; and their [mac]s
    differ, the hash moreover not colliding on the two inputs of the tag.
    When [JSON.parse] reads the records back their texts differ, and each
    text decrypts to the private key under the passphrase. *)
Theorem C8_two_encryptions {host : Host}
    (key : KeyPair) (passwd : string) (w1 w2 : World) :
  scrypt_default_ok ->
  three_ok ->
  salt_of w1 <> salt_of w2 ->
  iv_of w1 <> iv_of w2 ->
  exists dk1 dk2 r1 r2 w1' w2',
    let n := length (prvkey key) in
    let ek1 := Buf.slice dk1 0 16 in
    let ek2 := Buf.slice dk2 0 16 in
    let mk1 := Buf.slice dk1 16 32 in
    let mk2 := Buf.slice dk2 16 32 in
    let ct1 := Buf.xor (prvkey key) (keystream ek1 (iv_of w1) 0 n) in
    let ct2 := Buf.xor (prvkey key) (keystream ek2 (iv_of w2) 0 n) in
    default_derivation passwd (salt_of w1) = Return dk1 /\
    default_derivation passwd (salt_of w2) = Return dk2 /\
    EncryptKey key passwd w1 = (Return r1, w1') /\
    EncryptKey key passwd w2 = (Return r2, w2') /\
    r1 <> r2 /\
    Get_path r1 ["crypto"; "kdfparams"; "salt"]
      = Return (JStr (Hex.encode (salt_of w1))) /\
    Get_path r2 ["crypto"; "kdfparams"; "salt"]
      = Return (JStr (Hex.encode (salt_of w2))) /\
    Get_path r1 ["crypto"; "kdfparams"; "salt"]
      <> Get_path r2 ["crypto"; "kdfparams"; "salt"] /\
    Get_path r1 ["crypto"; "cipherparams"; "iv"]
      = Return (JStr (Hex.encode (iv_of w1))) /\
    Get_path r2 ["crypto"; "cipherparams"; "iv"]
      = Return (JStr (Hex.encode (iv_of w2))) /\
    Get_path r1 ["crypto"; "cipherparams"; "iv"]
      <> Get_path r2 ["crypto"; "cipherparams"; "iv"] /\
    Get_path r1 ["crypto"; "ciphertext"] = Return (JStr (Hex.encode ct1)) /\
    Get_path r2 ["crypto"; "ciphertext"] = Return (JStr (Hex.encode ct2)) /\
    Get_path r1 ["crypto"; "mac"]
      = Return (JStr (Hex.encode (sha3 (mk1 ++ ct1)))) /\
    Get_path r2 ["crypto"; "mac"]
      = Return (JStr (Hex.encode (sha3 (mk2 ++ ct2)))) /\
    (no_collision (fun ki => keystream (fst ki) (snd ki) 0 n)
       (ek1, iv_of w1) (ek2, iv_of w2) ->
     Get_path r1 ["crypto"; "ciphertext"]
       <> Get_path r2 ["crypto"; "ciphertext"] /\
     (no_collision sha3 (mk1 ++ ct1) (mk2 ++ ct2) ->
      Get_path r1 ["crypto"; "mac"] <> Get_path r2 ["crypto"; "mac"])) /\
    (reads_back r1 -> reads_back r2 ->
     JSON_stringify r1 <> JSON_stringify r2 /\
     forall w3,
       fst (DecryptKey (JStr (JSON_stringify r1)) passwd w3)
         = Return (Hex.encode (prvkey key)) /\
       fst (DecryptKey (JStr (JSON_stringify r2)) passwd w3)
         = Return (Hex.encode (prvkey key))).
Proof.
  intros Hs H3 Nsalt Niv.
  destruct (EncryptKey_returns key passwd w1 Hs) as (dk1 & Hdk1 & L1 & Run1).
  destruct (EncryptKey_returns key passwd w2 Hs) as (dk2 & Hdk2 & L2 & Run2).
  exists dk1, dk2. do 4 eexists. cbv zeta.
  split; [exact Hdk1|]. split; [exact Hdk2|].
  split; [exact Run1|]. split; [exact Run2|].
  assert (hex_ne : forall a b : bytes,
             a <> b ->
             Return (JStr (num := num) (Hex.encode a))
               <> Return (JStr (Hex.encode b))).
  { intros a b N E. apply N. injection E as E. now apply hex_encode_inj. }
  assert (Dsalt : Get_path (sealed key (salt_of w1) (iv_of w1) dk1)
                    ["crypto"; "kdfparams"; "salt"]
                  <> Get_path (sealed key (salt_of w2) (iv_of w2) dk2)
                       ["crypto"; "kdfparams"; "salt"]).
  { apply (hex_ne (salt_of w1) (salt_of w2)). exact Nsalt. }
  split.
  { intro E. apply Dsalt.
    exact (f_equal (fun r => Get_path r ["crypto"; "kdfparams"; "salt"]) E). }
  split; [reflexivity|]. split; [reflexivity|]. split; [exact Dsalt|].
  split; [reflexivity|]. split; [reflexivity|].
  split; [apply (hex_ne (iv_of w1) (iv_of w2)); exact Niv|].
  split; [reflexivity|]. split; [reflexivity|].
  split; [reflexivity|]. split; [reflexivity|].
  split.
  - intro Cipher.
    assert (Nct : Buf.xor (prvkey key)
                    (keystream (Buf.slice dk1 0 16) (iv_of w1) 0
                       (length (prvkey key)))
                  <> Buf.xor (prvkey key)
                       (keystream (Buf.slice dk2 0 16) (iv_of w2) 0
                          (length (prvkey key)))).
    { intro E. apply xor_inj_r in E; try apply keystream_length.
      apply Cipher in E. apply Niv.
      exact (f_equal snd E). }
    split.
    + apply hex_ne. exact Nct.
    + intro Hash. apply hex_ne. intro E. apply Hash in E.
      apply app_same_length in E.
      * now apply Nct.
      * rewrite !slice_length by lia. reflexivity.
  - intros J1 J2. split.
    + intro E. apply Dsalt.
      unfold reads_back in J1, J2. rewrite E in J1.
      exact (f_equal
               (fun o => match o with
                         | Return r =>
                             Get_path r ["crypto"; "kdfparams"; "salt"]
                         | Throw e => Throw e
                         end)
               (eq_trans (eq_sym J1) J2)).
    + intro w3. split.
      * rewrite open_sealed; try assumption; [reflexivity|].
        apply iv_of_length.
      * rewrite open_sealed; try assumption; [reflexivity|].
        apply iv_of_length.
Qed.

(* ================================================================== *)
(** * Further properties of [EncryptKey] and [DecryptKey] *)

Section TextFields.

Context {host : Host}.

Variables (cipher kdf dklen n p r mac : value).
Variables (ct_text iv_text salt_text : string).
Variables (ciphertext iv salt : bytes).

Let c :=
  crypto_object cipher ct_text iv_text kdf dklen n p r salt_text mac.

Hypothesis cipher_ok : loose_neq cipher "aes-128-ctr" = Return false.
Hypothesis kdf_ok : loose_neq kdf "scrypt" = Return false.
Hypothesis salt_ok : Buffer_hex (JStr salt_text) = Return salt.
Hypothesis iv_ok : Buffer_hex (JStr iv_text) = Return iv.
Hypothesis ct_ok : Buffer_hex (JStr ct_text) = Return ciphertext.

(** [DecryptKeyV3] on a block whose identifiers pass and whose three
    texts make buffers. *)
Lemma DecryptKeyV3_texts (passwd : string) (w : World) (dk : bytes) :
  let checking :=
    checking_calls passwd n r p dklen salt ciphertext dk in
  let creating :=
    checking ++ [CallCreateCipheriv (encryption_subkey dk) iv] in
  scrypt_hashSync passwd n r p dklen salt = Return dk ->
  DecryptKeyV3 c passwd w =
    match loose_neq mac (Hex.encode (tag dk ciphertext)) with
    | Throw e => (Throw e, log checking w)
    | Return true => (Throw AuthenticationFailed, log checking w)
    | Return false =>
        if negb (Nat.eqb (length iv) 16) then
          (Throw (ThrownError Error "Invalid IV length"),
           log creating w)
        else if negb (Nat.eqb (length (encryption_subkey dk)) 16) then
          (Throw (ThrownError Error "Invalid key length"),
           log creating w)
        else
          (Return (Hex.encode (ctr (encryption_subkey dk) iv ciphertext)),
           log (opening_calls passwd n r p dklen salt iv ciphertext dk) w)
    end.
Proof.
  intros checking creating Hdk. subst checking creating.
  unfold DecryptKeyV3, get, bind, lift.
  assert (Gc : Get c "cipher" = Return cipher) by reflexivity.
  assert (Gk : Get c "kdf" = Return kdf) by reflexivity.
  rewrite Gc, cipher_ok, Gk, kdf_ok. clear Gc Gk.
  unfold c, crypto_object, Get.
  cbn [lookup String.eqb Ascii.eqb Bool.eqb].
  rewrite salt_ok, iv_ok, ct_ok.
  unfold scrypt_call, sha3_call, bind, lift, emit, ret.
  rewrite Hdk. cbn [trace cursor entropy].
  unfold Buf.concat. cbn [List.concat]. rewrite app_nil_r.
  fold (mac_subkey dk). fold (tag dk ciphertext).
  fold (encryption_subkey dk).
  destruct (loose_neq mac _) as [[|]|e]; try (unfold throw; same_world_pair).
  unfold createCipheriv, bind, emit, throw, ret.
  cbn [trace cursor entropy].
  destruct (Nat.eqb (length iv) 16); cbn [negb];
    [|same_world_pair].
  destruct (Nat.eqb (length (encryption_subkey dk)) 16); cbn [negb];
    [|same_world_pair].
  unfold cipher_update, cipher_final, bind, emit, ret.
  cbn [trace cursor entropy cipher_key cipher_iv cipher_pos].
  rewrite string_app_empty. fold (ctr (encryption_subkey dk) iv ciphertext).
  same_world_pair.
Qed.

End TextFields.

Section ForeignRecords.

Context {host : Host}.

Lemma encryption_subkey_length (dk : bytes) :
  16 <= length dk -> length (encryption_subkey dk) = 16.
Proof.
  intro L. unfold encryption_subkey, Buf.slice. cbn [skipn].
  rewrite length_firstn. lia.
Qed.

(** [DecryptKey] on the text of a version 3 record of any origin. *)
Lemma DecryptKey_foreign (address dklen n p r : value)
    (salt_text iv_text ct_text mac_text : string) (salt iv ct dk : bytes)
    (passwd : string) (w : World) :
  let record :=
    foreign_record address dklen n p r salt_text iv_text ct_text mac_text in
  three_ok ->
  reads_back record ->
  Buffer_hex (JStr salt_text) = Return salt ->
  Buffer_hex (JStr iv_text) = Return iv ->
  Buffer_hex (JStr ct_text) = Return ct ->
  scrypt_hashSync passwd n r p dklen salt = Return dk ->
  16 <= length dk ->
  length iv = 16 ->
  DecryptKey (JStr (JSON_stringify record)) passwd w =
    if String.eqb mac_text (Hex.encode (tag dk ct)) then
      (Return (Hex.encode (ctr (encryption_subkey dk) iv ct)),
       log (opening_calls passwd n r p dklen salt iv ct dk) w)
    else (Throw AuthenticationFailed,
          log (checking_calls passwd n r p dklen salt ct dk) w).
Proof.
  intros record [T1 T2] Hjson Hsalt Hiv Hct Hdk Ldk Liv.
  erewrite DecryptKey_text by exact Hjson.
  unfold record, foreign_record.
  change (Get (JObj ?ps) "version") with (Return (lookup "version" ps)).
  cbn [lookup String.eqb Ascii.eqb Bool.eqb].
  unfold jnum at 1. cbn [ToBoolean]. rewrite T1.
  change (loose_eq (jnum 3) "3")
    with (Return (A := bool) (num_eq_string (num_of_Z 3) "3")).
  rewrite T2.
  change (Get (JObj ?ps) "crypto") with (Return (lookup "crypto" ps)).
  cbn [lookup String.eqb Ascii.eqb Bool.eqb].
  rewrite DecryptKeyV3_texts
    with (salt := salt) (iv := iv) (ciphertext := ct) (dk := dk);
    try reflexivity; try assumption.
  rewrite loose_neq_strings.
  destruct (String.eqb mac_text (Hex.encode (tag dk ct)));
    cbn [negb]; [|reflexivity].
  rewrite encryption_subkey_length by assumption.
  rewrite Liv. reflexivity.
Qed.

(** A run of [DecryptKey] stops before [DecryptKeyV3] with the world
    untouched, or is a run of [DecryptKeyV3]. *)
Lemma DecryptKey_cases (keyJsonStr : value) (passwd : string) (w : World) :
  (exists e, DecryptKey keyJsonStr passwd w = (Throw e, w)) \/
  (exists c, DecryptKey keyJsonStr passwd w = DecryptKeyV3 c passwd w).
Proof.
  unfold DecryptKey, get, bind, lift, ret, throw.
  destruct (ToString keyJsonStr) as [text|e]; [|left; now exists e].
  destruct (JSON_parse text) as [keyJson|e]; [|left; now exists e].
  destruct (Get keyJson "version") as [version|e]; [|left; now exists e].
  destruct (ToBoolean version).
  - destruct (loose_eq version "3") as [[|]|e];
      [|left; eexists; reflexivity|left; now exists e].
    destruct (Get keyJson "crypto") as [crypto|e]; [|left; now exists e].
    right. now exists crypto.
  - left. eexists. reflexivity.
Qed.

End ForeignRecords.

(** X1.  Decrypting the record [EncryptKey] produced with another
    passphrase fails with [AuthenticationFailed] exactly when the tag of
    the ciphertext under the key derived from that passphrase differs from
    the stored tag; when the two tags coincide the check passes and
    [DecryptKey] returns the ciphertext decrypted under the other key. *)
Theorem X1_other_passphrase {host : Host}
    (key : KeyPair) (passwd other : string) (w : World) :
  scrypt_default_ok ->
  three_ok ->
  exists dk dk' w',
    let salt := salt_of w in
    let iv := iv_of w in
    let ct := ctr (encryption_subkey dk) iv (prvkey key) in
    let record := sealed key salt iv dk in
    EncryptKey key passwd w = (Return record, w') /\
    default_derivation passwd salt = Return dk /\
    default_derivation other salt = Return dk' /\
    (reads_back record ->
     forall w2,
       (fst (DecryptKey (JStr (JSON_stringify record)) other w2)
          = Throw AuthenticationFailed
        <-> tag dk' ct <> tag dk ct) /\
       (tag dk' ct = tag dk ct ->
        fst (DecryptKey (JStr (JSON_stringify record)) other w2)
          = Return (Hex.encode (ctr (encryption_subkey dk') iv ct)))).
Proof.
  intros Hs H3.
  destruct (EncryptKey_returns key passwd w Hs) as (dk & Hdk & Ldk & Run).
  destruct (Hs other (salt_of w) (salt_of_length w)) as (dk' & Hdk' & Ldk').
  exists dk, dk'. eexists. cbv zeta.
  split; [exact Run|]. split; [exact Hdk|]. split; [exact Hdk'|].
  intros Hjson w2. unfold sealed in *.
  destruct (@DecryptKey_record_fails _ key other (salt_of w) (iv_of w)
              (ctr (encryption_subkey dk) (iv_of w) (prvkey key))
              (tag dk (ctr (encryption_subkey dk) (iv_of w) (prvkey key)))
              dk' w2 H3 Hjson Hdk' Ldk' (iv_of_length w)) as [F G].
  split.
  - rewrite F. split; intros N E; apply N; now symmetry.
  - intro E. apply G. now symmetry.
Qed.

(** X2.  Two [EncryptKey] calls in a row use the entropy pool without
    overlap: each consumes 48 octets, the salt then the iv, so the first
    record holds the octets [0, 32) and [32, 48) counted from the cursor
    and the second the octets [48, 80) and [80, 96); the pool itself is
    left as it was. *)
Theorem X2_successive_encryptions {host : Host}
    (key1 key2 : KeyPair) (passwd1 passwd2 : string) (w : World) :
  scrypt_default_ok ->
  exists r1 w1 r2 w2,
    let octets from n :=
      Return (JStr (num := num)
                (Hex.encode (map (entropy w) (seq (cursor w + from) n)))) in
    EncryptKey key1 passwd1 w = (Return r1, w1) /\
    EncryptKey key2 passwd2 w1 = (Return r2, w2) /\
    cursor w1 = cursor w + 48 /\
    cursor w2 = cursor w + 96 /\
    entropy w2 = entropy w /\
    Get_path r1 ["crypto"; "kdfparams"; "salt"] = octets 0 32 /\
    Get_path r1 ["crypto"; "cipherparams"; "iv"] = octets 32 16 /\
    Get_path r2 ["crypto"; "kdfparams"; "salt"] = octets 48 32 /\
    Get_path r2 ["crypto"; "cipherparams"; "iv"] = octets 80 16.
Proof.
  intro Hs.
  destruct (EncryptKey_returns key1 passwd1 w Hs) as (dk1 & _ & _ & Run1).
  set (w1 := mkWorld (entropy w) (cursor w + 32 + 16)
               (trace w ++ sealing_calls key1 passwd1 (salt_of w) (iv_of w)
                             dk1)) in *.
  destruct (EncryptKey_returns key2 passwd2 w1 Hs) as (dk2 & _ & _ & Run2).
  do 4 eexists. cbv zeta.
  split; [exact Run1|]. split; [exact Run2|].
  cbn [cursor entropy w1].
  split; [lia|]. split; [lia|]. split; [reflexivity|].
  unfold sealed, record_of, keystore_object, crypto_object, salt_of, iv_of,
    peek.
  cbn [cursor entropy w1].
  replace (cursor w + 0) with (cursor w) by lia.
  replace (cursor w + 32 + 16) with (cursor w + 48) by lia.
  replace (cursor w + 48 + 32) with (cursor w + 80) by lia.
  repeat split.
Qed.

(** X3.  [DecryptKey] draws nothing from the entropy pool, whatever it is
    given: it leaves the pool and the cursor as they were and only adds
    library calls to the trace, at most one derivation, at most one hash
    and at most the three calls of one cipher. *)
Theorem X3_decrypt_draws_nothing {host : Host}
    (keyJsonStr : value) (passwd : string) (w : World) :
  exists o evs,
    DecryptKey keyJsonStr passwd w = (o, log evs w) /\
    entropy (log evs w) = entropy w /\
    cursor (log evs w) = cursor w /\
    existsb is_draw evs = false /\
    length (filter is_kdf_call evs) <= 1 /\
    length (filter is_hash_call evs) <= 1 /\
    length (filter is_cipher_call evs) <= 3.
Proof.
  destruct (DecryptKey_cases keyJsonStr passwd w) as [[e E] | [c E]].
  - exists (Throw e), []. rewrite log_nil. cbn. repeat split; try lia.
    exact E.
  - destruct (DecryptKeyV3_follows c passwd w) as (o & evs & R & P).
    exists o, evs. rewrite E. split; [exact R|].
    split; [reflexivity|]. split; [reflexivity|].
    destruct P as [e | call dk e D | call dk mac iv ct e D T N
                  | call dk mac iv ct D T N | call dk mac iv ct e D T N
                  | call dk mac iv ct D T N L1 L2];
      try (destruct (derivation_call D) as (n & r & p & l & s & ->));
      cbn; repeat split; lia.
Qed.

(** X4.  A derived key of 16 octets leaves nothing for the tag: the tag is
    then the hash of the ciphertext alone, and a [crypto] block that stores
    that hash is opened by [DecryptKeyV3] for every passphrase whose
    derivation gives 16 octets, the whole derived key serving as the
    cipher key. *)
Theorem X4_short_derived_key {host : Host}
    (cipher kdf dklen n p r : value) (ct iv salt dk : bytes)
    (passwd : string) (w : World) :
  let c :=
    crypto_object cipher (Hex.encode ct) (Hex.encode iv) kdf dklen n p r
      (Hex.encode salt) (JStr (Hex.encode (sha3 ct))) in
  loose_neq cipher "aes-128-ctr" = Return false ->
  loose_neq kdf "scrypt" = Return false ->
  scrypt_hashSync passwd n r p dklen salt = Return dk ->
  length dk = 16 ->
  length iv = 16 ->
  tag dk ct = sha3 ct /\
  fst (DecryptKeyV3 c passwd w) = Return (Hex.encode (ctr dk iv ct)).
Proof.
  intros c Hc Hk Hdk Ldk Liv.
  assert (M : mac_subkey dk = []).
  { unfold mac_subkey, Buf.slice. apply skipn_all2.
    rewrite length_firstn. lia. }
  assert (K : encryption_subkey dk = dk).
  { unfold encryption_subkey, Buf.slice. cbn [skipn].
    apply firstn_all2. lia. }
  assert (T : tag dk ct = sha3 ct) by (unfold tag; now rewrite M).
  split; [exact T|].
  unfold c. rewrite DecryptKeyV3_checked with (dk := dk) by assumption.
  rewrite T, loose_neq_strings, String.eqb_refl. cbn [negb].
  rewrite K, Ldk, Liv. reflexivity.
Qed.

Section MoreRuns.

Context {host : Host}.

(** [EncryptKey] step by step, once the derivation has returned at least
    the 16 octets of a cipher key. *)
Lemma EncryptKey_run_long (key : KeyPair) (passwd : string) (w : World)
    (dk : bytes) :
  default_derivation passwd (salt_of w) = Return dk ->
  16 <= length dk ->
  EncryptKey key passwd w =
    (Return (sealed key (salt_of w) (iv_of w) dk),
     mkWorld (entropy w) (cursor w + 32 + 16)
       (trace w ++ sealing_calls key passwd (salt_of w) (iv_of w) dk)).
Proof.
  unfold default_derivation. intros Hdk Hlen.
  unfold EncryptKey, bind, randomBytes, scrypt_call, bind, lift.
  rewrite draw_run, emit_run. cbn [log trace cursor entropy].
  fold (salt_of w). rewrite Hdk.
  rewrite draw_run. unfold createCipheriv, bind. rewrite emit_run.
  unfold peek, drawn, log. cbn [trace cursor entropy].
  fold (iv_of w). fold (encryption_subkey dk).
  rewrite encryption_subkey_length by assumption.
  rewrite iv_of_length. cbn [Nat.eqb negb].
  unfold ret, cipher_update, cipher_final, sha3_call, bind, emit, ret, lift.
  cbn [trace cursor entropy cipher_key cipher_iv cipher_pos].
  rewrite string_app_empty, Buffer_hex_encode.
  unfold sealed, keystore_object, crypto_object, tag, ctr, sealing_calls,
    encryption_subkey, mac_subkey, Buf.concat.
  cbn [List.concat]. rewrite app_nil_r.
  repeat rewrite <- app_assoc. cbn [app].
  reflexivity.
Qed.

(** [EncryptKey] up to the cipher, with a derived key too short for
    it. *)
Lemma EncryptKey_run_short (key : KeyPair) (passwd : string) (w : World)
    (dk : bytes) :
  default_derivation passwd (salt_of w) = Return dk ->
  length dk < 16 ->
  EncryptKey key passwd w =
    (Throw (ThrownError Error "Invalid key length"),
     mkWorld (entropy w) (cursor w + 32 + 16)
       (trace w ++
        [ CallRandomBytes 32; default_call passwd (salt_of w);
          CallRandomBytes 16;
          CallCreateCipheriv (encryption_subkey dk) (iv_of w) ])).
Proof.
  unfold default_derivation. intros Hdk Hlen.
  unfold EncryptKey, bind, randomBytes, scrypt_call, bind, lift.
  rewrite draw_run, emit_run. cbn [log trace cursor entropy].
  fold (salt_of w). rewrite Hdk.
  rewrite draw_run. unfold createCipheriv, bind. rewrite emit_run.
  unfold peek, drawn, log. cbn [trace cursor entropy].
  fold (iv_of w). fold (encryption_subkey dk).
  assert (L : Nat.eqb (length (encryption_subkey dk)) 16 = false).
  { apply Nat.eqb_neq. unfold encryption_subkey, Buf.slice. cbn [skipn].
    rewrite length_firstn. lia. }
  rewrite L. cbn [negb]. unfold throw, default_call.
  repeat rewrite <- app_assoc. cbn [app]. reflexivity.
Qed.

Lemma EncryptKey_run_failed (key : KeyPair) (passwd : string) (w : World)
    (e : Exn) :
  default_derivation passwd (salt_of w) = Throw e ->
  EncryptKey key passwd w =
    (Throw e, log [default_call passwd (salt_of w)] (drawn 32 w)).
Proof.
  unfold default_derivation. intro Hdk.
  unfold EncryptKey, bind, randomBytes, scrypt_call, bind, lift.
  rewrite draw_run, emit_run. cbn [log trace cursor entropy].
  fold (salt_of w). rewrite Hdk. reflexivity.
Qed.

Lemma upper_digit_value (c : ascii) :
  Hex.value (upper_digit c) = Hex.value c.
Proof. destruct c as [[] [] [] [] [] [] [] []]; reflexivity. Qed.

Lemma hex_upper_length (s : string) :
  String.length (hex_upper s) = String.length s.
Proof. induction s as [|c s IH]; simpl; [reflexivity | now rewrite IH]. Qed.

(** The decoder reads both cases alike. *)
Lemma hex_upper_decode (s : string) :
  Hex.decode (hex_upper s) = Hex.decode s.
Proof.
  cut (Hex.decode (hex_upper s) = Hex.decode s /\
       forall a, Hex.decode (hex_upper (String a s))
                 = Hex.decode (String a s)); [now intros [E _]|].
  induction s as [|b s [IH1 IH2]]; [split; reflexivity|].
  split; [apply IH2|].
  intro a. cbn [hex_upper Hex.decode]. rewrite !upper_digit_value.
  destruct (Hex.value a); [|reflexivity].
  destruct (Hex.value b); [|reflexivity].
  now rewrite IH1.
Qed.

Lemma Buffer_hex_upper (b : bytes) :
  Buffer_hex (JStr (hex_upper (Hex.encode b))) = Return b.
Proof.
  unfold Buffer_hex. rewrite hex_upper_length, hex_encode_length.
  replace (Nat.even (2 * length b)) with true.
  - now rewrite hex_upper_decode, hex_decode_encode.
  - symmetry. apply Nat.even_spec. now exists (length b).
Qed.

(** A value that can be compared with a string can be printed. *)
Lemma loose_eq_ToString (v : value) (s : string) (b : bool) :
  loose_eq v s = Return b -> exists name, ToString v = Return name.
Proof.
  unfold loose_eq.
  destruct v as [| |x|n|t|l|ps]; intro E;
    try (eexists; reflexivity);
    (destruct (ToString _) as [name|e]; [now exists name | discriminate]).
Qed.

End MoreRuns.

(** X5.  A record without a [crypto] block makes [DecryptKey] fail with a
    TypeError before any library call.  A [crypto] block without
    [cipherparams] makes [DecryptKeyV3] fail with a TypeError as well, but
    only after the derivation has been run: the block is not looked at as
    a whole before the passphrase is stretched. *)
Theorem X5_missing_blocks {host : Host}
    (text passwd : string) (keyJson : value) (w : World) :
  JSON_parse text = Return keyJson ->
  (forall version,
      Get keyJson "version" = Return version ->
      ToBoolean version = true ->
      loose_eq version "3" = Return true ->
      Get keyJson "crypto" = Return JUndefined ->
      DecryptKey (JStr text) passwd w
        = (Throw (ThrownError TypeError
                    "Cannot read property 'cipher' of undefined"), w)) /\
  (forall c cipher kdf call dk,
      Get c "cipher" = Return cipher ->
      loose_neq cipher "aes-128-ctr" = Return false ->
      Get c "kdf" = Return kdf ->
      loose_neq kdf "scrypt" = Return false ->
      derivation c passwd call (Return dk) ->
      Get c "cipherparams" = Return JUndefined ->
      DecryptKeyV3 c passwd w
        = (Throw (ThrownError TypeError
                    "Cannot read property 'iv' of undefined"),
           log [call] w)).
Proof.
  intro Hparse. split.
  - intros version Hv Ht H3 Hc.
    erewrite DecryptKey_text by exact Hparse.
    rewrite Hv, Ht, H3, Hc. reflexivity.
  - intros c cipher kdf call dk Hci Hok Hk Hkok D Hcp.
    destruct D as (sh & s & n & r & p & l & G1 & B & G2 & G3 & G4 & G5
                   & -> & Edk).
    destruct (@Get2_inv _ c "kdfparams" "salt" sh G1) as (kp & Gkp & Gs).
    rewrite (@Get2_eq _ c "kdfparams" "n" kp Gkp) in G2.
    rewrite (@Get2_eq _ c "kdfparams" "r" kp Gkp) in G3.
    rewrite (@Get2_eq _ c "kdfparams" "p" kp Gkp) in G4.
    rewrite (@Get2_eq _ c "kdfparams" "dklen" kp Gkp) in G5.
    pose proof (@Get_total _ c "cipher" "mac" cipher Hci) as Gm.
    unfold DecryptKeyV3, get, bind, lift.
    rewrite Hci, Hok, Hk, Hkok, Gkp, Gs, B, G2, G3, G4, G5.
    unfold scrypt_call, bind, emit, lift. rewrite <- Edk.
    cbn [trace cursor entropy]. rewrite Gm, Hcp.
    reflexivity.
Qed.

(** X6.  [EncryptKey] has three outcomes, decided by the derivation alone:
    when the derivation throws, [EncryptKey] throws the same, having drawn
    the salt and nothing else; when it returns fewer than 16 octets, the
    cipher refuses the key, after the iv has been drawn; otherwise
    [EncryptKey] returns the sealed record.  The key pair and the
    passphrase are not examined: an empty passphrase and a private key of
    any length are sealed like any other. *)
Theorem X6_encrypt_outcomes {host : Host}
    (key : KeyPair) (passwd : string) (w : World) :
  let salt := salt_of w in
  let iv := iv_of w in
  match default_derivation passwd salt with
  | Throw e =>
      EncryptKey key passwd w
        = (Throw e, log [default_call passwd salt] (drawn 32 w))
  | Return dk =>
      if Nat.ltb (length dk) 16 then
        EncryptKey key passwd w
          = (Throw (ThrownError Error "Invalid key length"),
             mkWorld (entropy w) (cursor w + 32 + 16)
               (trace w ++
                [ CallRandomBytes 32; default_call passwd salt;
                  CallRandomBytes 16;
                  CallCreateCipheriv (encryption_subkey dk) iv ]))
      else
        EncryptKey key passwd w
          = (Return (sealed key salt iv dk),
             mkWorld (entropy w) (cursor w + 32 + 16)
               (trace w ++ sealing_calls key passwd salt iv dk))
  end.
Proof.
  cbv zeta.
  destruct (default_derivation passwd (salt_of w)) as [dk|e] eqn:Hdk.
  - destruct (Nat.ltb_spec (length dk) 16) as [L|L].
    + now apply EncryptKey_run_short.
    + now apply EncryptKey_run_long.
  - now apply EncryptKey_run_failed.
Qed.

(** X7.  The case of the hexadecimal digits matters for the tag only.  A
    record whose salt, iv and ciphertext are written in upper case opens
    like the lower-case one; a record whose [mac] is written in upper
    case, and holds a letter, fails with [AuthenticationFailed] under the
    right passphrase, the stored text being compared as a string with the
    lower-case text of the recomputed tag. *)
Theorem X7_upper_case_text {host : Host}
    (address dklen n p r : value) (secret salt iv dk : bytes)
    (passwd : string) (w : World) :
  let ct := ctr (encryption_subkey dk) iv secret in
  let mac := Hex.encode (tag dk ct) in
  let upper_data :=
    foreign_record address dklen n p r (hex_upper (Hex.encode salt))
      (hex_upper (Hex.encode iv)) (hex_upper (Hex.encode ct)) mac in
  let upper_mac :=
    foreign_record address dklen n p r (Hex.encode salt) (Hex.encode iv)
      (Hex.encode ct) (hex_upper mac) in
  three_ok ->
  scrypt_hashSync passwd n r p dklen salt = Return dk ->
  16 <= length dk ->
  length iv = 16 ->
  (reads_back upper_data ->
   fst (DecryptKey (JStr (JSON_stringify upper_data)) passwd w)
     = Return (Hex.encode secret)) /\
  (reads_back upper_mac ->
   hex_upper mac <> mac ->
   fst (DecryptKey (JStr (JSON_stringify upper_mac)) passwd w)
     = Throw AuthenticationFailed).
Proof.
  intros ct mac upper_data upper_mac H3 Hdk Ldk Liv. split.
  - intro Hjson. unfold upper_data in *.
    rewrite DecryptKey_foreign
      with (salt := salt) (iv := iv) (ct := ct) (dk := dk);
      try assumption; try apply Buffer_hex_upper.
    unfold mac. rewrite String.eqb_refl. cbn [fst].
    unfold ct. now rewrite ctr_cancel.
  - intros Hjson Hne. unfold upper_mac in *.
    rewrite DecryptKey_foreign
      with (salt := salt) (iv := iv) (ct := ct) (dk := dk);
      try assumption; try apply Buffer_hex_encode.
    apply String.eqb_neq in Hne. fold mac. now rewrite Hne.
Qed.

(** X8.  [DecryptKey] derives the key with the cost parameters the record
    holds, not with the constants of key.js, and does not look at the
    [address]: a version 3 record with any address, any [dklen], [n], [r]
    and [p] and a secret of any length opens under the passphrase whose
    derivation, with those parameters, gives the key it was sealed under,
    provided that key has the 16 octets the cipher needs. *)
Theorem X8_foreign_record {host : Host}
    (address dklen n p r : value) (secret salt iv dk : bytes)
    (passwd : string) (w : World) :
  let ct := ctr (encryption_subkey dk) iv secret in
  let record :=
    foreign_record address dklen n p r (Hex.encode salt) (Hex.encode iv)
      (Hex.encode ct) (Hex.encode (tag dk ct)) in
  three_ok ->
  reads_back record ->
  scrypt_hashSync passwd n r p dklen salt = Return dk ->
  16 <= length dk ->
  length iv = 16 ->
  DecryptKey (JStr (JSON_stringify record)) passwd w
    = (Return (Hex.encode secret),
       log (opening_calls passwd n r p dklen salt iv ct dk) w).
Proof.
  intros ct record H3 Hjson Hdk Ldk Liv. unfold record in *.
  rewrite DecryptKey_foreign
    with (salt := salt) (iv := iv) (ct := ct) (dk := dk);
    try assumption; try apply Buffer_hex_encode.
  rewrite String.eqb_refl. unfold ct. now rewrite ctr_cancel.
Qed.

(* ================================================================== *)
(** * Properties of [getKDFKey] *)

(** X9.  [getKDFKey] cannot read the records of [EncryptKey]: it looks for
    the properties [KDFParams] and [KDF], the record and its [crypto] block
    hold [kdfparams] and [kdf], so on either of them it fails with a
    TypeError at its first read, without calling [scrypt]. *)
Theorem X9_getKDFKey_own_records {host : Host} (R : Type)
    (scrypt_module :
       value -> value -> value -> value -> value -> value -> JS R)
    (key : KeyPair) (passwd : string) (auth : value) (w w2 : World) :
  scrypt_default_ok ->
  exists record crypto w',
    EncryptKey key passwd w = (Return record, w') /\
    Get record "crypto" = Return crypto /\
    Get crypto "kdf" = Return (JStr "scrypt") /\
    getKDFKey scrypt_module crypto auth w2
      = (Throw (ThrownError TypeError
                  "Cannot read property 'salt' of undefined"), w2) /\
    getKDFKey scrypt_module record auth w2
      = (Throw (ThrownError TypeError
                  "Cannot read property 'salt' of undefined"), w2).
Proof.
  intro Hs.
  destruct (EncryptKey_returns key passwd w Hs) as (dk & _ & _ & Run).
  do 3 eexists. split; [exact Run|].
  split; [reflexivity|]. split; [reflexivity|]. split; reflexivity.
Qed.

(** X10.  For a KDF other than scrypt [getKDFKey] does not throw: it
    returns the string "Unsupported KDF: " followed by the name, where a
    key is expected, and leaves [scrypt] uncalled.  The parameters are
    read first, so this holds for a block that has a [KDFParams]. *)
Theorem X10_getKDFKey_message {host : Host} (R : Type)
    (scrypt_module :
       value -> value -> value -> value -> value -> value -> JS R)
    (cryptoJSON auth params KDF : value) (w : World) :
  Get cryptoJSON "KDFParams" = Return params ->
  params <> JUndefined ->
  params <> JNull ->
  Get cryptoJSON "KDF" = Return KDF ->
  loose_eq KDF "scrypt" = Return false ->
  exists name,
    ToString KDF = Return name /\
    getKDFKey scrypt_module cryptoJSON auth w
      = (Return (Message ("Unsupported KDF: " ++ name)), w).
Proof.
  intros Hp N1 N2 Hk Hne.
  destruct (loose_eq_ToString _ _ Hne) as [name Hname].
  exists name. split; [exact Hname|].
  assert (G : forall k, exists x, Get params k = Return x).
  { intro k. destruct params; try contradiction; eexists; reflexivity. }
  unfold getKDFKey, get, bind, lift, ret.
  rewrite Hp.
  destruct (G "salt") as [x1 ->]. destruct (G "dklen") as [x2 ->].
  destruct (G "n") as [x3 ->]. destruct (G "r") as [x4 ->].
  destruct (G "p") as [x5 ->].
  rewrite Hk, Hne. unfold string_plus. now rewrite Hname.
Qed.

(* ================================================================== *)
(** * Properties of [SolidityFunction] *)

Section FunctionFacts.

Context {host : Host} {modules : Modules}.

Local Open Scope outcome_scope.

Lemma lookup_set_same (k : string) (v : value) (ps : list (string * value)) :
  lookup k (set_property k v ps) = v.
Proof.
  induction ps as [|[k' x] ps IH]; cbn [set_property lookup].
  - now rewrite String.eqb_refl.
  - destruct (String.eqb k' k) eqn:E; cbn [lookup]; now rewrite E.
Qed.

Lemma lookup_set_other (k k' : string) (v : value)
    (ps : list (string * value)) :
  k <> k' -> lookup k' (set_property k v ps) = lookup k' ps.
Proof.
  intro N. induction ps as [|[k0 x] ps IH]; cbn [set_property lookup].
  - apply String.eqb_neq in N. now rewrite N.
  - destruct (String.eqb k0 k) eqn:E; cbn [lookup].
    + apply String.eqb_eq in E. subst k0.
      apply String.eqb_neq in N. now rewrite N.
    + now rewrite IH.
Qed.

Lemma Get_Put_same (ps : list (string * value)) (k : string) (v : value) :
  Get (Put (JObj ps) k v) k = Return v.
Proof. unfold Put, Get. now rewrite lookup_set_same. Qed.

Lemma Get_Put_other (ps : list (string * value)) (k k' : string)
    (v : value) :
  k <> k' -> Get (Put (JObj ps) k v) k' = Get (JObj ps) k'.
Proof. intro N. unfold Put, Get. now rewrite lookup_set_other. Qed.

Lemma Put_object (ps : list (string * value)) (k : string) (v : value) :
  exists ps', Put (JObj ps) k v = JObj ps'.
Proof. eexists. reflexivity. Qed.

Lemma filter_defined (l : list value) :
  forallb defined l = true -> filter defined l = l.
Proof.
  induction l as [|x l IH]; [reflexivity|].
  cbn [forallb filter]. intro E. apply andb_prop in E. destruct E as [E1 E2].
  now rewrite E1, IH.
Qed.

(** The last of the arguments, and the arguments without it. *)
Lemma pop_last (args : list value) (x : value) :
  pop (args ++ [x]) = (x, args).
Proof. unfold pop. now rewrite last_last, removelast_last. Qed.

Lemma last_arg_last (args : list value) (x : value) :
  last_arg (args ++ [x]) = x.
Proof. unfold last_arg. apply last_last. Qed.

Lemma pop_nonempty (args : list value) :
  args <> [] -> args = snd (pop args) ++ [fst (pop args)].
Proof. intro N. unfold pop. cbn [fst snd]. now apply app_removelast_last. Qed.

(** [toPayload] takes the private key and the options off the arguments
    and goes on as [payload_of]. *)
Lemma toPayload_split (this : SolidityFunction) (timestamp nonce : value)
    (args : list value) :
  toPayload this timestamp nonce args =
    ' (privkey, args) <-
      (if Nat.ltb (length (_inputTypes this)) (length args)
          && isString (last_arg args)
       then let (text, args') := pop args in
            b <- Buffer_hex text ;;
            Return (KeyBuffer b, args')
       else Return (KeyString EmptyString, args)) ;;
    let (options, args) :=
      if Nat.ltb (length (_inputTypes this)) (length args)
         && isObject (last_arg args)
      then pop args
      else (JObj [], args) in
    payload_of this timestamp nonce privkey options args.
Proof. reflexivity. Qed.

(** [toPayload] on arguments whose last is not taken for a key. *)
Lemma toPayload_no_key (this : SolidityFunction) (timestamp nonce : value)
    (args : list value) :
  Nat.ltb (length (_inputTypes this)) (length args)
    && isString (last_arg args) = false ->
  toPayload this timestamp nonce args =
    let (options, args) :=
      if Nat.ltb (length (_inputTypes this)) (length args)
         && isObject (last_arg args)
      then pop args
      else (JObj [], args) in
    payload_of this timestamp nonce (KeyString EmptyString) options args.
Proof. intro C. rewrite toPayload_split, C. reflexivity. Qed.

(** Without more arguments than inputs there is no key and there are no
    options. *)
Lemma toPayload_bare (this : SolidityFunction) (timestamp nonce : value)
    (args : list value) :
  length args <= length (_inputTypes this) ->
  toPayload this timestamp nonce args
    = Throw (ThrownError TypeError
               "Cannot read property 'slice' of undefined").
Proof.
  intro L. rewrite toPayload_split.
  assert (C : Nat.ltb (length (_inputTypes this)) (length args) = false)
    by (apply Nat.ltb_ge; exact L).
  rewrite C. cbn [andb and_then]. rewrite C. reflexivity.
Qed.

Lemma longer (n : nat) (params rest : list value) :
  n <= length params -> rest <> [] ->
  Nat.ltb n (length (params ++ rest)) = true.
Proof.
  intros L N. apply Nat.ltb_lt. rewrite length_app.
  destruct rest; [contradiction | simpl; lia].
Qed.

Lemma starts_0x (s : string) : substring 0 2 ("0x" ++ s) = "0x".
Proof. destruct s; reflexivity. Qed.

(** What a returned [payload_of] went through. *)
Lemma payload_of_returned (this : SolidityFunction) (timestamp nonce : value)
    (privkey : PrivKey) (options : value) (args : list value) (r : value) :
  payload_of this timestamp nonce privkey options args = Return r ->
  exists ps from sender encoded text hash digest,
    options = JObj ps /\
    Get options "from" = Return from /\
    prefixed from = Return (JStr sender) /\
    substring 0 2 sender = "0x" /\
    encodeParams (_inputTypes this) args = Return encoded /\
    ToString encoded = Return text /\
    let signed :=
      stamped this timestamp nonce options (JStr sender)
        ("0x" ++ signature this ++ text) in
    generateHash signed = Return hash /\
    ToString hash = Return digest /\
    sign signed ("0x" ++ digest) privkey = Return r.
Proof.
  unfold payload_of, and_then, string_plus.
  destruct (Get options "from") as [from|e] eqn:G; [|discriminate].
  destruct (prefixed from) as [from'|e] eqn:P; [|discriminate].
  destruct (encodeParams (_inputTypes this) args) as [encoded|e] eqn:E;
    [|discriminate].
  destruct (ToString encoded) as [text|e] eqn:T; [|discriminate].
  destruct (generateHash _) as [hash|e] eqn:H; [|discriminate].
  destruct (ToString hash) as [digest|e] eqn:D; [|discriminate].
  intro S.
  assert (O : exists ps, options = JObj ps).
  { destruct options as [| |x|n|s|l|qs];
      try (unfold Get in G; discriminate);
      try (unfold Get in G; injection G as <-; discriminate).
    now exists qs. }
  destruct O as [ps ->].
  assert (F : exists sender,
             from' = JStr sender /\ substring 0 2 sender = "0x").
  { unfold prefixed, and_then, string_plus in P.
    destruct from as [| |x|n|s|l|qs]; try discriminate.
    - destruct (String.eqb (substring 0 2 s) "0x") eqn:C;
        injection P as <-; eexists; (split; [reflexivity|]).
      + now apply String.eqb_eq.
      + apply starts_0x.
    - destruct (ToString (JArr l)) as [t|e]; [|discriminate].
      injection P as <-. eexists. split; [reflexivity | apply starts_0x]. }
  destruct F as (sender & -> & Hx).
  exists ps, from, sender, encoded, text, hash, digest.
  cbv zeta. repeat split; assumption.
Qed.

(** What a returned [toPayload] took off its arguments. *)
Lemma toPayload_returned (this : SolidityFunction) (timestamp nonce : value)
    (args : list value) (r : value) :
  toPayload this timestamp nonce args = Return r ->
  exists privkey options kept taken,
    args = kept ++ taken /\
    length taken <= 2 /\
    (options = JObj [] \/ In options taken /\ isObject options = true) /\
    (Nat.ltb (length (_inputTypes this)) (length args)
       && isString (last_arg args) = false /\
     privkey = KeyString EmptyString \/
     exists b, Nat.ltb (length (_inputTypes this)) (length args)
                 && isString (last_arg args) = true /\
               Buffer_hex (last_arg args) = Return b /\
               privkey = KeyBuffer b) /\
    payload_of this timestamp nonce privkey options kept = Return r.
Proof.
  rewrite toPayload_split.
  set (n := length (_inputTypes this)).
  assert (step : forall (privkey : PrivKey) (rest : list value),
             (let (options, args) :=
                if Nat.ltb n (length rest) && isObject (last_arg rest)
                then pop rest else (JObj [], rest) in
              payload_of this timestamp nonce privkey options args)
             = Return r ->
             exists options kept taken,
               rest = kept ++ taken /\ length taken <= 1 /\
               (options = JObj [] \/
                In options taken /\ isObject options = true) /\
               payload_of this timestamp nonce privkey options kept
               = Return r).
  { intros privkey rest P.
    destruct (Nat.ltb n (length rest) && isObject (last_arg rest)) eqn:C.
    - apply andb_prop in C. destruct C as [C Ho]. apply Nat.ltb_lt in C.
      assert (N : rest <> []) by (intros ->; simpl in C; lia).
      exists (last_arg rest), (removelast rest), [last_arg rest].
      split; [now apply app_removelast_last|]. split; [simpl; lia|].
      split; [right; split; [now left | exact Ho] | exact P].
    - exists (JObj []), rest, [].
      split; [now rewrite app_nil_r|]. split; [simpl; lia|].
      split; [now left | exact P]. }
  destruct (Nat.ltb n (length args) && isString (last_arg args)) eqn:C.
  - apply andb_prop in C. destruct C as [C Sk]. apply Nat.ltb_lt in C.
    assert (N : args <> []) by (intros ->; simpl in C; lia).
    unfold pop at 1. fold (last_arg args).
    destruct (Buffer_hex (last_arg args)) as [b|e] eqn:B;
      cbn [and_then]; [|discriminate].
    intro P. destruct (step _ _ P) as (options & kept & taken & E & L & O & Q).
    exists (KeyBuffer b), options, kept, (taken ++ [last_arg args]).
    split.
    { rewrite app_assoc, <- E. now apply app_removelast_last. }
    split; [rewrite length_app; simpl; lia|].
    split.
    { destruct O as [O | [O1 O2]]; [now left | right].
      split; [apply in_or_app; now left | exact O2]. }
    split; [right; exists b; split; [reflexivity | now split] | exact Q].
  - cbn [and_then]. intro P.
    destruct (step _ _ P) as (options & kept & taken & E & L & O & Q).
    exists (KeyString EmptyString), options, kept, taken.
    split; [exact E|]. split; [lia|]. split; [exact O|].
    split; [left; now split | exact Q].
Qed.

End FunctionFacts.

(** X11.  [unpackOutput] returns [undefined] for an empty output without
    asking the decoder, passes an output of one character on as it is,
    and drops the first two characters of a longer one whatever they
    are: two outputs that differ only there are unpacked alike, and an
    output without the "0x" in front loses its first two digits. *)
Theorem X11_unpackOutput_prefix {host : Host} {modules : Modules}
    (this : SolidityFunction) :
  let decoded text :=
    and_then (decodeParams (_outputTypes this) (JStr text))
      (fun result => match result with
                     | [single] => Return single
                     | _ => Return (JArr result)
                     end) in
  unpackOutput this (JStr EmptyString) = Return JUndefined /\
  unpackOutput this JUndefined = Return JUndefined /\
  unpackOutput this JNull = Return JUndefined /\
  (forall c,
      unpackOutput this (JStr (String c EmptyString))
        = decoded (String c EmptyString)) /\
  (forall a b rest,
      unpackOutput this (JStr (String a (String b rest))) = decoded rest) /\
  (forall a b a' b' rest,
      unpackOutput this (JStr (String a (String b rest)))
        = unpackOutput this (JStr (String a' (String b' rest)))).
Proof.
  cbv zeta. repeat split; intros; reflexivity.
Qed.

(** X12.  [toPayload] expects the private key last and the options before
    it.  In that order the key, read as hexadecimal text, is what the
    signer is given and the parameters alone are encoded.  In the other
    order no key is found: the signer is given the empty string, and the
    text of the key stays among the parameters that are encoded into the
    payload. *)
Theorem X12_key_after_options {host : Host} {modules : Modules}
    (this : SolidityFunction) (timestamp nonce : value)
    (params : list value) (options : value) (key : string) :
  length (_inputTypes this) <= length params ->
  isString (JStr key) = true ->
  isObject options = true ->
  isString options = false ->
  toPayload this timestamp nonce (params ++ [options; JStr key])
    = and_then (Buffer_hex (JStr key))
        (fun b => payload_of this timestamp nonce (KeyBuffer b) options
                    params) /\
  toPayload this timestamp nonce (params ++ [JStr key; options])
    = payload_of this timestamp nonce (KeyString EmptyString) options
        (params ++ [JStr key]).
Proof.
  intros L Sk Oo So. split.
  - rewrite toPayload_split.
    rewrite longer by (assumption || discriminate).
    change (params ++ [options; JStr key])
      with (params ++ [options] ++ [JStr key]).
    rewrite app_assoc, last_arg_last, Sk, pop_last. cbn [andb].
    unfold and_then at 1 2.
    destruct (Buffer_hex (JStr key)) as [b|e]; [|reflexivity].
    cbn beta iota.
    rewrite longer by (assumption || discriminate).
    now rewrite last_arg_last, Oo, pop_last.
  - rewrite toPayload_no_key.
    + rewrite longer by (assumption || discriminate).
      change (params ++ [JStr key; options])
        with (params ++ [JStr key] ++ [options]).
      now rewrite app_assoc, last_arg_last, Oo, pop_last.
    + change (params ++ [JStr key; options])
        with (params ++ [JStr key] ++ [options]).
      rewrite app_assoc, last_arg_last, So. apply andb_false_r.
Qed.

(** X13.  [toPayload] needs an options object with a [from]: given no
    more arguments than the function has inputs, or an options object
    without [from] after the parameters, it throws a TypeError, before
    anything is encoded or signed. *)
Theorem X13_options_required {host : Host} {modules : Modules}
    (this : SolidityFunction) (timestamp nonce : value) :
  (forall args,
      length args <= length (_inputTypes this) ->
      toPayload this timestamp nonce args
        = Throw (ThrownError TypeError
                   "Cannot read property 'slice' of undefined")) /\
  (forall params options,
      length (_inputTypes this) <= length params ->
      isString options = false ->
      isObject options = true ->
      Get options "from" = Return JUndefined ->
      toPayload this timestamp nonce (params ++ [options])
        = Throw (ThrownError TypeError
                   "Cannot read property 'slice' of undefined")).
Proof.
  split.
  - intros args L. now apply toPayload_bare.
  - intros params options L So Oo G.
    rewrite toPayload_no_key.
    + rewrite longer by (assumption || discriminate).
      rewrite last_arg_last, Oo, pop_last. cbn [andb].
      unfold payload_of. rewrite G. reflexivity.
    + rewrite last_arg_last, So. apply andb_false_r.
Qed.

(** X14.  [toPayload] never takes a declared input for a key or for
    options: it throws while reading the key, or it goes on with the
    arguments less at most their last two, keeping as many as the function
    has inputs whenever it was given that many; those kept are the ones
    it encodes. *)
Theorem X14_declared_inputs_kept {host : Host} {modules : Modules}
    (this : SolidityFunction) (timestamp nonce : value)
    (args : list value) :
  (exists e,
      Buffer_hex (last_arg args) = Throw e /\
      toPayload this timestamp nonce args = Throw e) \/
  (exists privkey options kept taken,
      args = kept ++ taken /\
      length taken <= 2 /\
      Nat.min (length (_inputTypes this)) (length args) <= length kept /\
      toPayload this timestamp nonce args
        = payload_of this timestamp nonce privkey options kept).
Proof.
  rewrite toPayload_split.
  set (n := length (_inputTypes this)).
  assert (step : forall (privkey : PrivKey) (rest taken : list value),
             args = rest ++ taken -> length taken <= 1 ->
             Nat.min n (length args) <= length rest ->
             exists options kept taken',
               args = kept ++ taken' /\ length taken' <= 2 /\
               Nat.min n (length args) <= length kept /\
               (let (options, args) :=
                  if Nat.ltb n (length rest) && isObject (last_arg rest)
                  then pop rest else (JObj [], rest) in
                payload_of this timestamp nonce privkey options args)
               = payload_of this timestamp nonce privkey options kept).
  { intros privkey rest taken E Lt Lr.
    destruct (Nat.ltb n (length rest) && isObject (last_arg rest)) eqn:C.
    - apply andb_prop in C. destruct C as [C _]. apply Nat.ltb_lt in C.
      assert (N : rest <> []) by (intros ->; simpl in C; lia).
      pose proof (pop_nonempty N) as P.
      destruct (pop rest) as [options kept] eqn:Epop. cbn [fst snd] in P.
      exists options, kept, ([options] ++ taken).
      rewrite app_assoc, <- P.
      split; [exact E|]. split; [rewrite length_app; simpl; lia|].
      split; [|reflexivity].
      rewrite P, length_app in C. simpl in C. lia.
    - exists (JObj []), rest, taken.
      split; [exact E|]. split; [lia|]. split; [exact Lr | reflexivity]. }
  destruct (Nat.ltb n (length args) && isString (last_arg args)) eqn:C.
  - apply andb_prop in C. destruct C as [C _]. apply Nat.ltb_lt in C.
    assert (N : args <> []) by (intros ->; simpl in C; lia).
    pose proof (pop_nonempty N) as P.
    destruct (pop args) as [text rest] eqn:Epop. cbn [fst snd] in P.
    assert (T : text = last_arg args).
    { unfold pop in Epop. now injection Epop as <- _. }
    rewrite <- T.
    destruct (Buffer_hex text) as [b|e]; cbn [and_then].
    + right.
      destruct (step (KeyBuffer b) rest [text] P) as
        (options & kept & taken & E & L1 & L2 & R).
      * simpl. lia.
      * rewrite P, length_app in C |- *. simpl in C |- *. lia.
      * exists (KeyBuffer b), options, kept, taken. now rewrite R.
    + left. now exists e.
  - right. cbn [and_then].
    destruct (step (KeyString EmptyString) args [] (eq_sym (app_nil_r args)))
      as (options & kept & taken & E & L1 & L2 & R).
    + simpl. lia.
    + lia.
    + exists (KeyString EmptyString), options, kept, taken. now rewrite R.
Qed.

(** X16.  Whenever [toPayload] returns, one of the last two arguments was
    an options object with a [from], the arguments before the ones taken
    off were encoded, and what is returned is what the signer made of the
    options object with five properties set: [from], the caller's [from]
    with "0x" put in front unless it starts with it; [to], the address of
    the contract; [payload], the text "0x" followed by the first eight
    characters of the hash of the function name and by the encoding of
    the arguments kept; [timestamp] and [nonce] as read.  A [to],
    [payload], [timestamp] or [nonce] of the caller is overwritten; every
    other property is passed on as it was.  The signer is given that
    object, "0x" followed by its hash, and the key. *)
Theorem X16_signed_fields {host : Host} {modules : Modules}
    (this : SolidityFunction) (timestamp nonce : value)
    (args : list value) (r : value) :
  toPayload this timestamp nonce args = Return r ->
  exists privkey options kept taken from sender encoded text signed hash
         digest,
    args = kept ++ taken /\
    length taken <= 2 /\
    In options taken /\
    isObject options = true /\
    (Nat.ltb (length (_inputTypes this)) (length args)
       && isString (last_arg args) = false /\
     privkey = KeyString EmptyString \/
     exists b, Nat.ltb (length (_inputTypes this)) (length args)
                 && isString (last_arg args) = true /\
               Buffer_hex (last_arg args) = Return b /\
               privkey = KeyBuffer b) /\
    Get options "from" = Return from /\
    prefixed from = Return (JStr sender) /\
    substring 0 2 sender = "0x" /\
    (forall s, from = JStr s ->
       sender = if String.eqb (substring 0 2 s) "0x" then s
                else ("0x" ++ s)%string) /\
    encodeParams (_inputTypes this) kept = Return encoded /\
    ToString encoded = Return text /\
    Get signed "from" = Return (JStr sender) /\
    Get signed "to" = Return (_address this) /\
    Get signed "payload"
      = Return (JStr ("0x" ++ substring 0 8 (sha3_text (_name this))
                        ++ text)) /\
    Get signed "timestamp" = Return timestamp /\
    Get signed "nonce" = Return nonce /\
    (forall k,
       ~ In k ["from"; "to"; "payload"; "timestamp"; "nonce"] ->
       Get signed k = Get options k) /\
    generateHash signed = Return hash /\
    ToString hash = Return digest /\
    sign signed ("0x" ++ digest) privkey = Return r.
Proof.
  intro R.
  destruct (toPayload_returned _ _ _ _ R)
    as (privkey & options & kept & taken & E & L & Origin & K & P).
  destruct (payload_of_returned _ _ _ _ _ _ P)
    as (ps & from & sender & encoded & text & hash & digest
        & -> & G & Pf & Hx & Enc & T & Hh & D & S).
  destruct Origin as [Empty | [Hin Ho]].
  { injection Empty as ->. unfold Get in G. cbn in G.
    injection G as <-. discriminate Pf. }
  exists privkey, (JObj ps), kept, taken, from, sender, encoded, text.
  exists (stamped this timestamp nonce (JObj ps) (JStr sender)
            ("0x" ++ signature this ++ text)).
  exists hash, digest.
  split; [exact E|]. split; [exact L|]. split; [exact Hin|].
  split; [exact Ho|]. split; [exact K|]. split; [exact G|].
  split; [exact Pf|]. split; [exact Hx|].
  split.
  { intros s ->. unfold prefixed in Pf.
    destruct (String.eqb (substring 0 2 s) "0x");
      now injection Pf as <-. }
  split; [exact Enc|]. split; [exact T|].
  unfold stamped, Put, Get in *.
  split; [now rewrite !lookup_set_other, lookup_set_same by discriminate|].
  split; [now rewrite !lookup_set_other, lookup_set_same by discriminate|].
  split; [now rewrite !lookup_set_other, lookup_set_same by discriminate|].
  split; [now rewrite !lookup_set_other, lookup_set_same by discriminate|].
  split; [now rewrite lookup_set_same|].
  split.
  { intros k N. cbn [In] in N.
    rewrite !lookup_set_other; [reflexivity | | | | |];
      intro Ek; apply N; subst k; auto 10. }
  split; [exact Hh|]. split; [exact D | exact S].
Qed.

(** X15.  [call] cannot be given a private key in the place [toPayload]
    looks for it.  [extractDefaultBlock] runs first and takes a last
    argument that is not an object: a key passed last, after the options,
    is handed to the block-number formatter as the default block, and
    [toPayload] then finds no key, so that the signer is given the empty
    string. *)
Theorem X15_call_takes_the_key_for_a_block {host : Host} {modules : Modules}
    (this : SolidityFunction) (timestamp nonce : value)
    (params : list value) (options : value) (key : string) :
  length (_inputTypes this) <= length params ->
  forallb defined params = true ->
  defined options = true ->
  isFunction (JStr key) = false ->
  isObject (JStr key) = false ->
  isObject options = true ->
  isString options = false ->
  call this timestamp nonce (params ++ [options; JStr key])
    = and_then (inputDefaultBlockNumberFormatter (JStr key)) (fun block =>
      and_then (payload_of this timestamp nonce (KeyString EmptyString)
                  options params) (fun payload =>
      and_then (eth_call payload block) (fun output =>
      and_then (unpackOutput this output) (fun result =>
      Return (Output result))))).
Proof.
  intros L Dp Do Fk Ok Oo So.
  assert (D : filter defined (params ++ [options; JStr key])
              = (params ++ [options]) ++ [JStr key]).
  { rewrite filter_app, (filter_defined _ Dp). cbn [filter defined].
    rewrite Do. now rewrite <- app_assoc. }
  unfold call. rewrite D.
  unfold extractCallback. rewrite last_arg_last, Fk.
  unfold extractDefaultBlock.
  rewrite <- app_assoc.
  rewrite longer by (assumption || discriminate).
  rewrite app_assoc, last_arg_last, Ok, pop_last. cbn [andb negb].
  destruct (inputDefaultBlockNumberFormatter (JStr key)) as [block|e];
    [|reflexivity].
  cbn [and_then].
  rewrite toPayload_no_key.
  - rewrite longer by (assumption || discriminate).
    rewrite last_arg_last, Oo, pop_last. cbn [andb].
    destruct (payload_of _ _ _ _ _ _) as [payload|e]; reflexivity.
  - rewrite last_arg_last, So. apply andb_false_r.
Qed.

(** X17.  [sendTransaction] takes a last argument that is an object for
    the query options, whatever the number of arguments.  Called with the
    parameters and the payload options alone, without a private key, it
    takes the payload options for the query options, [toPayload] is left
    without options and throws a TypeError: nothing is sent. *)
Theorem X17_sendTransaction_needs_the_key {host : Host} {modules : Modules}
    (this : SolidityFunction) (timestamp nonce : value)
    (params : list value) (ps : list (string * value)) :
  length params <= length (_inputTypes this) ->
  forallb defined params = true ->
  isFunction (JObj ps) = false ->
  isObject (JObj ps) = true ->
  sendTransaction this timestamp nonce (params ++ [JObj ps])
    = Throw (ThrownError TypeError
               "Cannot read property 'slice' of undefined").
Proof.
  intros L Dp Fo Oo.
  unfold sendTransaction.
  rewrite filter_app, (filter_defined _ Dp). cbn [filter defined].
  unfold extractCallback. rewrite last_arg_last, Fo.
  rewrite last_arg_last, Oo, pop_last.
  change (Get (JObj ps) "timeout") with (Return (lookup "timeout" ps)).
  change (Get (JObj ps) "interval") with (Return (lookup "interval" ps)).
  cbn [and_then].
  rewrite (toPayload_bare this timestamp nonce params L).
  reflexivity.
Qed.

(** X18.  After the private key [sendTransaction] accepts an object of
    query options and does without: it sends the payload made of the
    arguments before that object and enters [getResult] with a [timeout]
    and an [interval] taken from the object when they are truthy, and with
    8000 and 50 when they are missing or falsy, such as 0, or when there
    is no such object. *)
Theorem X18_query_options {host : Host} {modules : Modules}
    (this : SolidityFunction) (timestamp nonce : value)
    (rest : list value) (qs : list (string * value)) (key : string) :
  let chosen k d :=
    if ToBoolean (lookup k qs) then lookup k qs else jnum d in
  let sent queryOptions :=
    and_then (toPayload this timestamp nonce (rest ++ [JStr key]))
      (fun payload =>
         and_then (eth_invokeContract payload)
           (fun hash => Return (Polls hash queryOptions))) in
  forallb defined rest = true ->
  isFunction (JObj qs) = false ->
  isObject (JObj qs) = true ->
  isFunction (JStr key) = false ->
  isObject (JStr key) = false ->
  sendTransaction this timestamp nonce (rest ++ [JStr key; JObj qs])
    = sent (JObj [ ("timeout", chosen "timeout" 8000%Z);
                   ("interval", chosen "interval" 50%Z) ]) /\
  sendTransaction this timestamp nonce (rest ++ [JStr key])
    = sent (JObj [ ("timeout", jnum 8000); ("interval", jnum 50) ]).
Proof.
  intros chosen sent Dr Fq Oq Fk Ok. subst chosen sent. cbv beta.
  split.
  - unfold sendTransaction.
    rewrite filter_app, (filter_defined _ Dr). cbn [filter defined].
    change (rest ++ [JStr key; JObj qs])
      with (rest ++ [JStr key] ++ [JObj qs]).
    rewrite app_assoc.
    unfold extractCallback. rewrite last_arg_last, Fq.
    rewrite last_arg_last, Oq, pop_last.
    change (Get (JObj qs) "timeout") with (Return (lookup "timeout" qs)).
    change (Get (JObj qs) "interval") with (Return (lookup "interval" qs)).
    cbn [and_then].
    destruct (toPayload _ _ _ _) as [payload|e]; reflexivity.
  - unfold sendTransaction.
    rewrite filter_app, (filter_defined _ Dr). cbn [filter defined].
    unfold extractCallback. rewrite last_arg_last, Fk.
    rewrite last_arg_last, Ok. cbn [and_then].
    destruct (toPayload _ _ _ _) as [payload|e]; reflexivity.
Qed.

(* ================================================================== *)
(** * The engine on the executable host *)

#[local] Existing Instance Sim.host.

(** The executable host meets what the claims ask of a host. *)
Lemma sim_scrypt_default_ok : scrypt_default_ok (host := Sim.host).
Proof.
  intros passwd salt _. eexists. split; [reflexivity|].
  now rewrite length_map, length_seq.
Qed.

Lemma sim_three_ok : three_ok (host := Sim.host).
Proof. split; reflexivity. Qed.

Lemma sim_curve_valid (k : bytes) :
  isValidPrivate (Host := Sim.host) k = true -> curve_valid k.
Proof.
  cbn [isValidPrivate Sim.host]. unfold Sim.in_range, curve_valid.
  intro V. apply andb_prop in V. destruct V as [V V3].
  apply andb_prop in V. destruct V as [V1 V2].
  apply Nat.eqb_eq in V1. apply Z.ltb_lt in V2, V3. auto.
Qed.

Ltac sim_reads_back :=
  let record := fresh "record" in
  let w' := fresh "w'" in
  let E := fresh "E" in
  intros record w' E; apply (f_equal fst) in E; cbn [fst] in E;
  match type of E with
  | ?run = _ =>
      let r := eval vm_compute in run in
      replace run with r in E by (vm_compute; reflexivity)
  end;
  injection E as <-; vm_compute; reflexivity.

(** [EncryptKey] on the sample inputs returns the sample record. *)
Lemma sim_encrypt_sample :
  fst (EncryptKey Samples.key Samples.passwd Samples.world)
    = Return Samples.record.
Proof. vm_compute. reflexivity. Qed.

(** The scenario of the specification: the sample record opens under its
    passphrase and fails with [AuthenticationFailed] under another. *)
Example sim_right_and_wrong_passphrase :
  fst (DecryptKey (Samples.text_of Samples.record) Samples.passwd
         Samples.world) = Return (Hex.encode (prvkey Samples.key)) /\
  fst (DecryptKey (Samples.text_of Samples.record) "wrong password"
         Samples.world) = Throw AuthenticationFailed.
Proof. split; vm_compute; reflexivity. Qed.

(** The third draw of the slow pool is the first valid one. *)
Lemma sim_slow_run :
  GenKey 3 Sim.slow_pool
    = Some (Return Sim.sample_key, after_draws 3 Sim.slow_pool).
Proof.
  rewrite GenKey_unfold.
  rewrite (@GenKey_loop_first Sim.host 2 Sim.slow_pool 3).
  - replace (nth_draw Sim.slow_pool 2) with (prvkey Sim.sample_key)
      by (vm_compute; reflexivity).
    reflexivity.
  - intros [|[|j]] Hj; [vm_compute; reflexivity .. | lia].
  - vm_compute; reflexivity.
  - lia.
Qed.

(** The round trip on the sample key pair. *)
Lemma C1_witness :
  exists record w',
    EncryptKey Samples.key Samples.passwd Samples.world
      = (Return record, w') /\
    forall w2, exists plaintext w3,
      DecryptKey (JStr (JSON_stringify record)) Samples.passwd w2
        = (Return plaintext, w3) /\
      Hex.decode plaintext = prvkey Samples.key /\
      length (Hex.decode plaintext) = 32.
Proof.
  apply (@C1_decrypt_inverts_encrypt Sim.host).
  - reflexivity.
  - exact sim_scrypt_default_ok.
  - exact sim_three_ok.
  - sim_reads_back.
Defined.

(** The layout of the sample record: its salt and its iv are the first
    48 octets of the pool, its ciphertext and its mac those made of the
    sample derived key. *)
Lemma C5_witness :
  exists record w',
    EncryptKey Samples.key Samples.passwd Samples.world
      = (Return record, w') /\
    Get_path record ["version"] = Return (jnum 3) /\
    Get_path record ["crypto"; "kdfparams"; "n"] = Return (jnum 262144) /\
    Get_path record ["crypto"; "kdfparams"; "salt"]
      = Return (JStr (Hex.encode (map (entropy Samples.world) (seq 0 32)))) /\
    Get_path record ["crypto"; "cipherparams"; "iv"]
      = Return (JStr (Hex.encode (map (entropy Samples.world) (seq 32 16)))) /\
    Get_path record ["crypto"; "ciphertext"]
      = Return (JStr (Hex.encode Samples.ciphertext)) /\
    Get_path record ["crypto"; "mac"]
      = Return (JStr (Hex.encode Samples.mac)).
Proof.
  destruct (@C5_record_layout Sim.host Samples.key Samples.passwd
              Samples.world sim_scrypt_default_ok)
    as (dk & record & w' & Hdk & _ & Run & _ & _ & V & _ & _ & _ & N & _ & _
        & _ & S & _ & _ & I & _ & _ & C & _ & M & _).
  assert (D : dk = Samples.dk).
  { apply (f_equal (fun o => match o with
                             | Return b => b
                             | Throw _ => []
                             end)) in Hdk.
    symmetry. exact Hdk. }
  subst dk.
  exists record, w'. repeat split; assumption.
Defined.

(** The tag of the sample record, from the two halves of its derived
    key, and the run of [DecryptKeyV3] on its [crypto] block. *)
Lemma C6_witness :
  let ek := Buf.slice Samples.dk 0 16 in
  let mk := Buf.slice Samples.dk 16 32 in
  let crypto :=
    crypto_object (JStr "aes-128-ctr") (Hex.encode Samples.ciphertext)
      (Hex.encode Samples.iv) (JStr "scrypt")
      (jnum ScryptDKLen) (jnum ScryptN) (jnum ScryptP) (jnum ScryptR)
      (Hex.encode Samples.salt) (JStr (Hex.encode Samples.mac)) in
  (exists w',
     EncryptKey Samples.key Samples.passwd Samples.world
       = (Return Samples.record, w')) /\
  Samples.ciphertext
    = Buf.xor (prvkey Samples.key) (keystream ek Samples.iv 0 32) /\
  Get_path Samples.record ["crypto"; "mac"]
    = Return (JStr (Hex.encode (sha3 (mk ++ Samples.ciphertext)))) /\
  Get Samples.record "crypto" = Return crypto /\
  DecryptKeyV3 crypto Samples.passwd Samples.world
    = (Return (Hex.encode (prvkey Samples.key)),
       log [ CallScrypt Samples.passwd (jnum ScryptN) (jnum ScryptR)
               (jnum ScryptP) (jnum ScryptDKLen) Samples.salt;
             CallSha3 (mk ++ Samples.ciphertext);
             CallCreateCipheriv ek Samples.iv;
             CallCipherUpdate Samples.ciphertext;
             CallCipherFinal ] Samples.world).
Proof.
  intros ek mk crypto.
  destruct (@C6_subkeys_and_tag Sim.host sim_scrypt_default_ok)
    as (Seal & Open & _).
  destruct (Seal Samples.key Samples.passwd Samples.world)
    as (dk & record & w' & evs & Hdk & L & Run & _ & _ & _ & _ & M & _).
  assert (D : dk = Samples.dk).
  { apply (f_equal (fun o => match o with
                             | Return b => b
                             | Throw _ => []
                             end)) in Hdk.
    symmetry. exact Hdk. }
  subst dk.
  assert (R : record = Samples.record).
  { pose proof sim_encrypt_sample as E. rewrite Run in E.
    cbn [fst] in E. now injection E. }
  subst record.
  split; [now exists w'|]. split; [reflexivity|]. split; [exact M|].
  split; [reflexivity|].
  assert (Dv : derivation crypto Samples.passwd
                 (CallScrypt Samples.passwd (jnum ScryptN) (jnum ScryptR)
                    (jnum ScryptP) (jnum ScryptDKLen) Samples.salt)
                 (Return Samples.dk)).
  { exists (JStr (Hex.encode Samples.salt)), Samples.salt, (jnum ScryptN),
      (jnum ScryptR), (jnum ScryptP), (jnum ScryptDKLen).
    repeat split; try reflexivity; try apply Buffer_hex_encode;
      vm_compute; reflexivity. }
  assert (Tg : tag_inputs crypto (JStr (Hex.encode Samples.mac))
                 Samples.iv Samples.ciphertext).
  { split; [reflexivity|].
    split; eexists; (split; [reflexivity | apply Buffer_hex_encode]). }
  pose proof (Open crypto Samples.passwd Samples.world (JStr "aes-128-ctr")
                (JStr "scrypt") (JStr (Hex.encode Samples.mac)) _
                Samples.dk Samples.iv Samples.ciphertext
                eq_refl eq_refl eq_refl eq_refl Dv Tg) as Run3.
  cbv zeta in Run3.
  replace (loose_neq (JStr (Hex.encode Samples.mac)) _)
    with (Return (A := bool) false) in Run3 by (vm_compute; reflexivity).
  replace (Nat.eqb (length Samples.iv) 16) with true in Run3
    by (vm_compute; reflexivity).
  replace (Nat.eqb (length (Buf.slice Samples.dk 0 16)) 16) with true
    in Run3 by (vm_compute; reflexivity).
  cbn [negb] in Run3. rewrite Run3.
  f_equal; try (f_equal; vm_compute; reflexivity).
Defined.

(** The key pair generated from the slow pool. *)
Lemma C7_witness :
  isValidPrivate (prvkey Sim.sample_key) = true /\
  curve_valid (prvkey Sim.sample_key) /\
  pubkey Sim.sample_key = privateToPublic (prvkey Sim.sample_key).
Proof.
  destruct (@C7_generated_key_is_valid Sim.host Sim.slow_pool Sim.sample_key
              (after_draws 3 Sim.slow_pool) sim_curve_valid
              (ex_intro _ 3 sim_slow_run))
    as (V & C & P & _).
  repeat split; assumption.
Defined.

(** [DecryptKey] on the sample record itself and on its text. *)
Lemma C9_witness :
  exists record w',
    EncryptKey Samples.key Samples.passwd Samples.world
      = (Return record, w') /\
    (forall w2,
        DecryptKey record Samples.passwd w2
          = (Throw (ThrownError SyntaxError "Unexpected token in JSON"),
             w2)) /\
    (forall w2, exists w3,
        DecryptKey (JStr (JSON_stringify record)) Samples.passwd w2
          = (Return (Hex.encode (prvkey Samples.key)), w3)).
Proof.
  destruct (@C9_hex_result_and_json_argument Sim.host Samples.key
              Samples.passwd Samples.world
              (ThrownError SyntaxError "Unexpected token in JSON"))
    as (_ & record & w' & Run & Obj & Text & _).
  - reflexivity.
  - exact sim_scrypt_default_ok.
  - exact sim_three_ok.
  - sim_reads_back.
  - vm_compute. reflexivity.
  - exists record, w'. repeat split; assumption.
Defined.

(** Two rejected draws, then the key: three rounds of the loop. *)
Lemma C10_witness :
  exists kp,
    GenKey 3 Sim.slow_pool = Some (Return kp, after_draws 3 Sim.slow_pool) /\
    prvkey kp = nth_draw Sim.slow_pool 2.
Proof.
  apply (proj1 (@C10_redraw_loop_is_unbounded Sim.host Sim.slow_pool) 2).
  - intros [|[|j]] Hj; [vm_compute; reflexivity .. | lia].
  - vm_compute. reflexivity.
  - lia.
Defined.

(** The iv is not covered by the tag: the sample record with one bit of
    its iv flipped (1f... for 1e...) passes the comparison of the tags
    under the right passphrase, and [DecryptKey] returns a string that is
    not the text of the private key instead of failing with
    [AuthenticationFailed]. *)
Lemma C2_counterexample :
  fst (EncryptKey Samples.key Samples.passwd Samples.world)
    = Return Samples.record /\
  Hex.encode (prvkey Samples.key)
    = "0102030405060708090a0b0c0d0e0f101112131415161718191a1b1c1d1e1f20" /\
  Get_path Samples.record ["crypto"; "cipherparams"; "iv"]
    = Return (JStr "1f202122232425262728292a2b2c2d2e") /\
  Get_path Samples.flipped_iv ["crypto"; "cipherparams"; "iv"]
    = Return (JStr "1e202122232425262728292a2b2c2d2e") /\
  Samples.flipped_iv
    = record_of Samples.key Samples.salt (Buf.flip_bit 0 Samples.iv)
        Samples.ciphertext Samples.mac /\
  reads_back Samples.flipped_iv /\
  fst (DecryptKey (Samples.text_of Samples.flipped_iv) Samples.passwd
         Samples.world)
    = Return
        "0002030405060708090a0b0c0d0e0f101012131415161718191a1b1c1d1e1f20" /\
  fst (DecryptKey (Samples.text_of Samples.flipped_iv) Samples.passwd
         Samples.world)
    <> Throw AuthenticationFailed.
Proof.
  split; [exact sim_encrypt_sample|].
  repeat (split; [vm_compute; reflexivity|]).
  vm_compute. discriminate.
Qed.

(** The sample record with a bit flipped in its mac, in its ciphertext,
    in the octet 16 of its salt and in its iv. *)
Lemma C2_witness :
  let opened r :=
    fst (DecryptKey (Samples.text_of r) Samples.passwd Samples.world) in
  opened (record_of Samples.key Samples.salt Samples.iv Samples.ciphertext
            (Buf.flip_bit 0 Samples.mac)) = Throw AuthenticationFailed /\
  opened (record_of Samples.key Samples.salt Samples.iv
            (Buf.flip_bit 0 Samples.ciphertext) Samples.mac)
    = Throw AuthenticationFailed /\
  opened (record_of Samples.key (Buf.flip_bit 128 Samples.salt) Samples.iv
            Samples.ciphertext Samples.mac) = Throw AuthenticationFailed /\
  opened Samples.flipped_iv <> Throw AuthenticationFailed.
Proof.
  intro opened. subst opened. cbv beta.
  destruct (@C2_tampering_and_the_tag Sim.host Samples.key Samples.passwd
              Samples.world sim_scrypt_default_ok sim_three_ok)
    as (dk & w' & Hdk & Run & M & C & S & I).
  assert (D : dk = Samples.dk).
  { apply (f_equal (fun o => match o with
                             | Return b => b
                             | Throw _ => []
                             end)) in Hdk.
    symmetry. exact Hdk. }
  subst dk.
  split; [|split; [|split]].
  - apply (M 0 Samples.world).
    + apply Nat.ltb_lt. vm_compute. reflexivity.
    + vm_compute. reflexivity.
  - apply (C 0 Samples.world).
    + apply Nat.ltb_lt. vm_compute. reflexivity.
    + intro E. vm_compute in E. discriminate E.
    + vm_compute. reflexivity.
  - destruct (S 128 Samples.world) as (dk' & Hdk' & F).
    + apply Nat.ltb_lt. vm_compute. reflexivity.
    + apply (f_equal (fun o => match o with
                               | Return b => b
                               | Throw _ => []
                               end)) in Hdk'.
      cbv beta iota in Hdk'. subst dk'.
      apply F.
      * intro E. vm_compute in E. discriminate E.
      * intro E. vm_compute in E. discriminate E.
      * vm_compute. reflexivity.
  - apply (I 0 Samples.world). vm_compute. reflexivity.
Defined.

(** Values that are not the number 3 and not the strings "aes-128-ctr" and
    "scrypt" pass the three checks: the sample record with the string "3"
    for its version, and the sample record with the arrays ["aes-128-ctr"]
    and ["scrypt"] for its identifiers, are both decrypted, derivation and
    cipher included. *)
Lemma C4_counterexample :
  (Get_path Samples.string_version ["version"] = Return (JStr "3") /\
   reads_back Samples.string_version /\
   fst (DecryptKey (Samples.text_of Samples.string_version) Samples.passwd
          Samples.world) = Return (Hex.encode (prvkey Samples.key)) /\
   existsb is_kdf_call
     (trace (snd (DecryptKey (Samples.text_of Samples.string_version)
                    Samples.passwd Samples.world))) = true /\
   existsb is_cipher_call
     (trace (snd (DecryptKey (Samples.text_of Samples.string_version)
                    Samples.passwd Samples.world))) = true) /\
  (Get_path Samples.array_names ["crypto"; "cipher"]
     = Return (JArr [JStr "aes-128-ctr"]) /\
   Get_path Samples.array_names ["crypto"; "kdf"]
     = Return (JArr [JStr "scrypt"]) /\
   reads_back Samples.array_names /\
   fst (DecryptKey (Samples.text_of Samples.array_names) Samples.passwd
          Samples.world) = Return (Hex.encode (prvkey Samples.key)) /\
   existsb is_kdf_call
     (trace (snd (DecryptKey (Samples.text_of Samples.array_names)
                    Samples.passwd Samples.world))) = true /\
   existsb is_cipher_call
     (trace (snd (DecryptKey (Samples.text_of Samples.array_names)
                    Samples.passwd Samples.world))) = true).
Proof. repeat split; vm_compute; reflexivity. Qed.

(** The sample record with version 4 is refused before any library
    call. *)
Lemma C4_witness :
  DecryptKey (Samples.text_of Samples.version_4) Samples.passwd Samples.world
    = (Throw UnsupportedVersion, Samples.world).
Proof.
  apply (proj1 (@C4_rejected_before_derivation Sim.host
                  (JSON_stringify Samples.version_4) Samples.passwd
                  Samples.version_4 Samples.world
                  ltac:(vm_compute; reflexivity))
           (jnum 4)).
  - reflexivity.
  - right. reflexivity.
Defined.

(** The two conditions on the libraries cannot be dropped: on the
    stand-ins of the executable host, two pools whose salts and ivs differ
    in their first octet give derived keys that differ where the ivs do,
    so that the key streams, the ciphertexts and the tags coincide. *)
Example sim_weak_libraries_collide :
  salt_of Sim.pool_a <> salt_of Sim.pool_b /\
  iv_of Sim.pool_a <> iv_of Sim.pool_b /\
  exists r1 r2,
    fst (EncryptKey Samples.key Samples.passwd Sim.pool_a) = Return r1 /\
    fst (EncryptKey Samples.key Samples.passwd Sim.pool_b) = Return r2 /\
    Get_path r1 ["crypto"; "ciphertext"]
      = Get_path r2 ["crypto"; "ciphertext"] /\
    Get_path r1 ["crypto"; "mac"] = Get_path r2 ["crypto"; "mac"].
Proof.
  split; [vm_compute; discriminate|].
  split; [vm_compute; discriminate|].
  do 2 eexists.
  split; [vm_compute; reflexivity|].
  split; [vm_compute; reflexivity|].
  split; vm_compute; reflexivity.
Qed.

(** Two encryptions of the sample key, from the sample pool and from the
    pool of zeros: the four fields differ. *)
Lemma C8_witness :
  exists r1 r2 w1' w2',
    EncryptKey Samples.key Samples.passwd Samples.world = (Return r1, w1') /\
    EncryptKey Samples.key Samples.passwd Sim.pool_a = (Return r2, w2') /\
    r1 <> r2 /\
    Get_path r1 ["crypto"; "kdfparams"; "salt"]
      <> Get_path r2 ["crypto"; "kdfparams"; "salt"] /\
    Get_path r1 ["crypto"; "cipherparams"; "iv"]
      <> Get_path r2 ["crypto"; "cipherparams"; "iv"] /\
    Get_path r1 ["crypto"; "ciphertext"]
      <> Get_path r2 ["crypto"; "ciphertext"] /\
    Get_path r1 ["crypto"; "mac"] <> Get_path r2 ["crypto"; "mac"].
Proof.
  destruct (@C8_two_encryptions Sim.host Samples.key Samples.passwd
              Samples.world Sim.pool_a sim_scrypt_default_ok sim_three_ok)
    as (dk1 & dk2 & r1 & r2 & w1' & w2' & Hdk1 & Hdk2 & Run1 & Run2 & D
        & _ & _ & Ds & _ & _ & Di & _ & _ & _ & _ & Lib & _).
  - vm_compute. discriminate.
  - vm_compute. discriminate.
  - apply (f_equal (fun o => match o with
                             | Return b => b
                             | Throw _ => []
                             end)) in Hdk1, Hdk2.
    cbv beta iota in Hdk1, Hdk2. subst dk1 dk2.
    destruct Lib as [Dc Dm].
    { intro E. vm_compute in E. discriminate E. }
    exists r1, r2, w1', w2'.
    repeat (split; [assumption|]).
    apply Dm. intro E. vm_compute in E. discriminate E.
Defined.

(* ================================================================== *)
(** * The further properties on the executable host *)

#[local] Existing Instance SimModules.modules.

(** The sample record under another passphrase. *)
Lemma X1_witness :
  exists dk dk' w',
    EncryptKey Samples.key Samples.passwd Samples.world
      = (Return (sealed Samples.key (salt_of Samples.world)
                   (iv_of Samples.world) dk), w') /\
    default_derivation "wrong password" (salt_of Samples.world)
      = Return dk'.
Proof.
  destruct (@X1_other_passphrase Sim.host Samples.key Samples.passwd
              "wrong password" Samples.world sim_scrypt_default_ok
              sim_three_ok)
    as (dk & dk' & w' & Run & _ & D & _).
  exists dk, dk', w'. split; assumption.
Defined.

(** Two encryptions of the sample key in a row. *)
Lemma X2_witness :
  exists r1 w1 r2 w2,
    EncryptKey Samples.key Samples.passwd Samples.world = (Return r1, w1) /\
    EncryptKey Samples.key Samples.passwd w1 = (Return r2, w2) /\
    cursor w2 = cursor Samples.world + 96.
Proof.
  destruct (@X2_successive_encryptions Sim.host Samples.key Samples.key
              Samples.passwd Samples.passwd Samples.world
              sim_scrypt_default_ok)
    as (r1 & w1 & r2 & w2 & Run1 & Run2 & _ & C & _).
  exists r1, w1, r2, w2. repeat split; assumption.
Defined.

(** The block with [dklen] 16 opens under two passphrases. *)
Lemma X4_witness :
  fst (DecryptKeyV3 Cases.short_block "one" Samples.world)
    = Return (Hex.encode (ctr (Cases.short_key "one") Cases.short_iv
                            Cases.short_ciphertext)) /\
  fst (DecryptKeyV3 Cases.short_block "two" Samples.world)
    = Return (Hex.encode (ctr (Cases.short_key "two") Cases.short_iv
                            Cases.short_ciphertext)).
Proof.
  split.
  - apply (@X4_short_derived_key Sim.host (JStr "aes-128-ctr")
             (JStr "scrypt") (JNum 16%Z) (JNum 4%Z) (JNum 1%Z) (JNum 2%Z)
             Cases.short_ciphertext Cases.short_iv Cases.short_salt
             (Cases.short_key "one") "one" Samples.world);
      reflexivity.
  - apply (@X4_short_derived_key Sim.host (JStr "aes-128-ctr")
             (JStr "scrypt") (JNum 16%Z) (JNum 4%Z) (JNum 1%Z) (JNum 2%Z)
             Cases.short_ciphertext Cases.short_iv Cases.short_salt
             (Cases.short_key "two") "two" Samples.world);
      reflexivity.
Defined.

(** A record without [crypto], and a block without [cipherparams]. *)
Lemma X5_witness :
  DecryptKey (Samples.text_of Cases.no_crypto) "any" Samples.world
    = (Throw (ThrownError TypeError
                "Cannot read property 'cipher' of undefined"),
       Samples.world) /\
  DecryptKeyV3 Cases.no_cipherparams "any" Samples.world
    = (Throw (ThrownError TypeError
                "Cannot read property 'iv' of undefined"),
       log [CallScrypt "any" (JNum 4%Z) (JNum 2%Z) (JNum 1%Z) (JNum 32%Z)
              [x07; x08]] Samples.world).
Proof.
  destruct (@X5_missing_blocks Sim.host (JSON_stringify Cases.no_crypto)
              "any" Cases.no_crypto Samples.world
              ltac:(vm_compute; reflexivity)) as [A B].
  split.
  - apply (A (JNum 3%Z)); reflexivity.
  - eapply (B Cases.no_cipherparams (JStr "aes-128-ctr") (JStr "scrypt"));
      try reflexivity.
    exists (JStr "0708"), [x07; x08], (JNum 4%Z), (JNum 2%Z), (JNum 1%Z),
      (JNum 32%Z).
    repeat split.
Defined.

(** The sample record in upper case. *)
Lemma X7_witness :
  fst (DecryptKey (Samples.text_of Cases.upper_data) Samples.passwd
         Samples.world) = Return (Hex.encode (prvkey Samples.key)) /\
  fst (DecryptKey (Samples.text_of Cases.upper_mac) Samples.passwd
         Samples.world) = Throw AuthenticationFailed.
Proof.
  destruct (@X7_upper_case_text Sim.host
              (JStr (Hex.encode (addr Samples.key)))
              (jnum ScryptDKLen) (jnum ScryptN) (jnum ScryptP)
              (jnum ScryptR) (prvkey Samples.key) Samples.salt Samples.iv
              Samples.dk Samples.passwd Samples.world sim_three_ok)
    as [A B].
  - vm_compute. reflexivity.
  - apply Nat.leb_le. vm_compute. reflexivity.
  - vm_compute. reflexivity.
  - split.
    + apply A. vm_compute. reflexivity.
    + apply B.
      * vm_compute. reflexivity.
      * vm_compute. discriminate.
Defined.

(** The record of another implementation opens to its five octets. *)
Lemma X8_witness :
  fst (DecryptKey (Samples.text_of Cases.foreign) "another passphrase"
         Samples.world) = Return "68656c6c6f" /\
  existsb (fun e => match e with
                    | CallScrypt _ (JNum 1024%Z) (JNum 4%Z) (JNum 2%Z)
                        (JNum 48%Z) _ => true
                    | _ => false
                    end)
    (trace (snd (DecryptKey (Samples.text_of Cases.foreign)
                   "another passphrase" Samples.world))) = true.
Proof.
  assert (R := @X8_foreign_record Sim.host (JStr "nobody") (JNum 48%Z)
                 (JNum 1024%Z) (JNum 2%Z) (JNum 4%Z) Cases.foreign_secret
                 Cases.foreign_salt Cases.foreign_iv Cases.foreign_key
                 "another passphrase" Samples.world sim_three_ok
                 ltac:(vm_compute; reflexivity)
                 ltac:(vm_compute; reflexivity)
                 ltac:(apply Nat.leb_le; vm_compute; reflexivity)
                 ltac:(reflexivity)).
  cbv zeta in R. unfold Samples.text_of, Cases.foreign.
  fold Cases.foreign_ciphertext in R. rewrite R.
  split; reflexivity.
Defined.

(** [getKDFKey] on the sample record and on its [crypto] block. *)
Lemma X9_witness :
  exists record crypto w',
    EncryptKey Samples.key Samples.passwd Samples.world
      = (Return record, w') /\
    Get record "crypto" = Return crypto /\
    fst (getKDFKey Cases.echo crypto (JStr Samples.passwd) Samples.world)
      = Throw (ThrownError TypeError
                 "Cannot read property 'salt' of undefined").
Proof.
  destruct (@X9_getKDFKey_own_records Sim.host value Cases.echo Samples.key
              Samples.passwd (JStr Samples.passwd) Samples.world
              Samples.world sim_scrypt_default_ok)
    as (record & crypto & w' & Run & G & _ & F & _).
  exists record, crypto, w'. rewrite F. repeat split; assumption.
Defined.

(** A block in the spelling [getKDFKey] reads, with another KDF. *)
Lemma X10_witness :
  exists name,
    ToString (JStr "pbkdf2") = Return name /\
    getKDFKey Cases.echo Cases.capitals (JStr Samples.passwd) Samples.world
      = (Return (Message ("Unsupported KDF: " ++ name)), Samples.world).
Proof.
  apply (@X10_getKDFKey_message Sim.host value Cases.echo Cases.capitals
           (JStr Samples.passwd) (JObj [ ("salt", JStr "0708") ])
           (JStr "pbkdf2") Samples.world);
    try reflexivity; discriminate.
Defined.

(** The sample call with the key last, and with the key before the
    options. *)
Lemma X12_witness :
  toPayload SimModules.transfer Cases.timestamp Cases.nonce
    (SimModules.params ++ [SimModules.options; SimModules.privkey])
    = payload_of SimModules.transfer Cases.timestamp Cases.nonce
        (KeyBuffer [x00; xff; x10]) SimModules.options SimModules.params /\
  toPayload SimModules.transfer Cases.timestamp Cases.nonce
    (SimModules.params ++ [SimModules.privkey; SimModules.options])
    = payload_of SimModules.transfer Cases.timestamp Cases.nonce
        (KeyString EmptyString) SimModules.options
        (SimModules.params ++ [SimModules.privkey]).
Proof.
  apply (@X12_key_after_options Sim.host SimModules.modules
           SimModules.transfer Cases.timestamp Cases.nonce
           SimModules.params SimModules.options "00ff10");
    [simpl; lia | reflexivity ..].
Defined.

(** The sample call without options. *)
Lemma X13_witness :
  toPayload SimModules.transfer Cases.timestamp Cases.nonce
    SimModules.params
    = Throw (ThrownError TypeError
               "Cannot read property 'slice' of undefined").
Proof.
  apply (proj1 (@X13_options_required Sim.host SimModules.modules
                  SimModules.transfer Cases.timestamp Cases.nonce)).
  simpl. lia.
Defined.

(** The sample call through [call]. *)
Lemma X15_witness :
  call SimModules.transfer Cases.timestamp Cases.nonce
    (SimModules.params ++ [SimModules.options; SimModules.privkey])
    = and_then (payload_of SimModules.transfer Cases.timestamp Cases.nonce
                  (KeyString EmptyString) SimModules.options
                  SimModules.params) (fun payload =>
      and_then (eth_call payload SimModules.privkey) (fun output =>
      and_then (unpackOutput SimModules.transfer output) (fun result =>
      Return (Output result)))).
Proof.
  apply (@X15_call_takes_the_key_for_a_block Sim.host SimModules.modules
           SimModules.transfer Cases.timestamp Cases.nonce
           SimModules.params SimModules.options "00ff10");
    [simpl; lia | reflexivity ..].
Defined.

(** What the signer is given in the sample call: the caller's options
    with "0x" put before their [from], the address of the contract for
    their [to], and the encoding of the two parameters in the payload. *)
Lemma X16_witness :
  exists signed digest encoded,
    sign signed ("0x" ++ digest) (KeyBuffer [x00; xff; x10])
      = Return Cases.payload /\
    encodeParams (_inputTypes SimModules.transfer) SimModules.params
      = Return (JStr encoded) /\
    Get signed "from" = Return (JStr "0xa11ce") /\
    Get signed "to" = Return (JStr "0xc0ffee") /\
    Get signed "payload"
      = Return (JStr ("0x" ++ signature SimModules.transfer ++ encoded)) /\
    Get signed "gas" = Return (JNum 7%Z).
Proof.
  destruct (@X16_signed_fields Sim.host SimModules.modules
              SimModules.transfer Cases.timestamp Cases.nonce
              (SimModules.params ++ [SimModules.options; SimModules.privkey])
              Cases.payload ltac:(vm_compute; reflexivity))
    as (privkey & options & kept & taken & from & sender & encoded & text
        & signed & hash & digest & E & L & Hin & Ho & K & G & _ & _ & Fs
        & Enc & T & F & To & Pl & _ & _ & Oth & _ & _ & S).
  assert (Shape : kept = SimModules.params /\
                  options = SimModules.options /\
                  taken = [SimModules.options; SimModules.privkey]).
  { cbn [app SimModules.params] in E.
    destruct kept as [|a [|b [|c [|d [|x kept]]]]]; cbn [app] in E.
    - subst taken. cbn [length] in L. lia.
    - injection E as _ <-. cbn [length] in L. lia.
    - injection E as <- <- <-. cbn [In] in Hin.
      destruct Hin as [<- | [<- | []]];
        [now repeat split | discriminate Ho].
    - injection E as _ _ _ <-. cbn [In] in Hin.
      destruct Hin as [<- | []]. discriminate Ho.
    - injection E as _ _ _ _ <-. destruct Hin.
    - discriminate E. }
  destruct Shape as (-> & -> & ->).
  destruct K as [[K _] | (b & _ & B & ->)]; [discriminate K|].
  assert (Eb : b = [x00; xff; x10]).
  { vm_compute in B. now injection B as <-. }
  subst b.
  assert (Ef : from = JStr "a11ce").
  { vm_compute in G. now injection G as <-. }
  specialize (Fs "a11ce" Ef). cbn in Fs. subst sender.
  assert (Ee : encoded = JStr text).
  { vm_compute in Enc. injection Enc as <-.
    vm_compute in T. now injection T as <-. }
  subst encoded.
  exists signed, digest, text.
  split; [exact S|]. split; [exact Enc|]. split; [exact F|].
  split; [exact To|]. split; [exact Pl|].
  rewrite Oth; [reflexivity|].
  cbn [In]. intros [Ek | [Ek | [Ek | [Ek | [Ek | []]]]]]; discriminate Ek.
Defined.

(** The sample call through [sendTransaction], without the key. *)
Lemma X17_witness :
  sendTransaction SimModules.transfer Cases.timestamp Cases.nonce
    (SimModules.params ++ [SimModules.options])
    = Throw (ThrownError TypeError
               "Cannot read property 'slice' of undefined").
Proof.
  apply (@X17_sendTransaction_needs_the_key Sim.host SimModules.modules
           SimModules.transfer Cases.timestamp Cases.nonce
           SimModules.params);
    [simpl; lia | reflexivity ..].
Defined.

(** The sample call through [sendTransaction], with a timeout of 0 and no
    interval for its query options. *)
Lemma X18_witness :
  exists hash,
    sendTransaction SimModules.transfer Cases.timestamp Cases.nonce
      ((SimModules.params ++ [SimModules.options])
         ++ [SimModules.privkey; JObj [ ("timeout", JNum 0%Z) ]])
      = Return (Polls hash (JObj [ ("timeout", JNum 8000%Z);
                                   ("interval", JNum 50%Z) ])).
Proof.
  destruct (@X18_query_options Sim.host SimModules.modules
              SimModules.transfer Cases.timestamp Cases.nonce
              (SimModules.params ++ [SimModules.options])
              [ ("timeout", JNum 0%Z) ] "00ff10")
    as [A _]; try reflexivity.
  eexists. etransitivity; [exact A|]. vm_compute. reflexivity.
Defined.
